(** * Empty-classroom timetable: a shallow embedding of
      [sandol/crawler/classroom_parser.py] and [sandol/crawler/classroom.py]

    Python values are modelled as the interpreter has them: a [str] is a
    sequence of Unicode code points, a [dict] is an insertion-ordered
    association list, an exception is an explicit [Raise] result, and the
    attributes of an object are the fields of a state record threaded
    through its methods. *)

From Stdlib Require Import List ZArith NArith Bool Lia Arith.
From Stdlib Require Import Ascii String Permutation Sorted.
Import ListNotations.

Set Implicit Arguments.

Open Scope string_scope.
Open Scope list_scope.

(* ================================================================== *)
(** ** Python strings *)
(* ================================================================== *)

Module Py.

(** A code point. *)
Definition char := N.

(** A Python [str]. *)
Definition str := list char.

Definition ch (a : ascii) : char := N_of_ascii a.
Arguments ch a%_char.

(** UTF-8 decoding of a source literal, so that the constants of the
    program can be written as they appear in the source text. *)
Fixpoint utf8_go (pending : nat) (acc : N) (bs : list N) : str :=
  match bs with
  | [] => []
  | b :: bs' =>
      match pending with
      | O =>
          if (b <? 0x80)%N then b :: utf8_go 0 0 bs'
          else if (b <? 0xE0)%N then utf8_go 1 (b - 0xC0) bs'
          else if (b <? 0xF0)%N then utf8_go 2 (b - 0xE0) bs'
          else utf8_go 3 (b - 0xF0) bs'
      | S O => (acc * 64 + (b - 0x80))%N :: utf8_go 0 0 bs'
      | S k => utf8_go k (acc * 64 + (b - 0x80))%N bs'
      end
  end.

Definition lit (s : string) : str :=
  utf8_go 0 0 (map N_of_ascii (list_ascii_of_string s)).

Definition str_eqb (a b : str) : bool :=
  if list_eq_dec N.eq_dec a b then true else false.

(** [s.startswith(p)] *)
Fixpoint startswith (s p : str) {struct p} : bool :=
  match p, s with
  | [], _ => true
  | c :: p', d :: s' => (c =? d)%N && startswith s' p'
  | _ :: _, [] => false
  end.

(** [k in s] for strings: [k] occurs as a contiguous substring. *)
Fixpoint contains (k s : str) : bool :=
  startswith s k || match s with [] => false | _ :: s' => contains k s' end.

(** [str.isspace] of one code point (bidirectional class WS, B or S, or
    general category Zs); this is also what [str.strip()] removes and what
    [\s] matches in a [str] pattern. *)
Definition isspace (c : char) : bool :=
  ((0x09 <=? c) && (c <=? 0x0D) || (0x1C <=? c) && (c <=? 0x20)
   || (c =? 0x85) || (c =? 0xA0) || (c =? 0x1680)
   || (0x2000 <=? c) && (c <=? 0x200A)
   || (c =? 0x2028) || (c =? 0x2029) || (c =? 0x202F) || (c =? 0x205F)
   || (c =? 0x3000))%N.

Fixpoint lstrip (s : str) : str :=
  match s with
  | c :: s' => if isspace c then lstrip s' else s
  | [] => []
  end.

Definition rstrip (s : str) : str := rev (lstrip (rev s)).

(** [s.strip()] *)
Definition strip (s : str) : str := rstrip (lstrip s).

(** [s.split(sep)] for a one-character separator: always at least one
    piece, one more piece than there are separators. *)
Fixpoint split (sep : char) (s : str) : list str :=
  match s with
  | [] => [[]]
  | c :: s' =>
      if (c =? sep)%N then [] :: split sep s'
      else match split sep s' with
           | h :: t => (c :: h) :: t
           | [] => [[c]]
           end
  end.

(** [s.replace(old, '')] for a non-empty [old]: every non-overlapping
    occurrence of [old], scanning from the left, is removed.  [skip]
    counts the characters of the current occurrence still to be dropped. *)
Fixpoint remove_go (old : str) (skip : nat) (s : str) : str :=
  match s with
  | [] => []
  | c :: s' =>
      match skip with
      | S k => remove_go old k s'
      | O => if startswith s old then remove_go old (pred (List.length old)) s'
             else c :: remove_go old 0 s'
      end
  end.

Definition remove_all (old s : str) : str :=
  match old with
  | [] => s
  | _ => remove_go old 0 s
  end.

(** Python values stored in a token dictionary or a table cell. *)
Inductive value := PNone | PStr (s : str).

Definition value_eqb (a b : value) : bool :=
  match a, b with
  | PNone, PNone => true
  | PStr x, PStr y => str_eqb x y
  | _, _ => false
  end.

(** Exceptions the crawler can raise. *)
Inductive exn :=
| KeyError (key : string)
| ValueError (msg : string)
| TypeError (msg : string).

Inductive result (A : Type) :=
| Ok (a : A)
| Raise (e : exn).
Arguments Ok {A} a.
Arguments Raise {A} e.

Definition bind {A B} (m : result A) (f : A -> result B) : result B :=
  match m with
  | Ok a => f a
  | Raise e => Raise e
  end.

Fixpoint mapM {A B} (f : A -> result B) (l : list A) : result (list B) :=
  match l with
  | [] => Ok []
  | x :: l' =>
      bind (f x) (fun y => bind (mapM f l') (fun ys => Ok (y :: ys)))
  end.

(** Insertion-ordered dictionaries. *)
Section Dict.
Variables (K V : Type) (eqb : K -> K -> bool).

Definition dict := list (K * V).

Fixpoint dict_get (d : dict) (k : K) : option V :=
  match d with
  | [] => None
  | (k', v) :: d' => if eqb k' k then Some v else dict_get d' k
  end.

(** [d[k] = v]: an existing key keeps its place, a new key goes last. *)
Fixpoint dict_set (d : dict) (k : K) (v : V) : dict :=
  match d with
  | [] => [(k, v)]
  | (k', v') :: d' =>
      if eqb k' k then (k', v) :: d' else (k', v') :: dict_set d' k v
  end.

Definition dict_mem (d : dict) (k : K) : bool :=
  match dict_get d k with Some _ => true | None => false end.

(** [d[k] = f(d[k])] when [k] is present, [d[k] = f(absent)] otherwise;
    as with [dict_set] an existing key keeps its place. *)
Fixpoint dict_upd (d : dict) (k : K) (f : option V -> V) : dict :=
  match d with
  | [] => [(k, f None)]
  | (k', v') :: d' =>
      if eqb k' k then (k', f (Some v')) :: d'
      else (k', v') :: dict_upd d' k f
  end.
End Dict.

End Py.

Import Py.

Notation "x <- m ;; f" := (bind m (fun x => f))
  (at level 61, m at next level, right associativity).


(* ================================================================== *)
(** ** The regular expressions of [re] that the crawler uses *)
(* ================================================================== *)

Module Re.

(** The tables of the interpreter's Unicode database that a [str] pattern
    consults and that are not part of the repository: [\w] is
    [str.isalnum] or an underscore, [\d] is a decimal digit (general
    category Nd), and [int()] reads such a digit by its decimal value. *)
Record unicode_db := {
  isalnum : char -> bool;
  decimal : char -> option Z
}.

Definition isdecimal (U : unicode_db) (c : char) : bool :=
  match decimal U c with Some _ => true | None => false end.

(** A set of characters: one item of a pattern that consumes one
    character. *)
Inductive cset :=
| CChar (c : char)          (* a literal character *)
| CRange (lo hi : char)     (* [lo-hi] *)
| CWord                     (* \w *)
| CDigit                    (* \d *)
| CSpace                    (* \s *)
| CAny.                     (* .  (no DOTALL: anything but a newline) *)

Definition cset_mem (U : unicode_db) (cs : cset) (c : char) : bool :=
  match cs with
  | CChar d => (c =? d)%N
  | CRange lo hi => (lo <=? c)%N && (c <=? hi)%N
  | CWord => isalnum U c || (c =? ch "_")%N
  | CDigit => isdecimal U c
  | CSpace => isspace c
  | CAny => negb (c =? 0x0A)%N
  end.

(** Patterns.  [RRep cs lo hi] is the greedy repetition [cs{lo,hi}]
    ([hi = None] for no upper bound): [+] is [RRep _ 1 None], [*] is
    [RRep _ 0 None], [?] is [RRep _ 0 (Some 1)], [{2}] is
    [RRep _ 2 (Some 2)]. *)
Inductive regex :=
| RSet (cs : cset)
| RRep (cs : cset) (lo : nat) (hi : option nat)
| RSeq (r1 r2 : regex)
| RAlt (r1 r2 : regex)
| RGroup (name : string) (r : regex)
| REnd.                     (* $ *)

(** The matcher's position: characters consumed so far, what is left of
    the subject, and the groups closed so far (latest first). *)
Record mstate := {
  pos : nat;
  rest : str;
  groups : list (string * str)
}.

Section Matcher.
Variable U : unicode_db.
Variable R : Type.

(** Greedy repetition of a character set with backtracking: take as many
    characters as allowed, and give them back one at a time while the
    continuation [k] fails. *)
Fixpoint rep_greedy (cs : cset) (lo : nat) (hi : option nat)
    (p : nat) (s : str) (k : nat -> str -> option R) : option R :=
  let stop := match lo with O => k p s | S _ => None end in
  match hi with
  | Some O => stop
  | _ =>
      match s with
      | c :: s' =>
          if cset_mem U cs c then
            match rep_greedy cs (pred lo) (option_map pred hi) (S p) s' k with
            | Some r => Some r
            | None => stop
            end
          else stop
      | [] => stop
      end
  end.

(** Backtracking matcher in continuation-passing style: alternatives are
    tried left to right and the first overall success wins, as in [re]. *)
Fixpoint rmatch (r : regex) (st : mstate) (k : mstate -> option R)
    : option R :=
  match r with
  | RSet cs =>
      match rest st with
      | c :: s' =>
          if cset_mem U cs c
          then k {| pos := S (pos st); rest := s'; groups := groups st |}
          else None
      | [] => None
      end
  | RRep cs lo hi =>
      rep_greedy cs lo hi (pos st) (rest st)
        (fun p s => k {| pos := p; rest := s; groups := groups st |})
  | RSeq r1 r2 => rmatch r1 st (fun st' => rmatch r2 st' k)
  | RAlt r1 r2 =>
      match rmatch r1 st k with
      | Some x => Some x
      | None => rmatch r2 st k
      end
  | RGroup name r1 =>
      rmatch r1 st (fun st' =>
        k {| pos := pos st'; rest := rest st';
             groups := (name, firstn (pos st' - pos st) (rest st))
                         :: groups st' |})
  | REnd =>
      (* end of the string, or just before a newline that ends it *)
      match rest st with
      | [] => k st
      | [c] => if (c =? 0x0A)%N then k st else None
      | _ => None
      end
  end.
End Matcher.

(** A match object. *)
Record rmatch_obj := {
  m_start : nat;
  m_end : nat;
  m_rest : str;                      (* the subject after the match *)
  m_groups : list (string * str)
}.

(** [m.group(name)] of a group that took part in the match. *)
Fixpoint group (gs : list (string * str)) (name : string) : str :=
  match gs with
  | [] => []
  | (n, s) :: gs' => if String.eqb n name then s else group gs' name
  end.

(** [pattern.match] at one position of the subject. *)
Definition match_here (U : unicode_db) (r : regex) (p : nat) (s : str)
    : option rmatch_obj :=
  rmatch U r {| pos := p; rest := s; groups := [] |}
    (fun st => Some {| m_start := p; m_end := pos st; m_rest := rest st;
                       m_groups := groups st |}).

(** [re.search]: the leftmost position at which the pattern matches. *)
Fixpoint search_from (U : unicode_db) (r : regex) (p : nat) (s : str)
    : option rmatch_obj :=
  match match_here U r p s with
  | Some m => Some m
  | None =>
      match s with
      | [] => None
      | _ :: s' => search_from U r (S p) s'
      end
  end.

Definition search (U : unicode_db) (r : regex) (s : str) :=
  search_from U r 0 s.

(** [re.finditer]: the non-overlapping matches from left to right.  After
    a match the scan resumes where the match ended; [skip] counts the
    characters of the last match that the scan still has to step over.
    (A pattern that can match the empty string needs more care; the one
    pattern iterated here consumes at least a bracket.) *)
Fixpoint finditer_go (U : unicode_db) (r : regex) (skip : nat) (p : nat)
    (s : str) : list rmatch_obj :=
  match skip with
  | S k =>
      match s with
      | [] => []
      | _ :: s' => finditer_go U r k (S p) s'
      end
  | O =>
      match match_here U r p s with
      | Some m =>
          m :: match s with
               | [] => []
               | _ :: s' => finditer_go U r (pred (m_end m - p)) (S p) s'
               end
      | None =>
          match s with
          | [] => []
          | _ :: s' => finditer_go U r 0 (S p) s'
          end
      end
  end.

Definition finditer (U : unicode_db) (r : regex) (s : str) :=
  finditer_go U r 0 0 s.

(** Sequencing of several items. *)
Fixpoint rseq (rs : list regex) : regex :=
  match rs with
  | [] => RRep CAny 0 (Some 0)
  | [r] => r
  | r :: rs' => RSeq r (rseq rs')
  end.

End Re.

Import Re.

(** The part of the Unicode database that timetable text is written in:
    Basic Latin letters and digits and the Hangul syllables.  It serves to
    run the program on concrete descriptions; every general statement
    below holds for an arbitrary database. *)
Definition ucd_timetable : unicode_db := {|
  isalnum c :=
    ((0x30 <=? c) && (c <=? 0x39) || (0x41 <=? c) && (c <=? 0x5A)
     || (0x61 <=? c) && (c <=? 0x7A) || (0xAC00 <=? c) && (c <=? 0xD7A3))%N;
  decimal c :=
    if ((0x30 <=? c) && (c <=? 0x39))%N then Some (Z.of_N c - 48)%Z
    else None
|}.

(* ================================================================== *)
(** ** [classroom_parser.py] *)
(* ================================================================== *)

Module Parser.

(** *** class LectureParser *)

Definition time_pattern : regex :=
  rseq [ RGroup "day" (RRep CWord 1 None);
         RRep CSpace 0 None;
         RSet (CChar (ch "["));
         RGroup "start_end"
           (rseq [ RRep CDigit 1 None;
                   RRep (CChar (ch "~")) 0 (Some 1);
                   RRep CDigit 0 None ]);
         RSet (CChar (ch "]"));
         RRep CSpace 0 None;
         RGroup "start_time"
           (rseq [ RRep CDigit 2 (Some 2);
                   RSet (CChar (ch ":"));
                   RRep CDigit 2 (Some 2) ]);
         RSet (CChar (ch "~"));
         RGroup "end_time"
           (rseq [ RRep CDigit 2 (Some 2);
                   RSet (CChar (ch ":"));
                   RRep CDigit 2 (Some 2) ]) ].

Definition room_pattern : regex :=
  rseq [ RSet (CChar (ch "("));
         RGroup "room" (RRep CAny 1 None);
         RSet (CChar (ch ")"));
         REnd ].

(** The exclusion keywords of line 26. *)
Definition keywords : list str :=
  [lit "온라인"; lit "미배정"; lit "연구실"].

(** One parsed segment: a Python dictionary. *)
Definition token := dict string value.

Definition new_token (m : rmatch_obj) : token :=
  [ ("day", PStr (group (m_groups m) "day"));
    ("start_time", PStr (group (m_groups m) "start_time"));
    ("end_time", PStr (group (m_groups m) "end_time"));
    ("room", PNone) ].

(** [room_list[i].strip() if len(room_list) > i else None] *)
Definition room_entry (room_list : list str) (i : nat) : value :=
  match nth_error room_list i with
  | Some r => PStr (strip r)
  | None => PNone
  end.

(** The body of the loop of lines 29-33 for one entry. *)
Definition attach_rooms (room_list : list str) (entry : token)
    : result token :=
  let entry := dict_set String.eqb entry "room_a" (room_entry room_list 0) in
  let entry := dict_set String.eqb entry "room_b" (room_entry room_list 1) in
  if (2 <? List.length room_list)%nat
  then Raise (ValueError "room is more than 2")
  else Ok entry.

Definition parse_lecture_time (U : unicode_db) (lecture_time : str)
    : result (list token) :=
  let time_matches := finditer U time_pattern lecture_time in
  let result := map new_token time_matches in
  match search U room_pattern lecture_time with
  | Some room_match =>
      let room_info := group (m_groups room_match) "room" in
      if existsb (fun keyword => contains keyword room_info) keywords
      then Ok []
      else
        let room_list := split (ch ",") room_info in
        mapM (attach_rooms room_list) result
  | None => Ok result
  end.

(** A row of the spreadsheet: the description column and the columns that
    are carried along unchanged. *)
Record RawScheduleRow := {
  lecture_time : str;
  passthrough : dict str value
}.

(** A row of the expanded table: a copy of the raw row with five more
    columns. *)
Record ExpandedRecord := {
  source : RawScheduleRow;
  col_Day : value;
  col_Free_From : value;
  col_Free_To : value;
  col_RoomA : value;
  col_RoomB : value
}.

(** [d[k]] *)
Definition getitem (d : token) (k : string) : result value :=
  match dict_get String.eqb d k with
  | Some v => Ok v
  | None => Raise (KeyError k)
  end.

(** The body of the loop of lines 40-47. *)
Definition expand_token (row : RawScheduleRow) (parsed_time : token)
    : result ExpandedRecord :=
  day <- getitem parsed_time "day" ;;
  start_time <- getitem parsed_time "start_time" ;;
  end_time <- getitem parsed_time "end_time" ;;
  room_a <- getitem parsed_time "room_a" ;;
  room_b <- getitem parsed_time "room_b" ;;
  Ok {| source := row; col_Day := day; col_Free_From := start_time;
        col_Free_To := end_time; col_RoomA := room_a; col_RoomB := room_b |}.

Definition expand_row (U : unicode_db) (row : RawScheduleRow)
    : result (list ExpandedRecord) :=
  parsed_times <- parse_lecture_time U (lecture_time row) ;;
  mapM (expand_token row) parsed_times.

Fixpoint expand_lecture_times (U : unicode_db) (df : list RawScheduleRow)
    : result (list ExpandedRecord) :=
  match df with
  | [] => Ok []
  | row :: df' =>
      rows <- expand_row U row ;;
      more <- expand_lecture_times U df' ;;
      Ok (rows ++ more)
  end.

End Parser.

Module Scheduler.
Import Parser.

(** *** [datetime] *)

(** [datetime.strptime(_, '%H:%M')] fills in the date 1900-01-01; such a
    value is kept as the number of minutes after midnight of that day, a
    [timedelta] as a number of minutes. *)
Abbreviation datetime := Z (only parsing).

(** The pattern that [_strptime] compiles the format ['%H:%M'] to:
    [(?P<H>2[0-3]|[0-1]\d|\d):(?P<M>[0-5]\d|\d)]. *)
Definition format_regex : regex :=
  rseq [ RGroup "H"
           (RAlt (RSeq (RSet (CChar (ch "2"))) (RSet (CRange (ch "0") (ch "3"))))
              (RAlt (RSeq (RSet (CRange (ch "0") (ch "1"))) (RSet CDigit))
                 (RSet CDigit)));
         RSet (CChar (ch ":"));
         RGroup "M"
           (RAlt (RSeq (RSet (CRange (ch "0") (ch "5"))) (RSet CDigit))
              (RSet CDigit)) ].

(** [int(s)] of a string of decimal digits. *)
Definition int_of (U : unicode_db) (s : str) : Z :=
  fold_left
    (fun acc c => match decimal U c with
                  | Some d => acc * 10 + d
                  | None => acc * 10
                  end)%Z
    s 0%Z.

(** [datetime.strptime(v, '%H:%M')]: a value that is not a string is a
    [TypeError]; a string that the pattern does not match at its start, or
    does not match to its end, is a [ValueError]. *)
Definition strptime (U : unicode_db) (v : value) : result datetime :=
  match v with
  | PNone => Raise (TypeError "strptime() argument 1 must be str, not None")
  | PStr data_string =>
      match match_here U format_regex 0 data_string with
      | None => Raise (ValueError "time data does not match format")
      | Some found =>
          if negb (List.length data_string =? m_end found)%nat
          then Raise (ValueError "unconverted data remains")
          else Ok (int_of U (group (m_groups found) "H") * 60
                   + int_of U (group (m_groups found) "M"))%Z
      end
  end.

(** [t.strftime('%H%M')] *)
Definition pad2 (n : Z) : str :=
  [Z.to_N (48 + n / 10); Z.to_N (48 + n mod 10)].

Definition strftime (t : datetime) : str :=
  pad2 ((t / 60) mod 24) ++ pad2 (t mod 60).

(** *** class RoomScheduler *)

Definition buildings : list str :=
  [lit "A동"; lit "B동"; lit "C동"; lit "D동"; lit "E동"; lit "F동";
   lit "G동"; lit "종합"; lit "TIP"; lit "산융"; lit "비즈"].

Definition days : list str :=
  [lit "월"; lit "화"; lit "수"; lit "목"; lit "금"; lit "토"].

Definition interval := (datetime * datetime)%type.

(** [room_schedule[building][room_number][day]] is a list of booked
    intervals.  The day comes from a table cell, so it is any value. *)
Definition day_map := dict value (list interval).
Definition room_map := dict str day_map.
Definition building_map := dict str room_map.

Record RoomScheduler := {
  df : list ExpandedRecord;
  room_schedule : building_map
}.

(** [RoomScheduler(df)] *)
Definition init (df : list ExpandedRecord) : RoomScheduler :=
  {| df := df; room_schedule := [] |}.

Definition or_empty {A} (o : option (list A)) : list A :=
  match o with Some l => l | None => [] end.

(** [room_schedule[building][room_number][day] = f(the list there)], with
    the three levels created empty when absent (lines 70-76). *)
Definition at_day (rs : building_map) (building room_number : str)
    (day : value) (f : list interval -> list interval) : building_map :=
  dict_upd str_eqb rs building (fun rooms =>
    dict_upd str_eqb (or_empty rooms) room_number (fun schedule =>
      dict_upd value_eqb (or_empty schedule) day (fun booked =>
        f (or_empty booked)))).

(** Line 66: the first known building name the room string starts with. *)
Definition find_building (single_room : str) : option str :=
  find (fun b => startswith single_room b) buildings.

(** Lines 66-69: the building and the room number of one room string;
    [None] when the loop moves on to the next room. *)
Definition resolve_room (single_room : str) : option (str * str) :=
  match find_building single_room with
  | None => None
  | Some building =>
      match building with
      | [] => None                      (* [if not building] *)
      | _ => Some (building, strip (remove_all building single_room))
      end
  end.

(** Lines 65-85 for one room string of one row. *)
Definition add_room (U : unicode_db) (row : ExpandedRecord)
    (rs : building_map) (single_room : str) : result building_map :=
  match resolve_room (strip single_room) with
  | None => Ok rs
  | Some (building, room_number) =>
      let day := col_Day row in
      let rs := at_day rs building room_number day (fun l => l) in
      match strptime U (col_Free_From row) with
      | Raise (ValueError _) => Ok rs         (* printed, then [continue] *)
      | Raise e => Raise e
      | Ok start_dt =>
          match strptime U (col_Free_To row) with
          | Raise (ValueError _) => Ok rs
          | Raise e => Raise e
          | Ok end_dt =>
              Ok (at_day rs building room_number day
                    (fun l => l ++ [(start_dt, end_dt)]))
          end
      end
  end.

Fixpoint foldM {A B} (f : B -> A -> result B) (l : list A) (b : B)
    : result B :=
  match l with
  | [] => Ok b
  | x :: l' => b' <- f b x ;; foldM f l' b'
  end.

(** Lines 61-64 for one room column of one row. *)
Definition add_column (U : unicode_db) (row : ExpandedRecord)
    (rs : building_map) (room : value) : result building_map :=
  match room with
  | PNone => Ok rs                            (* [pd.isna(room)] *)
  | PStr room => foldM (add_room U row) (split (ch ",") room) rs
  end.

Definition add_row (U : unicode_db) (rs : building_map)
    (row : ExpandedRecord) : result building_map :=
  foldM (add_column U row) [col_RoomA row; col_RoomB row] rs.

Definition extract_room_schedule (U : unicode_db) (self : RoomScheduler)
    : result RoomScheduler :=
  rs <- foldM (add_row U) (df self) (room_schedule self) ;;
  Ok {| df := df self; room_schedule := rs |}.

Definition operating_start : datetime := (9 * 60 + 30)%Z.
Definition operating_end : datetime := (22 * 60)%Z.
Definition min_free_duration : Z := 30%Z.

(** [booked_times.sort(key=lambda x: x[0])]: a stable sort on the start
    time.  The outcome of a stable sort on a totally ordered key is
    unique, so insertion sort stands for the interpreter's. *)
Fixpoint insert_by_start (x : interval) (l : list interval)
    : list interval :=
  match l with
  | [] => [x]
  | y :: l' =>
      if (fst x <=? fst y)%Z then x :: y :: l'
      else y :: insert_by_start x l'
  end.

Fixpoint sort_by_start (l : list interval) : list interval :=
  match l with
  | [] => []
  | x :: l' => insert_by_start x (sort_by_start l')
  end.

(** A candidate gap is kept when it lasts at least [min_free_duration]. *)
Definition candidate (free_start free_end : datetime) : list interval :=
  if (min_free_duration <=? free_end - free_start)%Z
  then [(free_start, free_end)] else [].

(** The loop of lines 104-111 and the trailing gap of lines 112-117. *)
Fixpoint sweep (current_time : datetime) (booked_times : list interval)
    : list interval :=
  match booked_times with
  | [] =>
      if (current_time <? operating_end)%Z
      then candidate current_time operating_end else []
  | (start, end_) :: booked' =>
      (if (current_time <? start)%Z
       then candidate current_time start else [])
      ++ sweep (Z.max current_time end_) booked'
  end.

(** Lines 98-117: the free times of one room on one day. *)
Definition free_times (booked_times : list interval) : list interval :=
  let booked_times := sort_by_start booked_times in
  match booked_times with
  | [] => [(operating_start, operating_end)]
  | _ => sweep operating_start booked_times
  end.

(** A row of the result table. *)
Record EmptyRoom := {
  Building : str;
  Room_Number : str;
  Day : str;
  Free_From : str;
  Free_To : str
}.

Definition booked_on (schedule : day_map) (day : str) : list interval :=
  or_empty (dict_get value_eqb schedule (PStr day)).

(** Lines 96-125 for one room. *)
Definition room_rows (building room_number : str) (schedule : day_map)
    : list EmptyRoom :=
  flat_map (fun day =>
    map (fun free =>
           {| Building := building; Room_Number := room_number; Day := day;
              Free_From := strftime (fst free);
              Free_To := strftime (snd free) |})
        (free_times (booked_on schedule day)))
    days.

Definition empty_rooms (rs : building_map) : list EmptyRoom :=
  flat_map (fun '(building, rooms) =>
    flat_map (fun '(room_number, schedule) =>
      room_rows building room_number schedule) rooms) rs.

(** Line 98 sorts the list held by the schedule itself: after the run
    every list of a day of [days] is left sorted. *)
Definition sort_days (schedule : day_map) : day_map :=
  map (fun '(day, booked) =>
         if existsb (fun d => value_eqb day (PStr d)) days
         then (day, sort_by_start booked) else (day, booked))
      schedule.

Definition sort_in_place (rs : building_map) : building_map :=
  map (fun '(building, rooms) =>
         (building, map (fun '(room_number, schedule) =>
                           (room_number, sort_days schedule)) rooms)) rs.

Definition find_empty_rooms (U : unicode_db) (self : RoomScheduler)
    : result (list EmptyRoom * RoomScheduler) :=
  self <- extract_room_schedule U self ;;
  Ok (empty_rooms (room_schedule self),
      {| df := df self; room_schedule := sort_in_place (room_schedule self) |}).

(** Comparison of Python strings: lexicographic on code points. *)
Fixpoint str_leb (a b : str) : bool :=
  match a, b with
  | [], _ => true
  | _ :: _, [] => false
  | x :: a', y :: b' => (x <? y)%N || (x =? y)%N && str_leb a' b'
  end.

(** The columns that [sort_values] is given, in its order. *)
Definition sort_key (r : EmptyRoom) : list str :=
  [Building r; Room_Number r; Day r; Free_From r; Free_To r].

Fixpoint key_leb (a b : list str) : bool :=
  match a, b with
  | [], _ => true
  | _ :: _, [] => false
  | x :: a', y :: b' =>
      if str_eqb x y then key_leb a' b' else str_leb x y
  end.

Definition row_leb (a b : EmptyRoom) : bool :=
  key_leb (sort_key a) (sort_key b).

Fixpoint insert_row (x : EmptyRoom) (l : list EmptyRoom) : list EmptyRoom :=
  match l with
  | [] => [x]
  | y :: l' => if row_leb x y then x :: y :: l' else y :: insert_row x l'
  end.

(** [df.sort_values(by=[...], inplace=True)] on a table that has the
    columns.  Rows with equal keys are equal, so every sort gives the same
    table. *)
Fixpoint sort_values (l : list EmptyRoom) : list EmptyRoom :=
  match l with
  | [] => []
  | x :: l' => insert_row x (sort_values l')
  end.

(** [save_empty_rooms_to_csv]: the table handed to [to_csv].  A table
    built from no rows has no columns, and [sort_values] then raises
    [KeyError] for the first of them. *)
Definition save_empty_rooms_to_csv (U : unicode_db) (self : RoomScheduler)
    : result (list EmptyRoom * RoomScheduler) :=
  bind (find_empty_rooms U self) (fun '(empty_rooms_df, self) =>
    match empty_rooms_df with
    | [] => Raise (KeyError "Building")
    | _ => Ok (sort_values empty_rooms_df, self)
    end).

(** *** class LectureScheduleManager *)

(** [process], from the rows read from the spreadsheet to the table that
    is written out. *)
Definition process (U : unicode_db) (rows : list RawScheduleRow)
    : result (list EmptyRoom) :=
  expanded_df <- expand_lecture_times U rows ;;
  bind (save_empty_rooms_to_csv U (init expanded_df))
    (fun '(table, _) => Ok table).

End Scheduler.

(* ================================================================== *)
(** ** [classroom.py] *)
(* ================================================================== *)

Module Classroom.

(** A row of the table that [pd.read_csv] loads: the time columns hold
    four digits and are read as integers (930 is 09:30). *)
Record row := {
  Building : str;
  Room_Number : str;
  Day : str;
  Free_From : Z;
  Free_To : Z
}.

(** A [DataFrame]: rows under their index labels. *)
Definition frame := list (nat * row).

(** Frames are objects: the heap maps a reference to the frame it
    currently holds, and an object can be changed under its holders. *)
Definition ref := nat.
Definition heap := list frame.

Definition deref (h : heap) (l : ref) : frame := nth l h [].

Definition alloc (h : heap) (f : frame) : ref * heap :=
  (List.length h, h ++ [f]).

Fixpoint store (h : heap) (l : ref) (f : frame) : heap :=
  match h, l with
  | [], _ => []
  | _ :: h', O => f :: h'
  | g :: h', S l' => g :: store h' l' f
  end.

(** The attributes of an [EmptyRoomSchedule]. *)
Record EmptyRoomSchedule := {
  df : ref;
  _original : ref
}.

(** [__init__]: [loaded] is what [load_classroom_file] read. *)
Definition init (h : heap) (loaded : frame) : EmptyRoomSchedule * heap :=
  let '(d, h) := alloc h loaded in
  let '(o, h) := alloc h (deref h d) in            (* [self.df.copy()] *)
  ({| df := d; _original := o |}, h).

(** The condition of lines 100-107 on one row; [if building:] holds for a
    string that is not empty. *)
Definition condition (day : str) (from_time to_time : Z)
    (building : option str) (r : row) : bool :=
  let c := str_eqb (Day r) day && (Free_From r <=? from_time)%Z
           && (to_time <=? Free_To r)%Z in
  match building with
  | Some ((_ :: _) as b) => c && str_eqb (Building r) b
  | _ => c
  end.

(** [filter_classrooms]: boolean indexing builds a new frame, which
    [self.df] is rebound to and which is returned. *)
Definition filter_classrooms (day : str) (from_time to_time : Z)
    (building : option str) (self : EmptyRoomSchedule) (h : heap)
    : ref * EmptyRoomSchedule * heap :=
  let selected :=
    filter (fun lr => condition day from_time to_time building (snd lr))
           (deref h (df self)) in
  let '(d, h) := alloc h selected in
  (d, {| df := d; _original := _original self |}, h).

(** [restore_classrooms] *)
Definition restore_classrooms (self : EmptyRoomSchedule) (h : heap)
    : ref * EmptyRoomSchedule * heap :=
  let '(d, h) := alloc h (deref h (_original self)) in
  (d, {| df := d; _original := _original self |}, h).

(** What a holder of the schedule can do between two restorations: call
    [filter_classrooms], or change in place the frame it was last handed
    (which is the object [self.df] refers to). *)
Inductive call :=
| Filter (day : str) (from_time to_time : Z) (building : option str)
| Edit (f : frame -> frame).

Definition step (st : EmptyRoomSchedule * heap) (c : call)
    : EmptyRoomSchedule * heap :=
  let '(self, h) := st in
  match c with
  | Filter day from_time to_time building =>
      let '(_, self, h) :=
        filter_classrooms day from_time to_time building self h in
      (self, h)
  | Edit f => (self, store h (df self) (f (deref h (df self))))
  end.

Definition run (cs : list call) (st : EmptyRoomSchedule * heap) :=
  fold_left step cs st.

(** [df_to_ClassRoom_list] *)
Record ClassRoom := {
  building : str;
  room : str;
  day : str;
  free_from : Z;
  free_to : Z
}.

(** The schedule keeps the loaded table apart from the frame it hands
    out: [_original] holds it, and [df] is another object. *)
Definition keeps (loaded : frame) (st : EmptyRoomSchedule * heap) : Prop :=
  let '(self, h) := st in
  deref h (_original self) = loaded
  /\ (_original self < List.length h)%nat
  /\ (df self < List.length h)%nat
  /\ df self <> _original self.

Definition df_to_ClassRoom_list (self : EmptyRoomSchedule) (h : heap)
    : list ClassRoom :=
  map (fun lr =>
         {| building := Building (snd lr); room := Room_Number (snd lr);
            day := Day (snd lr); free_from := Free_From (snd lr);
            free_to := Free_To (snd lr) |})
      (deref h (df self)).

End Classroom.

(* ================================================================== *)
(** ** Vocabulary of the statements *)
(* ================================================================== *)

Module Spec.
Import Parser Scheduler.

(** Two half-open intervals overlap. *)
Definition overlaps (a b : interval) : Prop :=
  (fst a < snd b /\ fst b < snd a)%Z.

(** A moment lies in a half-open interval. *)
Definition inside (t : Z) (a : interval) : Prop :=
  (fst a <= t < snd a)%Z.

(** A booked interval that does not end before it starts. *)
Definition proper (a : interval) : Prop := (fst a <= snd a)%Z.

(** Two intervals overlap, are nested or touch: their union is an
    interval again. *)
Definition meets (a b : interval) : Prop :=
  (fst a <= snd b /\ fst b <= snd a)%Z.

(** The union of two intervals that meet. *)
Definition hull (a b : interval) : interval :=
  (Z.min (fst a) (fst b), Z.max (snd a) (snd b)).

(** [cluster c u]: the intervals [c] can be united one after the other
    into the single interval [u]. *)
Inductive cluster : list interval -> interval -> Prop :=
| cluster_one a : cluster [a] a
| cluster_add b c u : cluster c u -> meets u b -> cluster (b :: c) (hull u b).

(** One step of overlap-collapsing in a list of booked intervals that
    need not be proper: two intervals of which [b] starts inside [a] (or
    where [a] ends) are replaced by their union, which takes the place of
    [a], the one that starts first (the one listed first when both start
    together). *)
Inductive collapse : list interval -> list interval -> Prop :=
| collapse_first l1 l2 l3 a b :
    (fst a <= fst b <= snd a)%Z ->
    collapse (l1 ++ a :: l2 ++ b :: l3) (l1 ++ hull a b :: l2 ++ l3)
| collapse_second l1 l2 l3 a b :
    (fst a < fst b <= snd a)%Z ->
    collapse (l1 ++ b :: l2 ++ a :: l3) (l1 ++ l2 ++ hull a b :: l3).

(** Relations between two sorted lists, used to follow the sort through
    a collapse.  [head_from s t]: nothing at the head of [t] starts
    before [s]. *)
Definition head_from (s : Z) (t : list interval) : Prop :=
  match t with
  | [] => True
  | y :: _ => (s <= fst y)%Z
  end.

(** [without b s s']: [s] is [s'] with [b] put in after intervals that do
    not start after it and before one that does not start before it. *)
Inductive without (b : interval) : list interval -> list interval -> Prop :=
| without_here t : head_from (fst b) t -> without b (b :: t) t
| without_skip y s s' :
    (fst y <= fst b)%Z -> without b s s' -> without b (y :: s) (y :: s').

(** [united a b s s']: [s] holds [a] and later [b] where [s'] holds their
    union in the place of [a]. *)
Inductive united (a b : interval) : list interval -> list interval -> Prop :=
| united_here s s' : without b s s' -> united a b (a :: s) (hull a b :: s')
| united_skip y s s' : united a b s s' -> united a b (y :: s) (y :: s').

(** [replaced a h s s']: [s] holds [a] where [s'] holds [h]. *)
Inductive replaced (a h : interval) : list interval -> list interval -> Prop :=
| replaced_here t : replaced a h (a :: t) (h :: t)
| replaced_skip y s s' : replaced a h s s' -> replaced a h (y :: s) (y :: s').

(** Where the cursor of the sweep stands after the intervals [g]. *)
Definition reach (cur : datetime) (g : list interval) : datetime :=
  fold_left (fun c b => Z.max c (snd b)) g cur.

(** The lists of a day are ordered by start time. *)
Definition by_start (a b : interval) : Prop := (fst a <= fst b)%Z.

(** The operating window, as a set of moments. *)
Definition within_window (a : interval) : Prop :=
  (operating_start <= fst a /\ snd a <= operating_end)%Z.

Definition duration (a : interval) : Z := (snd a - fst a)%Z.

(** The keys of a dictionary are distinct. *)
Definition unique_keys {K V} (d : dict K V) : Prop := NoDup (map fst d).

(** The index is a dictionary of dictionaries. *)
Definition index_ok (rs : building_map) : Prop :=
  unique_keys rs /\ Forall (fun br => unique_keys (snd br)) rs.

(** The row that says a room is free for the whole operating window. *)
Definition full_window_row (building room_number day : str) : EmptyRoom :=
  {| Building := building; Room_Number := room_number; Day := day;
     Free_From := lit "0930"; Free_To := lit "2200" |}.

(** A room is present in the index. *)
Definition room_present (rs : building_map) (building room_number : str)
    (schedule : day_map) : Prop :=
  exists rooms, dict_get str_eqb rs building = Some rooms
                /\ dict_get str_eqb rooms room_number = Some schedule.

(** The rows of a table for one room and one day. *)
Definition rows_for (building room_number day : str)
    (table : list EmptyRoom) : list EmptyRoom :=
  filter (fun r => str_eqb (Building r) building
                   && str_eqb (Room_Number r) room_number
                   && str_eqb (Day r) day) table.

(** A string of four ASCII digits [HHMM] with [HH < 24] and [MM < 60],
    standing for the time of day [60 * HH + MM]. *)
Definition hhmm (h m : Z) : str :=
  [Z.to_N (48 + h / 10); Z.to_N (48 + h mod 10);
   Z.to_N (48 + m / 10); Z.to_N (48 + m mod 10)].

Definition is_HHMM (s : str) (t : Z) : Prop :=
  exists h m, (0 <= h < 24 /\ 0 <= m < 60 /\ t = 60 * h + m)%Z
              /\ s = hhmm h m.

(** Strings compare by code points, the first difference deciding. *)
Inductive str_lt : str -> str -> Prop :=
| str_lt_nil c b : str_lt [] (c :: b)
| str_lt_head x y a b : (x < y)%N -> str_lt (x :: a) (y :: b)
| str_lt_tail x a b : str_lt a b -> str_lt (x :: a) (x :: b).

(** Keys compare column by column, the first different column deciding. *)
Inductive key_lt : list str -> list str -> Prop :=
| key_lt_nil x b : key_lt [] (x :: b)
| key_lt_head x y a b : str_lt x y -> key_lt (x :: a) (y :: b)
| key_lt_tail x a b : key_lt a b -> key_lt (x :: a) (x :: b).

(** The order of the exported table: lexicographic on
    (building, room, day, free_from, free_to). *)
Definition row_le (a b : EmptyRoom) : Prop :=
  sort_key a = sort_key b \/ key_lt (sort_key a) (sort_key b).

(** Ascending order of the exported rows, written out column by column:
    the building decides; between rows of one building the room number;
    then the day; then the start of the free interval; then its end. *)
Definition ascending (a b : EmptyRoom) : Prop :=
  str_lt (Building a) (Building b)
  \/ (Building a = Building b
      /\ (str_lt (Room_Number a) (Room_Number b)
          \/ (Room_Number a = Room_Number b
              /\ (str_lt (Day a) (Day b)
                  \/ (Day a = Day b
                      /\ (str_lt (Free_From a) (Free_From b)
                          \/ (Free_From a = Free_From b
                              /\ (str_lt (Free_To a) (Free_To b)
                                  \/ Free_To a = Free_To b)))))))).

(** [p] is a prefix of [s]. *)
Definition prefix (p s : str) : Prop := exists r, s = p ++ r.

(** What is left of a room string after a prefix is cut off. *)
Definition remainder (p s : str) : str := skipn (List.length p) s.

(** A token carries its day and its two times as strings. *)
Definition timed_token (t : token) : Prop :=
  exists day start_time end_time,
    dict_get String.eqb t "day" = Some (PStr day)
    /\ dict_get String.eqb t "start_time" = Some (PStr start_time)
    /\ dict_get String.eqb t "end_time" = Some (PStr end_time).

(** A row of the expanded table holds strings in its two time columns. *)
Definition timed_row (r : ExpandedRecord) : Prop :=
  exists start_time end_time,
    col_Free_From r = PStr start_time /\ col_Free_To r = PStr end_time.

(** The room list named by a description has an exclusion keyword. *)
Definition excluded (room_info : str) : Prop :=
  exists keyword, In keyword keywords /\ contains keyword room_info = true.

End Spec.

(** Concrete timetables on which the statements are exercised. *)
Module Sample.
Import Parser Scheduler.

Definition raw (description : string) : RawScheduleRow :=
  {| lecture_time := lit description; passthrough := [] |}.

(** One lecture on Monday morning in room 101 of building A. *)
Definition monday_lecture : list ExpandedRecord :=
  [ {| source := raw "월[1~2] 09:00~10:15 (A동101)";
       col_Day := PStr (lit "월");
       col_Free_From := PStr (lit "09:00");
       col_Free_To := PStr (lit "10:15");
       col_RoomA := PStr (lit "A동101");
       col_RoomB := PNone |} ].

(** A description with a time segment and no room list. *)
Definition roomless : RawScheduleRow := raw "월[1~2] 09:00~10:15".

(** A room list of three rooms that no time segment precedes, and one
    that a time segment precedes. *)
Definition three_rooms : RawScheduleRow := raw "(A101, A102, A103)".
Definition three_rooms_timed : RawScheduleRow :=
  raw "월[1~2] 09:00~10:15 (A101, A102, A103)".

(** Two time segments and a room list that names an online session. *)
Definition online : RawScheduleRow :=
  raw "월[1~2] 09:00~10:15 수[3] 13:00~13:50 (온라인)".

(** A record whose start time is no time of day. *)
Definition unreadable : ExpandedRecord :=
  {| source := raw "월[1~2] 25:00~26:15 (A동101)";
     col_Day := PStr (lit "월");
     col_Free_From := PStr (lit "25:00");
     col_Free_To := PStr (lit "26:15");
     col_RoomA := PStr (lit "A동101");
     col_RoomB := PNone |}.

(** The record of the Monday lecture. *)
Definition monday_record : ExpandedRecord :=
  {| source := raw "월[1~2] 09:00~10:15 (A동101)";
     col_Day := PStr (lit "월");
     col_Free_From := PStr (lit "09:00");
     col_Free_To := PStr (lit "10:15");
     col_RoomA := PStr (lit "A동101");
     col_RoomB := PNone |}.

(** A lecture in a room of no known building. *)
Definition elsewhere : list RawScheduleRow :=
  [ raw "월[1~2] 09:00~10:15 (체육관)" ].

(** A lecture that starts after the operating window has closed. *)
Definition late_lecture : list RawScheduleRow :=
  [ raw "월[1~2] 23:00~23:50 (A동101)" ].

(** The index that [extract_room_schedule] builds from it. *)
Definition monday_index : building_map :=
  [ (lit "A동", [ (lit "101", [ (PStr (lit "월"), [(540, 615)%Z]) ]) ]) ].

(** Two lectures of one room on Monday, the later one entered first, and
    the index that [extract_room_schedule] builds from them. *)
Definition noon_then_morning : list ExpandedRecord :=
  [ {| source := raw "월[4] 12:00~13:00 (A동101)";
       col_Day := PStr (lit "월");
       col_Free_From := PStr (lit "12:00");
       col_Free_To := PStr (lit "13:00");
       col_RoomA := PStr (lit "A동101");
       col_RoomB := PNone |};
    {| source := raw "월[2] 10:00~11:00 (A동101)";
       col_Day := PStr (lit "월");
       col_Free_From := PStr (lit "10:00");
       col_Free_To := PStr (lit "11:00");
       col_RoomA := PStr (lit "A동101");
       col_RoomB := PNone |} ].

Definition noon_then_morning_index : building_map :=
  [ (lit "A동",
     [ (lit "101", [ (PStr (lit "월"), [(720, 780)%Z; (600, 660)%Z]) ]) ]) ].

(** The index after the Monday lecture is entered twice. *)
Definition monday_index_twice : building_map :=
  [ (lit "A동",
     [ (lit "101", [ (PStr (lit "월"), [(540, 615)%Z; (540, 615)%Z]) ]) ]) ].

End Sample.

(* ================================================================== *)
(** ** Proofs: the gap computation *)
(* ================================================================== *)

Import Parser Scheduler Spec.
Local Open Scope Z_scope.

(** A loaded table of free rooms. *)
Module SampleFrames.
Import Classroom.

Definition week : frame :=
  [ (0%nat, {| Building := lit "A동"; Room_Number := lit "101";
               Day := lit "월"; Free_From := 930; Free_To := 1200 |});
    (1%nat, {| Building := lit "A동"; Room_Number := lit "101";
               Day := lit "화"; Free_From := 930; Free_To := 2200 |});
    (2%nat, {| Building := lit "B동"; Room_Number := lit "201";
               Day := lit "월"; Free_From := 1300; Free_To := 2200 |}) ].

End SampleFrames.

(** Further vocabulary, for the properties of the code beyond the
    statements above. *)
Module More.
Import Parser Scheduler Spec.

(** [room_schedule[building][room_number][day]], with no interval where a
    level is absent. *)
Definition booked_at (rs : building_map) (building room_number : str)
    (day : value) : list interval :=
  match dict_get str_eqb rs building with
  | None => []
  | Some rooms =>
      match dict_get str_eqb rooms room_number with
      | None => []
      | Some schedule => or_empty (dict_get value_eqb schedule day)
      end
  end.

(** A room has an entry in the index. *)
Definition indexed (rs : building_map) (building room_number : str) : Prop :=
  exists schedule, room_present rs building room_number schedule.

(** One free interval is over before the next one begins. *)
Definition before (f g : interval) : Prop := (snd f <= fst g)%Z.

(** The record that lines 41-46 build from one time match and the room
    list of the description. *)
Definition record_of (row : RawScheduleRow) (room_list : list str)
    (m : rmatch_obj) : ExpandedRecord :=
  {| source := row;
     col_Day := PStr (group (m_groups m) "day");
     col_Free_From := PStr (group (m_groups m) "start_time");
     col_Free_To := PStr (group (m_groups m) "end_time");
     col_RoomA := room_entry room_list 0;
     col_RoomB := room_entry room_list 1 |}.

(** A string without white space at either end. *)
Definition trimmed (s : str) : Prop := strip s = s.

(** No room string of a cell starts with a known building name. *)
Definition names_no_room (cell : value) : Prop :=
  match cell with
  | PNone => True
  | PStr room =>
      Forall (fun single_room => resolve_room (strip single_room) = None)
             (split (ch ",") room)
  end.

(** Two decimal digits, a colon, two decimal digits. *)
Definition clock_shaped (U : unicode_db) (s : str) : Prop :=
  exists a b c d,
    s = [a; b; ch ":"; c; d]
    /\ isdecimal U a = true /\ isdecimal U b = true
    /\ isdecimal U c = true /\ isdecimal U d = true.

(** An update of the index that does the same whatever the index holds:
    it raises one and the same exception, or it puts one and the same
    intervals at the end of the lists. *)
Definition appends (F : building_map -> result building_map) : Prop :=
  (exists e, forall rs, F rs = Raise e)
  \/ (exists added : str -> str -> value -> list interval,
        forall rs, exists rs',
          F rs = Ok rs'
          /\ forall b n day,
               booked_at rs' b n day = booked_at rs b n day ++ added b n day).

(** The buildings of the index are known ones and its room numbers are
    trimmed. *)
Definition known_keys (rs : building_map) : Prop :=
  Forall (fun br : str * room_map =>
            In (fst br) buildings
            /\ Forall (fun nr : str * day_map => trimmed (fst nr)) (snd br))
         rs.

(** A day of the week of the scheduler. *)
Definition is_weekday (day : value) : bool :=
  existsb (fun d => value_eqb day (PStr d)) days.

End More.

Section Examples.

(** The constants of the source, read as code points. *)
Example lit_weekday : lit "월" = [0xC6D4%N].
Proof. reflexivity. Qed.

(** One time segment and two rooms: one token that names both rooms. *)
Example parse_two_rooms :
  parse_lecture_time ucd_timetable (lit "월[1~2] 09:00~10:15 (B201, B202)")
  = Ok [ [ ("day", PStr (lit "월")); ("start_time", PStr (lit "09:00"));
           ("end_time", PStr (lit "10:15")); ("room", PNone);
           ("room_a", PStr (lit "B201")); ("room_b", PStr (lit "B202")) ] ].
Proof. vm_compute. reflexivity. Qed.

Example strptime_values :
  strptime ucd_timetable (PStr (lit "09:30")) = Ok 570
  /\ strptime ucd_timetable (PStr (lit "23:59")) = Ok 1439
  /\ strptime ucd_timetable (PStr (lit "24:00"))
     = Raise (ValueError "time data does not match format")
  /\ strptime ucd_timetable (PStr (lit "09:75"))
     = Raise (ValueError "unconverted data remains").
Proof. repeat split; vm_compute; reflexivity. Qed.

Example strftime_values :
  strftime operating_start = lit "0930" /\ strftime operating_end = lit "2200".
Proof. split; reflexivity. Qed.

Example monday_lecture_expanded :
  expand_lecture_times ucd_timetable [Sample.raw "월[1~2] 09:00~10:15 (A동101)"]
  = Ok Sample.monday_lecture.
Proof. vm_compute. reflexivity. Qed.

Example monday_lecture_indexed :
  extract_room_schedule ucd_timetable (init Sample.monday_lecture)
  = Ok {| df := Sample.monday_lecture; room_schedule := Sample.monday_index |}.
Proof. vm_compute. reflexivity. Qed.

End Examples.

Section SortByStart.

Lemma insert_by_start_perm x l : Permutation (x :: l) (insert_by_start x l).
Proof.
  induction l as [|y l IH]; simpl; [reflexivity|].
  destruct (fst x <=? fst y); [reflexivity|].
  rewrite perm_swap. now constructor.
Qed.

Lemma sort_by_start_perm l : Permutation l (sort_by_start l).
Proof.
  induction l as [|x l IH]; simpl; [constructor|].
  rewrite <- insert_by_start_perm. now constructor.
Qed.

Lemma insert_by_start_sorted x l :
  StronglySorted by_start l -> StronglySorted by_start (insert_by_start x l).
Proof.
  induction 1 as [|y l Hs IH Hall]; simpl.
  - repeat constructor.
  - destruct (Z.leb_spec (fst x) (fst y)) as [Hle|Hlt].
    + constructor; [now constructor|].
      constructor; [exact Hle|].
      eapply Forall_impl; [|exact Hall].
      unfold by_start; intros; lia.
    + constructor; [exact IH|].
      rewrite <- insert_by_start_perm.
      constructor; [unfold by_start; lia | exact Hall].
Qed.

Lemma sort_by_start_sorted l : StronglySorted by_start (sort_by_start l).
Proof.
  induction l; simpl; [constructor | now apply insert_by_start_sorted].
Qed.

Lemma sort_by_start_nil l : sort_by_start l = [] -> l = [].
Proof.
  intros H. apply Permutation_nil. rewrite <- H.
  symmetry. apply sort_by_start_perm.
Qed.

End SortByStart.

Section Sweep.

Lemma candidate_In f a b :
  In f (candidate a b) -> f = (a, b) /\ min_free_duration <= b - a.
Proof.
  unfold candidate. destruct (Z.leb_spec min_free_duration (b - a)); simpl.
  - intros [<-|[]]. now split.
  - intros [].
Qed.

(** The cursor only moves forward. *)
Lemma sweep_after_cursor l : forall cur f,
  In f (sweep cur l) -> cur <= fst f.
Proof.
  induction l as [|[s e] l IH]; simpl; intros cur f Hin.
  - destruct (cur <? operating_end); [|easy].
    apply candidate_In in Hin as [-> _]. simpl. lia.
  - apply in_app_or in Hin as [Hin|Hin].
    + destruct (cur <? s); [|easy].
      apply candidate_In in Hin as [-> _]. simpl. lia.
    + apply IH in Hin. lia.
Qed.

Lemma sweep_disjoint l : forall cur f b,
  StronglySorted by_start l ->
  In f (sweep cur l) -> In b l -> ~ overlaps f b.
Proof.
  induction l as [|[s e] l IH]; simpl; intros cur f b Hs Hf Hb; [easy|].
  apply StronglySorted_inv in Hs as [Hs Hall].
  rewrite Forall_forall in Hall.
  apply in_app_or in Hf as [Hf|Hf].
  - destruct (cur <? s); [|easy].
    apply candidate_In in Hf as [-> _].
    destruct Hb as [<-|Hb]; unfold overlaps; simpl; [lia|].
    specialize (Hall _ Hb). unfold by_start in Hall. simpl in Hall. lia.
  - destruct Hb as [<-|Hb].
    + apply sweep_after_cursor in Hf. unfold overlaps; simpl. lia.
    + eapply IH; eauto.
Qed.

(** Every emitted interval lasts at least the minimum, and starts inside
    the operating window. *)
Lemma sweep_duration l : forall cur f,
  In f (sweep cur l) -> min_free_duration <= duration f.
Proof.
  induction l as [|[s e] l IH]; simpl; intros cur f Hin.
  - destruct (cur <? operating_end); [|easy].
    now apply candidate_In in Hin as [-> H].
  - apply in_app_or in Hin as [Hin|Hin]; [|eauto].
    destruct (cur <? s); [|easy].
    now apply candidate_In in Hin as [-> H].
Qed.

Lemma sweep_end_bound l : forall cur f,
  Forall (fun b => fst b <= operating_end) l ->
  In f (sweep cur l) -> snd f <= operating_end.
Proof.
  induction l as [|[s e] l IH]; simpl; intros cur f Hall Hin.
  - destruct (cur <? operating_end); [|easy].
    apply candidate_In in Hin as [-> _]. simpl. lia.
  - inversion Hall; subst. simpl in *.
    apply in_app_or in Hin as [Hin|Hin]; [|eauto].
    destruct (cur <? s); [|easy].
    now apply candidate_In in Hin as [-> _].
Qed.

End Sweep.

Section FreeTimes.

Lemma free_times_unfold booked :
  free_times booked =
  match sort_by_start booked with
  | [] => [(operating_start, operating_end)]
  | _ => sweep operating_start (sort_by_start booked)
  end.
Proof. reflexivity. Qed.

Lemma free_times_nil : free_times [] = [(operating_start, operating_end)].
Proof. reflexivity. Qed.

Lemma free_times_cases booked f :
  In f (free_times booked) ->
  (booked = [] /\ f = (operating_start, operating_end))
  \/ In f (sweep operating_start (sort_by_start booked)).
Proof.
  rewrite free_times_unfold.
  destruct (sort_by_start booked) eqn:E.
  - apply sort_by_start_nil in E. intros [<-|[]]. now left.
  - now right.
Qed.

(** C5.  For every list of booked intervals of a room and day, no free
    interval that the gap computation emits overlaps a booked interval of
    that list: they share no moment. *)
Theorem free_times_never_overlap_booked :
  forall (booked : list interval) (free b : interval),
    In free (free_times booked) -> In b booked ->
    ~ overlaps free b /\ (forall t, ~ (inside t free /\ inside t b)).
Proof.
  intros booked free b Hf Hb.
  assert (H : ~ overlaps free b).
  { apply free_times_cases in Hf as [[-> _]|Hf]; [easy|].
    eapply sweep_disjoint; eauto using sort_by_start_sorted.
    eapply Permutation_in; [apply sort_by_start_perm | exact Hb]. }
  split; [exact H|].
  intros t [H1 H2]. apply H. unfold overlaps, inside in *. lia.
Qed.

Lemma free_times_never_overlap_booked_witness :
  In (570, 600) (free_times [(600, 660); (630, 720)])
  /\ In (630, 720) [(600, 660); (630, 720)]
  /\ ~ overlaps (570, 600) (630, 720).
Proof.
  assert (Hf : In (570, 600) (free_times [(600, 660); (630, 720)]))
    by (vm_compute; auto).
  assert (Hb : In (630, 720) [(600, 660); (630, 720)])
    by (simpl; auto).
  split; [exact Hf|]. split; [exact Hb|].
  exact (proj1 (free_times_never_overlap_booked _ _ _ Hf Hb)).
Defined.

(** What the gap computation does guarantee about the size and place of
    a free interval: it lasts at least thirty minutes and does not start
    before the window opens; it ends by the time the window closes when
    no booked interval starts later than that. *)
Lemma free_times_bounds booked f :
  In f (free_times booked) ->
  min_free_duration <= duration f
  /\ operating_start <= fst f
  /\ (Forall (fun b => fst b <= operating_end) booked ->
      snd f <= operating_end).
Proof.
  intros Hf. apply free_times_cases in Hf as [[-> ->]|Hf].
  - vm_compute. repeat split; intros; discriminate.
  - split; [eapply sweep_duration; eauto|].
    split; [eapply sweep_after_cursor; eauto|].
    intros Hall. eapply sweep_end_bound; [|exact Hf].
    rewrite Forall_forall in *. intros x Hx. apply Hall.
    eapply Permutation_in; [symmetry; apply sort_by_start_perm | exact Hx].
Qed.

End FreeTimes.

Section OverlapCollapsing.

Lemma reach_cons c b g : reach c (b :: g) = reach (Z.max c (snd b)) g.
Proof. reflexivity. Qed.

Lemma reach_perm g g' c : Permutation g g' -> reach c g = reach c g'.
Proof.
  intros H. revert c. induction H; intros c.
  - reflexivity.
  - rewrite !reach_cons. apply IHPermutation.
  - rewrite !reach_cons. f_equal. lia.
  - now rewrite IHPermutation1.
Qed.

(** Intervals that start at or before the cursor emit nothing: they can
    only push the cursor. *)
Lemma sweep_absorb g : forall cur t,
  Forall (fun b => fst b <= cur) g ->
  sweep cur (g ++ t) = sweep (reach cur g) t.
Proof.
  induction g as [|[s e] g IH]; simpl; intros cur t Hall; [reflexivity|].
  inversion Hall as [|? ? Hs Hg]; subst. simpl in Hs.
  destruct (Z.ltb_spec cur s); [lia|]. simpl.
  apply IH. eapply Forall_impl; [|exact Hg]. simpl. intros; lia.
Qed.

Lemma StronglySorted_app_inv {A} (R : A -> A -> Prop) l x r :
  StronglySorted R (l ++ x :: r) ->
  StronglySorted R (l ++ r) /\ Forall (fun a => R a x) l.
Proof.
  induction l as [|a l IH]; simpl; intros H.
  - apply StronglySorted_inv in H as [H _]. now split.
  - apply StronglySorted_inv in H as [H Hall].
    apply IH in H as [H1 H2].
    rewrite Forall_app in Hall. destruct Hall as [Hl Hr].
    inversion Hr; subst.
    split; [|now constructor].
    constructor; [exact H1|]. rewrite Forall_app. now split.
Qed.

(** Two orderings by start time of the same proper intervals give the
    same gaps: the order among equal starts does not matter. *)
Lemma sweep_sorted_perm s1 : forall s2 cur,
  StronglySorted by_start s1 -> StronglySorted by_start s2 ->
  Forall proper s1 -> Permutation s1 s2 ->
  sweep cur s1 = sweep cur s2.
Proof.
  induction s1 as [|x s1 IH]; intros s2 cur H1 H2 Hp Hperm.
  - apply Permutation_nil in Hperm. now subst.
  - assert (Hx : In x s2) by (eapply Permutation_in; [exact Hperm | now left]).
    apply in_split in Hx as (a & b & ->).
    apply Permutation_cons_app_inv in Hperm.
    apply StronglySorted_inv in H1 as [H1 Hx1].
    apply StronglySorted_app_inv in H2 as [H2 Hx2].
    inversion Hp as [|? ? Hpx Hp1]; subst.
    assert (Ha : Forall (fun y => fst y = fst x /\ proper y) a).
    { rewrite Forall_forall in *. intros y Hy.
      assert (Hy1 : In y s1).
      { eapply Permutation_in; [symmetry; exact Hperm|].
        apply in_or_app. now left. }
      specialize (Hx1 _ Hy1). specialize (Hx2 _ Hy). specialize (Hp1 _ Hy1).
      unfold by_start in *. split; [lia | exact Hp1]. }
    destruct x as [s e]. unfold proper in Hpx. simpl in *.
    rewrite (IH (a ++ b) (Z.max cur e) H1 H2 Hp1 Hperm).
    rewrite sweep_absorb.
    2:{ eapply Forall_impl; [|exact Ha]. simpl. intros y [Hy _]. lia. }
    destruct a as [|[sa ea] a]; simpl; [reflexivity|].
    apply Forall_cons_iff in Ha as [[Hsa Hpa] Ha']. unfold proper in Hpa.
    simpl in Hsa, Hpa. subst sa. f_equal.
    change ((s, e) :: b) with ([(s, e)] ++ b). rewrite app_assoc.
    rewrite sweep_absorb.
    2:{ rewrite Forall_app. split.
        - eapply Forall_impl; [|exact Ha']. simpl. intros y [Hy _]. lia.
        - constructor; [simpl; lia | constructor]. }
    f_equal.
    change (reach (Z.max cur ea) (a ++ [(s, e)]))
      with (reach cur ((s, ea) :: a ++ [(s, e)])).
    change (reach (Z.max (Z.max cur e) ea) a)
      with (reach cur ((s, e) :: (s, ea) :: a)).
    apply reach_perm.
    rewrite perm_swap. constructor.
    apply Permutation_cons_append.
Qed.

(** On proper intervals the free times depend on the booked intervals
    only, not on the order they were entered in. *)
Lemma free_times_perm l l' :
  Forall proper l -> Permutation l l' -> free_times l = free_times l'.
Proof.
  intros Hp Hperm. rewrite !free_times_unfold.
  assert (E : sweep operating_start (sort_by_start l)
              = sweep operating_start (sort_by_start l')).
  { apply sweep_sorted_perm; auto using sort_by_start_sorted.
    - rewrite Forall_forall in *. intros x Hx. apply Hp.
      eapply Permutation_in; [symmetry; apply sort_by_start_perm | exact Hx].
    - now rewrite <- !sort_by_start_perm. }
  (* the sweep of no interval is the full window as well *)
  destruct (sort_by_start l), (sort_by_start l'); auto.
Qed.

(** A booked interval that starts at or before the cursor only pushes
    the cursor, wherever the sort puts it. *)
Lemma sweep_insert_absorb b s : forall cur,
  fst b <= cur ->
  sweep cur (insert_by_start b s) = sweep (Z.max cur (snd b)) s.
Proof.
  destruct b as [sb eb]. simpl.
  induction s as [|[sy ey] s IH]; simpl; intros cur Hb.
  - destruct (Z.ltb_spec cur sb); [lia | reflexivity].
  - destruct (Z.leb_spec sb sy); simpl.
    + destruct (Z.ltb_spec cur sb); [lia | reflexivity].
    + destruct (Z.ltb_spec cur sy); [lia|]. simpl.
      destruct (Z.ltb_spec (Z.max cur eb) sy); [lia|]. simpl.
      rewrite IH by lia. f_equal. lia.
Qed.

Lemma insert_by_start_not_nil x l : insert_by_start x l <> [].
Proof. destruct l as [|y l]; simpl; [easy|]. now destruct (fst x <=? fst y). Qed.

(** Two booked intervals of which the second starts inside the first (or
    where it ends) sweep like their union. *)
Lemma sweep_insert_merge sa ea sb eb s : forall cur,
  sa <= sb <= ea ->
  sweep cur (insert_by_start (sa, ea) (insert_by_start (sb, eb) s))
  = sweep cur (insert_by_start (sa, Z.max ea eb) s).
Proof.
  intros cur H. revert cur.
  assert (Hhead : forall w,
    (forall y w', w = y :: w' -> sa <= fst y) ->
    insert_by_start (sa, ea) w = (sa, ea) :: w).
  { intros w Hw. destruct w as [|y w]; simpl; [reflexivity|].
    specialize (Hw y w eq_refl).
    destruct (Z.leb_spec sa (fst y)); [reflexivity | lia]. }
  induction s as [|[sy ey] s IH]; intros cur.
  - simpl. destruct (Z.leb_spec sa sb); [|lia]. simpl.
    destruct (Z.ltb_spec (Z.max cur ea) sb); [lia|]. simpl.
    now replace (Z.max (Z.max cur ea) eb) with (Z.max cur (Z.max ea eb)) by lia.
  - destruct (Z.leb_spec sa sy) as [Hy|Hy].
    + rewrite Hhead.
      2:{ intros y w'. simpl.
          destruct (Z.leb_spec sb sy); intros [= <- <-]; simpl; lia. }
      simpl (insert_by_start (sa, Z.max ea eb) _).
      destruct (Z.leb_spec sa sy); [|lia].
      cbn [sweep]. f_equal.
      rewrite sweep_insert_absorb by (simpl; lia). simpl snd.
      now replace (Z.max (Z.max cur ea) eb) with (Z.max cur (Z.max ea eb)) by lia.
    + simpl. destruct (Z.leb_spec sb sy); [lia|]. simpl.
      destruct (Z.leb_spec sa sy); [lia|]. simpl.
      f_equal. apply IH.
Qed.

(** The same at the level of the free times, with no assumption on the
    other booked intervals. *)
Lemma free_times_merge_head a b rest :
  fst a <= fst b <= snd a ->
  free_times (a :: b :: rest)
  = free_times ((fst a, Z.max (snd a) (snd b)) :: rest).
Proof.
  destruct a as [sa ea], b as [sb eb]. simpl. intros H.
  rewrite !free_times_unfold. simpl sort_by_start.
  rewrite sweep_insert_merge by exact H.
  destruct (insert_by_start (sa, ea) _) eqn:E1;
    [now apply insert_by_start_not_nil in E1|].
  destruct (insert_by_start (sa, Z.max ea eb) _) eqn:E2;
    [now apply insert_by_start_not_nil in E2|].
  reflexivity.
Qed.

Lemma hull_proper a b : proper a -> proper b -> proper (hull a b).
Proof. unfold proper, hull. simpl. lia. Qed.

Lemma free_times_merge_pair a b rest :
  Forall proper (a :: b :: rest) -> meets a b ->
  free_times (a :: b :: rest) = free_times (hull a b :: rest).
Proof.
  intros Hp [H1 H2]. unfold hull.
  destruct (Z.le_gt_cases (fst a) (fst b)) as [Hab|Hab].
  - rewrite free_times_merge_head by lia.
    now rewrite Z.min_l by lia.
  - rewrite (free_times_perm Hp (perm_swap b a rest)).
    rewrite free_times_merge_head by lia.
    rewrite Z.min_r by lia. now rewrite Z.max_comm.
Qed.

Lemma cluster_proper c u : cluster c u -> Forall proper c -> proper u.
Proof.
  induction 1; intros Hp; inversion Hp; subst; auto using hull_proper.
Qed.

(** The interval a cluster is united into is the union of its members. *)
Lemma cluster_union c u :
  cluster c u -> Forall proper c ->
  forall t, inside t u <-> exists a, In a c /\ inside t a.
Proof.
  induction 1 as [a|b c u Hc IH Hm]; intros Hp t.
  - split; [intros H; exists a; simpl; auto|].
    now intros (x & [<-|[]] & H).
  - inversion Hp as [|? ? Hb Hpc]; subst.
    pose proof (cluster_proper Hc Hpc) as Hu.
    specialize (IH Hpc t).
    unfold inside, hull, meets, proper in *. simpl.
    split.
    + intros Ht.
      destruct (Z.lt_ge_cases t (fst b)) as [Hlt|Hge].
      * destruct (proj1 IH) as (x & Hx & Hxt); [lia|].
        exists x. auto.
      * destruct (Z.lt_ge_cases t (snd b)) as [Hlt'|Hge'].
        -- exists b. split; [now left | lia].
        -- destruct (proj1 IH) as (x & Hx & Hxt); [lia|].
           exists x. auto.
    + intros (x & [<-|Hx] & Hxt); [lia|].
      assert (fst u <= t < snd u) by (apply IH; eauto). lia.
Qed.

Lemma sort_by_start_app l1 l2 :
  sort_by_start (l1 ++ l2)
  = fold_right insert_by_start (sort_by_start l2) l1.
Proof. induction l1 as [|x l1 IH]; simpl; [reflexivity | now rewrite IH]. Qed.

Lemma insert_head_from x t :
  head_from (fst x) t -> insert_by_start x t = x :: t.
Proof.
  destruct t as [|y t]; simpl; [reflexivity|]. intros H.
  destruct (Z.leb_spec (fst x) (fst y)); [reflexivity | lia].
Qed.

Lemma head_from_insert s x t :
  s <= fst x -> head_from s t -> head_from s (insert_by_start x t).
Proof.
  destruct t as [|y t]; simpl; [auto|]. intros Hx Hy.
  now destruct (fst x <=? fst y).
Qed.

Lemma head_from_le s s' t : s <= s' -> head_from s' t -> head_from s t.
Proof. destruct t; simpl; [auto | lia]. Qed.

Lemma without_insert_self b t : without b (insert_by_start b t) t.
Proof.
  induction t as [|y t IH]; simpl; [now constructor|].
  destruct (Z.leb_spec (fst b) (fst y)).
  - now constructor.
  - constructor; [lia | exact IH].
Qed.

Lemma without_insert b x s s' :
  without b s s' -> without b (insert_by_start x s) (insert_by_start x s').
Proof.
  induction 1 as [t Ht|y s s' Hy Hw IH]; simpl.
  - destruct (Z.leb_spec (fst x) (fst b)).
    + rewrite insert_head_from by (eapply head_from_le; eauto).
      constructor; [assumption | now constructor].
    + constructor. apply head_from_insert; [lia | exact Ht].
  - destruct (Z.leb_spec (fst x) (fst y)).
    + constructor; [lia|]. now constructor.
    + now constructor.
Qed.

Lemma fst_hull a b : fst a <= fst b -> fst (hull a b) = fst a.
Proof. unfold hull. simpl. lia. Qed.

Lemma united_insert a b x s s' :
  fst a <= fst b ->
  united a b s s' -> united a b (insert_by_start x s) (insert_by_start x s').
Proof.
  intros Hab. induction 1 as [s s' Hw|y s s' Hu IH]; cbn [insert_by_start].
  - rewrite fst_hull by exact Hab.
    destruct (fst x <=? fst a).
    + apply united_skip. now constructor.
    + apply united_here. now apply without_insert.
  - destruct (fst x <=? fst y); constructor; auto. now constructor.
Qed.

Lemma replaced_insert a h x s s' :
  fst h = fst a ->
  replaced a h s s' ->
  replaced a h (insert_by_start x s) (insert_by_start x s').
Proof.
  intros Hk. induction 1 as [t|y s s' Hr IH]; simpl.
  - rewrite Hk. destruct (fst x <=? fst a); repeat constructor.
  - destruct (fst x <=? fst y); constructor; auto. now constructor.
Qed.

Lemma replaced_insert_self a h t :
  fst h = fst a ->
  replaced a h (insert_by_start a t) (insert_by_start h t).
Proof.
  intros Hk. induction t as [|y t IH]; simpl; [constructor|].
  rewrite Hk. destruct (fst a <=? fst y); now constructor.
Qed.

Lemma replaced_In a h s s' : replaced a h s s' -> In a s.
Proof. induction 1; simpl; auto. Qed.

(** Putting [a] into a list that holds [b] where the other list does
    not, and the union into the other list. *)
Lemma united_insert_first a b s s' :
  fst a <= fst b ->
  without b s s' ->
  united a b (insert_by_start a s) (insert_by_start (hull a b) s').
Proof.
  intros Hab. induction 1 as [t Ht|y s s' Hy Hw IH]; cbn [insert_by_start].
  - destruct (Z.leb_spec (fst a) (fst b)); [|lia].
    rewrite (@insert_head_from (hull a b) t).
    + now repeat constructor.
    + eapply head_from_le; [|exact Ht]. rewrite fst_hull; lia.
  - rewrite fst_hull by exact Hab.
    destruct (fst a <=? fst y).
    + now repeat constructor.
    + apply united_skip. exact IH.
Qed.

(** Putting [b] into a sorted list that holds [a] where the other list
    holds the union. *)
Lemma united_insert_second a b s s' :
  fst a < fst b ->
  StronglySorted by_start s ->
  replaced a (hull a b) s s' ->
  united a b (insert_by_start b s) s'.
Proof.
  intros Hab Hs Hr. induction Hr as [t|y s s' Hr IH]; simpl.
  - destruct (Z.leb_spec (fst b) (fst a)); [lia|].
    constructor. apply without_insert_self.
  - apply StronglySorted_inv in Hs as [Hs Hall].
    rewrite Forall_forall in Hall.
    pose proof (Hall a (replaced_In Hr)) as Hya. unfold by_start in Hya.
    destruct (Z.leb_spec (fst b) (fst y)); [lia|].
    apply united_skip. now apply IH.
Qed.

Lemma sweep_without b s s' :
  without b s s' ->
  forall cur, fst b <= cur -> sweep cur s = sweep (Z.max cur (snd b)) s'.
Proof.
  induction 1 as [t Ht|[sy ey] s s' Hy Hw IH]; intros cur Hc.
  - destruct b as [sb eb]. simpl in *.
    destruct (Z.ltb_spec cur sb); [lia | reflexivity].
  - simpl in Hy. simpl.
    destruct (Z.ltb_spec cur sy); [lia|].
    destruct (Z.ltb_spec (Z.max cur (snd b)) sy); [lia|]. simpl.
    rewrite IH by lia. f_equal. lia.
Qed.

Lemma sweep_united a b s s' :
  fst a <= fst b <= snd a ->
  united a b s s' -> forall cur, sweep cur s = sweep cur s'.
Proof.
  intros Hab. induction 1 as [s s' Hw|[sy ey] s s' Hu IH]; intros cur.
  - destruct a as [sa ea]. simpl in Hab. unfold hull. simpl fst. simpl snd.
    rewrite Z.min_l by lia. cbn [sweep]. f_equal.
    rewrite (sweep_without Hw) by lia.
    f_equal. lia.
  - simpl. f_equal. apply IH.
Qed.

Lemma united_not_nil a b s s' : united a b s s' -> s <> [] /\ s' <> [].
Proof. destruct 1; split; discriminate. Qed.

Lemma fold_insert_united a b l s s' :
  fst a <= fst b ->
  united a b s s' ->
  united a b (fold_right insert_by_start s l) (fold_right insert_by_start s' l).
Proof.
  intros Hab Hu. induction l as [|x l IH]; simpl; [exact Hu|].
  now apply united_insert.
Qed.

Lemma fold_insert_sorted l s :
  StronglySorted by_start s ->
  StronglySorted by_start (fold_right insert_by_start s l).
Proof.
  intros Hs. induction l as [|x l IH]; simpl; [exact Hs|].
  now apply insert_by_start_sorted.
Qed.

(** A step of collapsing carries through the sort. *)
Lemma collapse_united booked booked' :
  collapse booked booked' ->
  exists a b, fst a <= fst b <= snd a
              /\ united a b (sort_by_start booked) (sort_by_start booked').
Proof.
  intros [l1 l2 l3 a b Hab|l1 l2 l3 a b Hab]; exists a, b.
  - split; [exact Hab|].
    rewrite !sort_by_start_app. apply fold_insert_united; [lia|].
    cbn [sort_by_start]. rewrite !sort_by_start_app.
    apply united_insert_first; [lia|].
    cbn [sort_by_start].
    generalize (sort_by_start l3) as t. intros t.
    induction l2 as [|x l2 IH]; simpl.
    + apply without_insert_self.
    + now apply without_insert.
  - split; [lia|].
    rewrite !sort_by_start_app. apply fold_insert_united; [lia|].
    cbn [sort_by_start]. rewrite !sort_by_start_app.
    apply united_insert_second; [lia| |].
    + apply fold_insert_sorted. cbn [sort_by_start].
      apply insert_by_start_sorted, sort_by_start_sorted.
    + cbn [sort_by_start].
      assert (Hk : fst (hull a b) = fst a) by (unfold hull; simpl; lia).
      generalize (sort_by_start l3) as t. intros t.
      induction l2 as [|x l2 IH]; simpl.
      * now apply replaced_insert_self.
      * now apply replaced_insert.
Qed.

(** Collapsing two booked intervals in any list, proper or not, leaves
    the free times as they were. *)
Lemma free_times_collapse booked booked' :
  collapse booked booked' -> free_times booked = free_times booked'.
Proof.
  intros H. apply collapse_united in H as (a & b & Hab & Hu).
  rewrite !free_times_unfold.
  rewrite (sweep_united Hab Hu).
  apply united_not_nil in Hu as [H1 H2].
  destruct (sort_by_start booked), (sort_by_start booked'); easy.
Qed.

(** Why the second part of the statement below asks for proper
    intervals: a booked interval that ends before it starts makes the
    free times depend on the order of entry. *)
Remark free_times_improper_order :
  free_times [(720, 780); (720, 660)] <> free_times [(720, 660); (720, 780)].
Proof. vm_compute. discriminate. Qed.

(** C4.  The gap computation is invariant under overlap-collapsing of the
    booked intervals of a room and day.  The booked intervals
    [10:00,11:00) and [10:30,12:00) give the same free intervals as
    [10:00,12:00).  In every list of booked intervals (none of which ends
    before it starts), replacing any intervals that can be united into
    one interval by that interval leaves the free intervals unchanged,
    wherever the intervals stand in the list.  And in every list
    whatsoever, replacing two intervals that overlap, are nested or touch
    by their union, in the place of the one that starts first, leaves the
    free intervals unchanged. *)
Theorem free_times_overlap_collapsing :
  free_times [(600, 660); (630, 720)] = free_times [(600, 720)]
  /\ (forall (booked c others : list interval) (u : interval),
        Forall proper booked ->
        Permutation booked (c ++ others) ->
        cluster c u ->
        free_times booked = free_times (u :: others))
  /\ (forall booked booked' : list interval,
        collapse booked booked' ->
        free_times booked = free_times booked').
Proof.
  split; [reflexivity|]. split; [|exact free_times_collapse].
  intros booked c others u Hp Hperm Hc.
  revert booked others Hp Hperm.
  induction Hc as [a|b c u Hc IH Hm]; intros booked others Hp Hperm.
  - now apply free_times_perm.
  - assert (Hp' : Forall proper (c ++ b :: others)).
    { rewrite Forall_forall in *. intros x Hx. apply Hp.
      eapply Permutation_in; [symmetry; exact Hperm|].
      simpl. apply in_app_or in Hx as [Hx|[Hx|Hx]]; auto using in_or_app. }
    rewrite (IH booked (b :: others) Hp).
    2:{ rewrite Hperm. simpl. apply Permutation_middle. }
    apply free_times_merge_pair; [|exact Hm].
    rewrite Forall_app in Hp'. destruct Hp' as [Hpc Hpo].
    constructor; [eapply cluster_proper; eauto | exact Hpo].
Qed.

Lemma free_times_overlap_collapsing_witness :
  (Forall proper [(600, 660); (630, 720)]
   /\ Permutation [(600, 660); (630, 720)] ([(630, 720); (600, 660)] ++ [])
   /\ cluster [(630, 720); (600, 660)] (hull (600, 660) (630, 720))
   /\ free_times [(600, 660); (630, 720)]
      = free_times (hull (600, 660) (630, 720) :: []))
  /\ (collapse ([] ++ (720, 750) :: [(720, 660)] ++ (730, 780) :: [])
               ([] ++ hull (720, 750) (730, 780) :: [(720, 660)] ++ [])
      /\ free_times ([] ++ (720, 750) :: [(720, 660)] ++ (730, 780) :: [])
         = free_times ([] ++ hull (720, 750) (730, 780) :: [(720, 660)] ++ [])).
Proof.
  assert (Hp : Forall proper [(600, 660); (630, 720)]).
  { repeat constructor; unfold proper; simpl; lia. }
  assert (Hperm : Permutation [(600, 660); (630, 720)]
                    ([(630, 720); (600, 660)] ++ [])).
  { simpl. apply perm_swap. }
  assert (Hc : cluster [(630, 720); (600, 660)] (hull (600, 660) (630, 720))).
  { apply cluster_add; [apply cluster_one|]. unfold meets; simpl; lia. }
  assert (Hcol : collapse ([] ++ (720, 750) :: [(720, 660)] ++ (730, 780) :: [])
                   ([] ++ hull (720, 750) (730, 780) :: [(720, 660)] ++ [])).
  { apply collapse_first. simpl. lia. }
  split.
  - split; [exact Hp|]. split; [exact Hperm|]. split; [exact Hc|].
    exact (proj1 (proj2 free_times_overlap_collapsing) _ _ _ _ Hp Hperm Hc).
  - split; [exact Hcol|].
    exact (proj2 (proj2 free_times_overlap_collapsing) _ _ Hcol).
Defined.

End OverlapCollapsing.

(* ================================================================== *)
(** ** Proofs: strings and dictionaries *)
(* ================================================================== *)

Section Strings.

Lemma str_eqb_eq a b : str_eqb a b = true <-> a = b.
Proof.
  unfold str_eqb. destruct (list_eq_dec N.eq_dec a b); split; congruence.
Qed.

Lemma str_eqb_refl a : str_eqb a a = true.
Proof. now apply str_eqb_eq. Qed.

Lemma str_eqb_neq a b : str_eqb a b = false <-> a <> b.
Proof.
  unfold str_eqb. destruct (list_eq_dec N.eq_dec a b); split; congruence.
Qed.

Lemma value_eqb_eq a b : value_eqb a b = true <-> a = b.
Proof.
  destruct a, b; simpl; try (split; congruence).
  rewrite str_eqb_eq. split; congruence.
Qed.

Lemma startswith_prefix s p : startswith s p = true <-> prefix p s.
Proof.
  revert s. induction p as [|c p IH]; intros s; simpl.
  - split; [exists s; reflexivity | reflexivity].
  - destruct s as [|d s].
    + split; [discriminate | intros [r H]; discriminate].
    + rewrite andb_true_iff, N.eqb_eq, IH. split.
      * intros [-> [r ->]]. now exists r.
      * intros [r H]. injection H as -> ->. split; [reflexivity | now exists r].
Qed.

Lemma startswith_app p r : startswith (p ++ r) p = true.
Proof. apply startswith_prefix. now exists r. Qed.

End Strings.

Section Dictionaries.
Context {K V : Type} (eqb : K -> K -> bool).
Hypothesis eqb_eq : forall a b, eqb a b = true <-> a = b.
Implicit Types (d : dict K V) (k : K) (v : V).

Lemma dict_get_In d k v : dict_get eqb d k = Some v -> In (k, v) d.
Proof.
  induction d as [|[k' v'] d IH]; simpl; [discriminate|].
  destruct (eqb k' k) eqn:E.
  - apply eqb_eq in E. intros [= ->]. subst. now left.
  - auto.
Qed.

Lemma dict_get_None d k : dict_get eqb d k = None <-> ~ In k (map fst d).
Proof.
  induction d as [|[k' v'] d IH]; simpl; [tauto|].
  destruct (eqb k' k) eqn:E.
  - apply eqb_eq in E. split; [discriminate | tauto].
  - assert (k' <> k) by (intros ->; rewrite (proj2 (eqb_eq k k)) in E; easy).
    tauto.
Qed.

Lemma dict_upd_keys d k f :
  map fst (dict_upd eqb d k f)
  = if dict_mem eqb d k then map fst d else map fst d ++ [k].
Proof.
  unfold dict_mem.
  induction d as [|[k' v'] d IH]; simpl; [reflexivity|].
  destruct (eqb k' k) eqn:E; simpl; [reflexivity|].
  rewrite IH. now destruct (dict_get eqb d k).
Qed.

Lemma dict_upd_unique d k f :
  unique_keys d -> unique_keys (dict_upd eqb d k f).
Proof.
  unfold unique_keys. rewrite dict_upd_keys. unfold dict_mem.
  destruct (dict_get eqb d k) eqn:E; [easy|].
  intros H. apply dict_get_None in E.
  apply NoDup_app; auto.
  - repeat constructor. easy.
  - intros x Hx [<-|[]]. easy.
Qed.

Lemma dict_upd_Forall (Q : V -> Prop) d k f :
  Forall (fun kv => Q (snd kv)) d ->
  (forall o, match o with Some v => Q v | None => True end -> Q (f o)) ->
  Forall (fun kv => Q (snd kv)) (dict_upd eqb d k f).
Proof.
  intros Hd Hf. induction Hd as [|[k' v'] d Hv Hd IH]; simpl.
  - constructor; [|constructor]. simpl. now apply (Hf None).
  - destruct (eqb k' k).
    + constructor; [|exact Hd]. simpl. now apply (Hf (Some v')).
    + now constructor.
Qed.

Lemma dict_get_upd_same d k f :
  dict_get eqb (dict_upd eqb d k f) k = Some (f (dict_get eqb d k)).
Proof.
  induction d as [|[k0 v0] d IH]; simpl.
  - now rewrite (proj2 (eqb_eq k k) eq_refl).
  - destruct (eqb k0 k) eqn:E; simpl; rewrite E; [reflexivity | exact IH].
Qed.

Lemma dict_get_upd_other d k k' f :
  k <> k' -> dict_get eqb (dict_upd eqb d k f) k' = dict_get eqb d k'.
Proof.
  intros Hk. induction d as [|[k0 v0] d IH]; simpl.
  - destruct (eqb k k') eqn:E; [|reflexivity]. now apply eqb_eq in E.
  - destruct (eqb k0 k) eqn:E; simpl.
    + apply eqb_eq in E. subst k0.
      destruct (eqb k k') eqn:E'; [|reflexivity]. now apply eqb_eq in E'.
    + destruct (eqb k0 k'); [reflexivity | exact IH].
Qed.

Lemma dict_upd_Forall_pair (Q : K * V -> Prop) d k f :
  Forall Q d ->
  (forall o, match o with Some v => Q (k, v) | None => True end ->
             Q (k, f o)) ->
  Forall Q (dict_upd eqb d k f).
Proof.
  intros Hd Hf. induction Hd as [|[k' v'] d Hv Hd IH]; simpl.
  - constructor; [|constructor]. now apply (Hf None).
  - destruct (eqb k' k) eqn:E.
    + apply eqb_eq in E. subst k'.
      constructor; [|exact Hd]. now apply (Hf (Some v')).
    + now constructor.
Qed.

Lemma dict_get_set_other d k k' v :
  k <> k' -> dict_get eqb (dict_set eqb d k v) k' = dict_get eqb d k'.
Proof.
  intros Hk. induction d as [|[k0 v0] d IH]; simpl.
  - destruct (eqb k k') eqn:E; [|reflexivity]. now apply eqb_eq in E.
  - destruct (eqb k0 k) eqn:E; simpl.
    + apply eqb_eq in E. subst k0.
      destruct (eqb k k') eqn:E'; [|reflexivity]. now apply eqb_eq in E'.
    + destruct (eqb k0 k'); [reflexivity | exact IH].
Qed.

End Dictionaries.

(* ================================================================== *)
(** ** Proofs: the index and the result table *)
(* ================================================================== *)

Section Index.
Variable U : unicode_db.

Lemma foldM_inv {A B} (P : B -> Prop) (f : B -> A -> result B) l :
  (forall b x b', P b -> f b x = Ok b' -> P b') ->
  forall b b', P b -> foldM f l b = Ok b' -> P b'.
Proof.
  intros Hf. induction l as [|x l IH]; simpl; intros b b' Hb H.
  - now injection H as <-.
  - destruct (f b x) as [b1|e] eqn:E; simpl in H; [|discriminate].
    eapply IH; [|exact H]. eapply Hf; eauto.
Qed.

Lemma at_day_ok rs building room_number day f :
  index_ok rs -> index_ok (at_day rs building room_number day f).
Proof.
  intros [H1 H2]. unfold at_day. split.
  - apply dict_upd_unique; [apply str_eqb_eq | exact H1].
  - apply dict_upd_Forall with (Q := fun rooms : room_map => unique_keys rooms);
      [exact H2|].
    intros o Ho. apply dict_upd_unique; [apply str_eqb_eq|].
    destruct o; [exact Ho | constructor].
Qed.

Lemma add_room_ok row rs single_room rs' :
  index_ok rs -> add_room U row rs single_room = Ok rs' -> index_ok rs'.
Proof.
  unfold add_room. intros Hok.
  destruct (resolve_room (strip single_room)) as [[b r]|]; [|now intros [= <-]].
  destruct (strptime U (col_Free_From row)) as [t1|[]];
    try discriminate; [|intros [= <-]; now apply at_day_ok].
  destruct (strptime U (col_Free_To row)) as [t2|[]];
    try discriminate; intros [= <-]; now repeat apply at_day_ok.
Qed.

Lemma add_row_ok rs row rs' :
  index_ok rs -> add_row U rs row = Ok rs' -> index_ok rs'.
Proof.
  unfold add_row. apply foldM_inv. clear rs rs'.
  intros rs room rs' Hok. unfold add_column.
  destruct room as [|room]; [now intros [= <-]|].
  revert Hok. apply foldM_inv. intros; eapply add_room_ok; eauto.
Qed.

Lemma extract_room_schedule_ok self self1 :
  index_ok (room_schedule self) ->
  extract_room_schedule U self = Ok self1 ->
  index_ok (room_schedule self1).
Proof.
  unfold extract_room_schedule. intros Hok.
  destruct (foldM (add_row U) (df self) (room_schedule self)) as [rs|e] eqn:E;
    simpl; [|discriminate].
  intros [= <-]. simpl.
  revert E. apply foldM_inv; [|exact Hok]. intros; eapply add_row_ok; eauto.
Qed.

Lemma init_ok df0 : index_ok (room_schedule (init df0)).
Proof. split; constructor. Qed.

End Index.

Section ResultTable.

Lemma filter_flat_map {A B} (p : B -> bool) (f : A -> list B) l :
  filter p (flat_map f l) = flat_map (fun x => filter p (f x)) l.
Proof.
  induction l as [|x l IH]; simpl; [reflexivity|].
  now rewrite filter_app, IH.
Qed.

Lemma filter_none {A} (p : A -> bool) l :
  (forall x, In x l -> p x = false) -> filter p l = [].
Proof.
  induction l as [|x l IH]; simpl; intros H; [reflexivity|].
  rewrite (H x) by now left. apply IH. auto.
Qed.

Lemma flat_map_none {A B} (f : A -> list B) l :
  Forall (fun x => f x = []) l -> flat_map f l = [].
Proof.
  induction 1 as [|x l Hx _ IH]; simpl; [reflexivity|]. now rewrite Hx, IH.
Qed.

Lemma room_rows_In building room_number schedule r :
  In r (room_rows building room_number schedule) ->
  Building r = building /\ Room_Number r = room_number
  /\ exists free, In (Day r) days
       /\ In free (free_times (booked_on schedule (Day r)))
       /\ Free_From r = strftime (fst free)
       /\ Free_To r = strftime (snd free).
Proof.
  unfold room_rows. rewrite in_flat_map. intros (d & Hd & Hr).
  rewrite in_map_iff in Hr. destruct Hr as (free & <- & Hfree). simpl.
  repeat split; eauto 6.
Qed.

(** Every row of the result table comes from a room of the index, a day
    of the week and a free interval of that room on that day. *)
Lemma empty_rooms_In rs r :
  In r (empty_rooms rs) ->
  exists rooms schedule free,
    In (Building r, rooms) rs /\ In (Room_Number r, schedule) rooms
    /\ In (Day r) days
    /\ In free (free_times (booked_on schedule (Day r)))
    /\ Free_From r = strftime (fst free)
    /\ Free_To r = strftime (snd free).
Proof.
  unfold empty_rooms. rewrite in_flat_map. intros ([b rooms] & Hb & Hr).
  rewrite in_flat_map in Hr. destruct Hr as ([n schedule] & Hn & Hr).
  apply room_rows_In in Hr as (<- & <- & free & H).
  exists rooms, schedule, free. tauto.
Qed.

Lemma days_NoDup : NoDup days.
Proof.
  repeat (constructor; [vm_compute; intuition congruence|]). constructor.
Qed.

Lemma rows_for_day_in building room_number schedule day ds :
  NoDup ds -> In day ds ->
  rows_for building room_number day
    (flat_map (fun d =>
       map (fun free =>
              {| Building := building; Room_Number := room_number; Day := d;
                 Free_From := strftime (fst free);
                 Free_To := strftime (snd free) |})
           (free_times (booked_on schedule d))) ds)
  = map (fun free =>
           {| Building := building; Room_Number := room_number; Day := day;
              Free_From := strftime (fst free);
              Free_To := strftime (snd free) |})
        (free_times (booked_on schedule day)).
Proof.
  unfold rows_for. rewrite filter_flat_map.
  induction ds as [|d ds IH]; [easy|].
  intros Hnd Hday. apply NoDup_cons_iff in Hnd as [Hd Hnd]. simpl.
  destruct Hday as [->|Hday].
  - rewrite flat_map_none.
    2:{ rewrite Forall_forall. intros x Hx. apply filter_none.
        intros r Hr. apply in_map_iff in Hr as (free & <- & _). simpl.
        rewrite !str_eqb_refl. simpl. apply str_eqb_neq. now intros ->. }
    rewrite app_nil_r.
    induction (free_times (booked_on schedule day)) as [|free l IHl];
      simpl; [reflexivity|].
    rewrite !str_eqb_refl. simpl. now rewrite IHl.
  - rewrite filter_none; [now apply IH|].
    intros r Hr. apply in_map_iff in Hr as (free & <- & _). simpl.
    rewrite !str_eqb_refl. simpl. apply str_eqb_neq. now intros ->.
Qed.

Lemma rows_for_day building room_number schedule day :
  In day days ->
  rows_for building room_number day (room_rows building room_number schedule)
  = map (fun free =>
           {| Building := building; Room_Number := room_number; Day := day;
              Free_From := strftime (fst free);
              Free_To := strftime (snd free) |})
        (free_times (booked_on schedule day)).
Proof. apply rows_for_day_in, days_NoDup. Qed.

Lemma rows_for_other_room building room_number day n schedule :
  n <> room_number ->
  rows_for building room_number day (room_rows building n schedule) = [].
Proof.
  intros Hn. apply filter_none. intros r Hr.
  apply room_rows_In in Hr as (-> & -> & _).
  rewrite str_eqb_refl. simpl.
  rewrite (proj2 (str_eqb_neq n room_number) Hn). reflexivity.
Qed.

Lemma rows_for_rooms building room_number day (rooms : room_map) schedule :
  unique_keys rooms ->
  dict_get str_eqb rooms room_number = Some schedule ->
  rows_for building room_number day
    (flat_map (fun '(n, s) => room_rows building n s) rooms)
  = rows_for building room_number day
      (room_rows building room_number schedule).
Proof.
  unfold rows_for at 1. rewrite filter_flat_map.
  induction rooms as [|[n s] rooms IH]; [discriminate|].
  intros Hu Hget. unfold unique_keys in Hu. cbn [map fst] in Hu.
  apply NoDup_cons_iff in Hu as [Hn Hu]. simpl in Hget |- *.
  destruct (str_eqb n room_number) eqn:E.
  - apply str_eqb_eq in E. subst n. injection Hget as ->.
    rewrite flat_map_none; [apply app_nil_r|].
    rewrite Forall_forall. intros [n s] Hns.
    apply rows_for_other_room. intros ->. apply Hn.
    apply (in_map fst) in Hns. exact Hns.
  - apply str_eqb_neq in E.
    fold (rows_for building room_number day (room_rows building n s)).
    rewrite rows_for_other_room by exact E.
    now apply IH.
Qed.

Lemma rows_for_other_building building room_number day b (rooms : room_map) :
  b <> building ->
  rows_for building room_number day
    (flat_map (fun '(n, s) => room_rows b n s) rooms) = [].
Proof.
  intros Hb. apply filter_none. intros r Hr.
  apply in_flat_map in Hr as ([n s] & _ & Hr).
  apply room_rows_In in Hr as (-> & _).
  now rewrite (proj2 (str_eqb_neq b building) Hb).
Qed.

Lemma rows_for_index rs building room_number day rooms :
  unique_keys rs ->
  dict_get str_eqb rs building = Some rooms ->
  rows_for building room_number day (empty_rooms rs)
  = rows_for building room_number day
      (flat_map (fun '(n, s) => room_rows building n s) rooms).
Proof.
  unfold empty_rooms, rows_for at 1. rewrite filter_flat_map.
  induction rs as [|[b rms] rs IH]; [discriminate|].
  intros Hu Hget. unfold unique_keys in Hu. cbn [map fst] in Hu.
  apply NoDup_cons_iff in Hu as [Hb Hu]. simpl in Hget |- *.
  destruct (str_eqb b building) eqn:E.
  - apply str_eqb_eq in E. subst b. injection Hget as ->.
    rewrite (@flat_map_none _ _ _ rs); [apply app_nil_r|].
    rewrite Forall_forall. intros [b rms] Hbr.
    apply rows_for_other_building. intros ->. apply Hb.
    apply (in_map fst) in Hbr. exact Hbr.
  - apply str_eqb_neq in E.
    fold (rows_for building room_number day
            (flat_map (fun '(n, s) => room_rows b n s) rms)).
    rewrite rows_for_other_building by exact E.
    now apply IH.
Qed.

End ResultTable.

Section FullWindow.

Lemma find_empty_rooms_unfold U self self1 :
  extract_room_schedule U self = Ok self1 ->
  find_empty_rooms U self
  = Ok (empty_rooms (room_schedule self1),
        {| df := df self1;
           room_schedule := sort_in_place (room_schedule self1) |}).
Proof. unfold find_empty_rooms. now intros ->. Qed.

Lemma rows_for_no_booking rs building room_number schedule day :
  index_ok rs ->
  room_present rs building room_number schedule ->
  In day days ->
  booked_on schedule day = [] ->
  rows_for building room_number day (empty_rooms rs)
  = [full_window_row building room_number day].
Proof.
  intros [Hu Hall] (rooms & Hb & Hr) Hday Hnone.
  rewrite rows_for_index with (rooms := rooms); [|exact Hu|exact Hb].
  rewrite rows_for_rooms with (schedule := schedule).
  - rewrite rows_for_day by exact Hday. now rewrite Hnone.
  - rewrite Forall_forall in Hall.
    apply (Hall (building, rooms)).
    eapply dict_get_In; [apply str_eqb_eq | exact Hb].
  - exact Hr.
Qed.

(** C7.  For every room that is present in the index built from a table
    and for every day of the week on which that room has no booked
    interval, [find_empty_rooms] returns, and the rows of its result for
    that room and day are exactly one row: the room is free for the whole
    operating window, from 09:30 to 22:00. *)
Theorem full_window_when_no_booking :
  forall (U : unicode_db) (table : list ExpandedRecord)
         (indexed : RoomScheduler)
         (building room_number day : str) (schedule : day_map),
    extract_room_schedule U (init table) = Ok indexed ->
    room_present (room_schedule indexed) building room_number schedule ->
    In day days ->
    booked_on schedule day = [] ->
    exists rows after,
      find_empty_rooms U (init table) = Ok (rows, after)
      /\ rows_for building room_number day rows
         = [full_window_row building room_number day].
Proof.
  intros U table indexed building room_number day schedule He Hp Hd Hn.
  eexists. eexists. split.
  - apply find_empty_rooms_unfold. exact He.
  - eapply rows_for_no_booking; eauto.
    eapply extract_room_schedule_ok; [|exact He]. apply init_ok.
Qed.

Lemma full_window_when_no_booking_witness :
  exists rows after,
    find_empty_rooms ucd_timetable (init Sample.monday_lecture)
    = Ok (rows, after)
    /\ rows_for (lit "A동") (lit "101") (lit "화") rows
       = [full_window_row (lit "A동") (lit "101") (lit "화")].
Proof.
  apply (@full_window_when_no_booking ucd_timetable Sample.monday_lecture
           {| df := Sample.monday_lecture;
              room_schedule := Sample.monday_index |}
           (lit "A동") (lit "101") (lit "화")
           [ (PStr (lit "월"), [(540, 615)]) ]).
  - vm_compute. reflexivity.
  - exists [ (lit "101", [ (PStr (lit "월"), [(540, 615)]) ]) ].
    split; vm_compute; reflexivity.
  - vm_compute. auto.
  - vm_compute. reflexivity.
Defined.

End FullWindow.

(* ================================================================== *)
(** ** Proofs: the export *)
(* ================================================================== *)

Section RowOrder.

Lemma str_lt_irrefl a : ~ str_lt a a.
Proof.
  induction a as [|x a IH]; intros H; inversion H; subst; auto.
  now apply (N.lt_irrefl x).
Qed.

Lemma str_lt_trans a b d : str_lt a b -> str_lt b d -> str_lt a d.
Proof.
  intros H. revert d. induction H; intros d Hd; inversion Hd; subst;
    constructor; solve [eauto | eapply N.lt_trans; eauto].
Qed.

Lemma str_leb_spec a b : str_leb a b = true <-> a = b \/ str_lt a b.
Proof.
  revert b. induction a as [|x a IH]; intros [|y b]; simpl.
  - split; auto.
  - split; auto. intros _. right. constructor.
  - split; [discriminate|]. intros [H|H]; [discriminate | inversion H].
  - rewrite orb_true_iff, andb_true_iff, N.ltb_lt, N.eqb_eq, IH. split.
    + intros [H|[-> [->|H]]]; auto using str_lt_head, str_lt_tail.
    + intros [[= -> ->]|H]; [auto|]. inversion H; subst; auto.
Qed.

Lemma str_leb_total a b : str_leb a b = false -> str_leb b a = true.
Proof.
  revert b. induction a as [|x a IH]; intros [|y b]; simpl; auto;
    try discriminate.
  rewrite orb_false_iff, andb_false_iff, N.ltb_ge, N.eqb_neq.
  intros [H1 H2]. apply orb_true_iff.
  destruct (N.eq_dec x y) as [->|Hne].
  - right. rewrite N.eqb_refl. simpl. apply IH. now destruct H2.
  - left. apply N.ltb_lt. lia.
Qed.

Lemma key_lt_trans a b d : key_lt a b -> key_lt b d -> key_lt a d.
Proof.
  intros H. revert d. induction H; intros d Hd; inversion Hd; subst;
    constructor; solve [eauto | eapply str_lt_trans; eauto].
Qed.

Lemma key_leb_refl a : key_leb a a = true.
Proof.
  induction a as [|x a IH]; simpl; [reflexivity|]. now rewrite str_eqb_refl.
Qed.

Lemma key_leb_spec a b : key_leb a b = true <-> a = b \/ key_lt a b.
Proof.
  revert b. induction a as [|x a IH]; intros [|y b]; simpl.
  - split; auto.
  - split; auto. intros _. right. constructor.
  - split; [discriminate|]. intros [H|H]; [discriminate | inversion H].
  - destruct (str_eqb x y) eqn:E.
    + apply str_eqb_eq in E. subst y. rewrite IH. split.
      * intros [->|H]; auto using key_lt_tail.
      * intros [[= ->]|H]; [auto|]. inversion H; subst; auto.
        exfalso. eapply str_lt_irrefl; eauto.
    + apply str_eqb_neq in E. rewrite str_leb_spec. split.
      * intros [H|H]; [easy|]. right. now constructor.
      * intros [[= H _]|H]; [easy|]. inversion H; subst; [auto | easy].
Qed.

Lemma key_leb_total a b : key_leb a b = false -> key_leb b a = true.
Proof.
  revert b. induction a as [|x a IH]; intros [|y b]; simpl; auto;
    try discriminate.
  destruct (str_eqb x y) eqn:E.
  - apply str_eqb_eq in E. subst y. rewrite str_eqb_refl. apply IH.
  - apply str_eqb_neq in E.
    rewrite (proj2 (str_eqb_neq y x)) by congruence. apply str_leb_total.
Qed.

(** The comparison the sort uses is the lexicographic order on the five
    columns. *)
Lemma row_leb_spec a b : row_leb a b = true <-> row_le a b.
Proof. apply key_leb_spec. Qed.

Lemma row_le_trans a b c : row_le a b -> row_le b c -> row_le a c.
Proof.
  unfold row_le. intros [->|H1] [<-|H2]; auto.
  right. eapply key_lt_trans; eauto.
Qed.

Lemma row_le_total a b : row_le a b \/ row_le b a.
Proof.
  rewrite <- !row_leb_spec. unfold row_leb.
  destruct (key_leb (sort_key a) (sort_key b)) eqn:E; auto.
  right. now apply key_leb_total.
Qed.

(** Rows with the same key are the same row. *)
Lemma sort_key_inj a b : sort_key a = sort_key b -> a = b.
Proof. destruct a, b. unfold sort_key. simpl. now intros [= -> -> -> -> ->]. Qed.

Lemma key_lt_irrefl a : ~ key_lt a a.
Proof.
  induction a as [|x a IH]; intros H; inversion H; subst; auto.
  eapply str_lt_irrefl; eauto.
Qed.

Lemma row_le_antisym a b : row_le a b -> row_le b a -> a = b.
Proof.
  intros [H|H1] [H'|H2]; auto using sort_key_inj.
  exfalso. eapply key_lt_irrefl, key_lt_trans; eauto.
Qed.

Lemma insert_row_perm x l : Permutation (x :: l) (insert_row x l).
Proof.
  induction l as [|y l IH]; simpl; [reflexivity|].
  destruct (row_leb x y); [reflexivity|].
  rewrite perm_swap. now constructor.
Qed.

Lemma sort_values_perm l : Permutation l (sort_values l).
Proof.
  induction l as [|x l IH]; simpl; [constructor|].
  rewrite <- insert_row_perm. now constructor.
Qed.

Lemma insert_row_sorted x l :
  StronglySorted row_le l -> StronglySorted row_le (insert_row x l).
Proof.
  induction 1 as [|y l Hs IH Hall]; simpl.
  - repeat constructor.
  - destruct (row_leb x y) eqn:E.
    + apply row_leb_spec in E.
      constructor; [now constructor|].
      constructor; [exact E|].
      eapply Forall_impl; [|exact Hall].
      intros z Hz. eapply row_le_trans; eauto.
    + constructor; [exact IH|].
      rewrite <- insert_row_perm.
      constructor; [|exact Hall].
      apply row_leb_spec. now apply key_leb_total.
Qed.

Lemma sort_values_sorted l : StronglySorted row_le (sort_values l).
Proof.
  induction l; simpl; [constructor | now apply insert_row_sorted].
Qed.

End RowOrder.

Section Exporter.

Lemma strftime_HHMM t : is_HHMM (strftime t) (t mod 1440).
Proof.
  exists ((t / 60) mod 24), (t mod 60).
  split; [|reflexivity].
  pose proof (Z.mod_pos_bound (t / 60) 24 ltac:(lia)).
  pose proof (Z.mod_pos_bound t 60 ltac:(lia)).
  repeat split; try lia.
  symmetry. apply Z.mod_unique with (q := t / 60 / 24); [lia|].
  pose proof (Z.div_mod t 60 ltac:(lia)).
  pose proof (Z.div_mod (t / 60) 24 ltac:(lia)).
  lia.
Qed.

(** The four characters are ASCII digits: the hour and the minute are
    padded with a zero. *)
Lemma hhmm_digits h m :
  0 <= h < 24 -> 0 <= m < 60 ->
  Forall (fun c => (48 <= c <= 57)%N) (hhmm h m).
Proof.
  intros Hh Hm. unfold hhmm.
  pose proof (Z.mod_pos_bound h 10 ltac:(lia)).
  pose proof (Z.mod_pos_bound m 10 ltac:(lia)).
  pose proof (Z.div_mod h 10 ltac:(lia)).
  pose proof (Z.div_mod m 10 ltac:(lia)).
  repeat constructor; lia.
Qed.

(** A table without rows has no column to sort by. *)
Lemma save_empty_rooms_to_csv_no_rows U self after :
  find_empty_rooms U self = Ok ([], after) ->
  save_empty_rooms_to_csv U self = Raise (KeyError "Building").
Proof. unfold save_empty_rooms_to_csv. now intros ->. Qed.

(** Every free interval of a room of the index on a day of the week has
    its row in the result. *)
Lemma empty_rooms_complete rs building rooms room_number schedule day free :
  In (building, rooms) rs ->
  In (room_number, schedule) rooms ->
  In day days ->
  In free (free_times (booked_on schedule day)) ->
  In {| Building := building; Room_Number := room_number; Day := day;
        Free_From := strftime (fst free); Free_To := strftime (snd free) |}
     (empty_rooms rs).
Proof.
  intros Hb Hn Hd Hf. unfold empty_rooms.
  apply in_flat_map. exists (building, rooms). split; [exact Hb|].
  apply in_flat_map. exists (room_number, schedule). split; [exact Hn|].
  unfold room_rows. apply in_flat_map. exists day. split; [exact Hd|].
  apply in_map_iff. exists free. auto.
Qed.

(** The comparison of the sort is the ascending order on the five
    columns. *)
Lemma row_le_ascending a b : row_le a b <-> ascending a b.
Proof.
  destruct a as [a1 a2 a3 a4 a5], b as [b1 b2 b3 b4 b5].
  unfold row_le, ascending, sort_key. simpl. split.
  - intros [E|H].
    + injection E as -> -> -> -> ->. tauto.
    + inversion H as [| ? ? ? ? H1 | ? ? ? H1]; subst; [tauto|].
      inversion H1 as [| ? ? ? ? H2 | ? ? ? H2]; subst; [tauto|].
      inversion H2 as [| ? ? ? ? H3 | ? ? ? H3]; subst; [tauto|].
      inversion H3 as [| ? ? ? ? H4 | ? ? ? H4]; subst; [tauto|].
      inversion H4 as [| ? ? ? ? H5 | ? ? ? H5]; subst; [tauto|].
      inversion H5.
  - intros [H|[-> [H|[-> [H|[-> [H|[-> [H| ->]]]]]]]]];
      auto 7 using key_lt_head, key_lt_tail.
Qed.

Lemma StronglySorted_impl {A} (R R' : A -> A -> Prop) l :
  (forall a b, R a b -> R' a b) ->
  StronglySorted R l -> StronglySorted R' l.
Proof.
  intros HR. induction 1 as [|x l Hs IH Hall]; constructor; [exact IH|].
  eapply Forall_impl; [|exact Hall]. intros y. apply HR.
Qed.

(** C9.  The table that [save_empty_rooms_to_csv] hands on holds a row for
    every free interval of every room of the index on every day of the
    week and no other row; the two times of a row are the start and the
    end of its free interval written as zero-padded 24-hour [HHMM]; and
    the rows are in ascending order of building, room number, day, start
    and end, column by column.  That is so whenever there is a free
    interval at all.  When there is none (as for a table that names no
    room of a known building) nothing is handed on:
    [save_empty_rooms_to_csv] raises [KeyError] for the column
    [Building]. *)
Theorem export_sorted_HHMM_unless_no_row :
  forall (U : unicode_db) (self indexed : RoomScheduler),
    extract_room_schedule U self = Ok indexed ->
    ((forall building rooms room_number schedule day,
        In (building, rooms) (room_schedule indexed) ->
        In (room_number, schedule) rooms ->
        In day days ->
        free_times (booked_on schedule day) = [])
     /\ save_empty_rooms_to_csv U self = Raise (KeyError "Building"))
    \/ exists table after,
         save_empty_rooms_to_csv U self = Ok (table, after)
         /\ table <> []
         /\ Permutation (empty_rooms (room_schedule indexed)) table
         /\ StronglySorted ascending table
         /\ (forall r, In r table ->
              exists rooms schedule free,
                In (Building r, rooms) (room_schedule indexed)
                /\ In (Room_Number r, schedule) rooms
                /\ In (Day r) days
                /\ In free (free_times (booked_on schedule (Day r)))
                /\ is_HHMM (Free_From r) (fst free mod 1440)
                /\ is_HHMM (Free_To r) (snd free mod 1440))
         /\ (forall building rooms room_number schedule day free,
              In (building, rooms) (room_schedule indexed) ->
              In (room_number, schedule) rooms ->
              In day days ->
              In free (free_times (booked_on schedule day)) ->
              exists r,
                In r table
                /\ Building r = building /\ Room_Number r = room_number
                /\ Day r = day
                /\ is_HHMM (Free_From r) (fst free mod 1440)
                /\ is_HHMM (Free_To r) (snd free mod 1440)).
Proof.
  intros U self indexed He.
  pose proof (@find_empty_rooms_unfold U self indexed He) as Hf.
  destruct (empty_rooms (room_schedule indexed)) as [|r0 l] eqn:E.
  - left. split.
    + intros building rooms room_number schedule day Hb Hn Hd.
      destruct (free_times (booked_on schedule day)) as [|free fs] eqn:Ef;
        [reflexivity|].
      exfalso.
      assert (Hin : In free (free_times (booked_on schedule day)))
        by (rewrite Ef; now left).
      pose proof (empty_rooms_complete _ _ _ _ _ _ Hb Hn Hd Hin) as Hr.
      now rewrite E in Hr.
    + unfold save_empty_rooms_to_csv. now rewrite Hf.
  - right. rewrite <- E in *.
    exists (sort_values (empty_rooms (room_schedule indexed))).
    eexists. split; [|split; [|split; [|split; [|split]]]].
    + unfold save_empty_rooms_to_csv. rewrite Hf. cbn [bind].
      rewrite E. reflexivity.
    + intros Hnil. apply (Permutation_nil_cons (l := l) (x := r0)).
      rewrite <- Hnil, <- E. symmetry. apply sort_values_perm.
    + apply sort_values_perm.
    + apply StronglySorted_impl with (R := row_le);
        [apply row_le_ascending | apply sort_values_sorted].
    + intros r Hr.
      apply (Permutation_in r (Permutation_sym (sort_values_perm _))) in Hr.
      apply empty_rooms_In in Hr
        as (rooms & schedule & free & Hb & Hn & Hd & Hfree & H1 & H2).
      exists rooms, schedule, free.
      rewrite H1, H2. auto 7 using strftime_HHMM.
    + intros building rooms room_number schedule day free Hb Hn Hd Hfree.
      eexists. split.
      * apply (Permutation_in _ (sort_values_perm _)).
        exact (empty_rooms_complete _ _ _ _ _ _ Hb Hn Hd Hfree).
      * simpl. auto using strftime_HHMM.
Qed.

Lemma export_sorted_HHMM_unless_no_row_witness :
  save_empty_rooms_to_csv ucd_timetable (init [])
  = Raise (KeyError "Building")
  /\ exists table after,
       save_empty_rooms_to_csv ucd_timetable (init Sample.noon_then_morning)
       = Ok (table, after)
       /\ StronglySorted ascending table.
Proof.
  split.
  - destruct (@export_sorted_HHMM_unless_no_row ucd_timetable
                (init []) (init []))
      as [[_ H]|(table & after & H & _)].
    + vm_compute. reflexivity.
    + exact H.
    + vm_compute in H. discriminate.
  - destruct (@export_sorted_HHMM_unless_no_row ucd_timetable
                (init Sample.noon_then_morning)
                {| df := Sample.noon_then_morning;
                   room_schedule := Sample.noon_then_morning_index |})
      as [[_ H]|(table & after & H & _ & _ & Hsorted & _)].
    + vm_compute. reflexivity.
    + vm_compute in H. discriminate.
    + exists table, after. split; assumption.
Defined.

End Exporter.

(* ================================================================== *)
(** ** The operating window *)
(* ================================================================== *)

Section Window.

(** C6.  A lecture that starts at 23:00 makes the gap computation emit the
    free interval from 09:30 to 23:00, which does not lie within the
    operating window that closes at 22:00; the exported table carries it
    as the row 0930-2300. *)
Theorem late_booking_leaves_the_window :
  free_times [(1380, 1430)] = [(570, 1380)]
  /\ ~ within_window (570, 1380)
  /\ exists table,
       process ucd_timetable Sample.late_lecture = Ok table
       /\ In {| Building := lit "A동"; Room_Number := lit "101";
                Day := lit "월"; Free_From := lit "0930";
                Free_To := lit "2300" |} table.
Proof.
  split; [reflexivity|]. split.
  - unfold within_window. vm_compute. intros [_ H]. now apply H.
  - eexists. split; [vm_compute; reflexivity|].
    vm_compute. tauto.
Qed.

End Window.

(* ================================================================== *)
(** ** Proofs: buildings and room numbers *)
(* ================================================================== *)

Section Rooms.

Lemma prefix_comparable (a b s : str) :
  prefix a s -> prefix b s -> prefix a b \/ prefix b a.
Proof.
  revert b s. induction a as [|x a IH]; intros b s Ha Hb.
  - left. now exists b.
  - destruct b as [|y b]; [right; now exists (x :: a)|].
    destruct Ha as [ra ->]. destruct Hb as [rb Hb].
    injection Hb as -> Hb.
    destruct (IH b (a ++ ra)) as [[r ->]|[r ->]].
    + now exists ra.
    + now exists rb.
    + left. now exists r.
    + right. now exists r.
Qed.

(** No building name begins with another one. *)
Lemma buildings_prefix_free b b' :
  In b buildings -> In b' buildings -> prefix b b' -> b = b'.
Proof.
  intros Hb Hb' Hp. apply startswith_prefix in Hp.
  assert (H : forallb (fun x => forallb (fun y =>
                implb (startswith y x) (str_eqb x y)) buildings) buildings
              = true) by (vm_compute; reflexivity).
  rewrite forallb_forall in H. specialize (H b Hb).
  rewrite forallb_forall in H. specialize (H b' Hb').
  rewrite Hp in H. now apply str_eqb_eq.
Qed.

Lemma buildings_not_empty : ~ In [] buildings.
Proof. vm_compute. intuition discriminate. Qed.

Lemma remove_go_skip old p r :
  remove_go old (List.length p) (p ++ r) = remove_go old 0 r.
Proof. induction p as [|c p IH]; simpl; [reflexivity | exact IH]. Qed.

Lemma remove_go_absent old r :
  contains old r = false -> remove_go old 0 r = r.
Proof.
  induction r as [|c r IH]; simpl; [reflexivity|].
  rewrite orb_false_iff. intros [H1 H2].
  rewrite H1. f_equal. apply IH.
  destruct r; simpl in *; exact H2.
Qed.

(** Cutting a building name off the front of a room string in which it
    does not occur again. *)
Lemma remove_all_prefix b rest :
  b <> [] -> contains b rest = false -> remove_all b (b ++ rest) = rest.
Proof.
  intros Hb Hc. unfold remove_all. destruct b as [|c b]; [easy|].
  cbn [app remove_go].
  change (c :: b ++ rest) with ((c :: b) ++ rest).
  rewrite startswith_app. cbn [List.length pred].
  rewrite remove_go_skip. now apply remove_go_absent.
Qed.

(** C8, as the code has it.  The building of a room string is the known
    building name it starts with; there is only one such name, so it is
    also the longest.  The room number is what follows that name with the
    surrounding white space removed, when the name does not occur again
    in what follows.  A room string that starts with no known building
    name is passed over: no error is raised and the index is unchanged. *)
Theorem resolve_room_spec :
  forall single_room : str,
    match resolve_room single_room with
    | Some (building, room_number) =>
        In building buildings
        /\ prefix building single_room
        /\ (forall b, In b buildings -> prefix b single_room ->
                      b = building
                      /\ (List.length b <= List.length building)%nat)
        /\ (contains building (remainder building single_room) = false ->
            room_number = strip (remainder building single_room))
    | None =>
        (forall b, In b buildings -> ~ prefix b single_room)
        /\ forall U row rs untrimmed,
             strip untrimmed = single_room ->
             add_room U row rs untrimmed = Ok rs
    end.
Proof.
  intros s. unfold resolve_room, find_building.
  destruct (find (fun b => startswith s b) buildings) as [b|] eqn:E.
  - apply find_some in E as [Hb Hs]. apply startswith_prefix in Hs.
    destruct b as [|c b]; [now apply buildings_not_empty in Hb|].
    split; [exact Hb|]. split; [exact Hs|]. split.
    + intros b' Hb' Hs'.
      assert (b' = c :: b); [|now subst].
      destruct (prefix_comparable Hs' Hs) as [H|H].
      * now apply buildings_prefix_free.
      * symmetry. now apply buildings_prefix_free.
    + destruct Hs as [rest ->]. unfold remainder.
      rewrite skipn_app, skipn_all, Nat.sub_diag. simpl skipn.
      intros Hc. now rewrite remove_all_prefix.
  - split.
    + intros b Hb Hs. apply startswith_prefix in Hs.
      now rewrite (find_none _ _ E b Hb) in Hs.
    + intros U row rs untrimmed <-. unfold add_room, resolve_room, find_building.
      now rewrite E.
Qed.

Lemma resolve_room_spec_witness :
  resolve_room (lit "B동201") = Some (lit "B동", lit "201")
  /\ lit "201" = strip (remainder (lit "B동") (lit "B동201")).
Proof.
  pose proof (resolve_room_spec (lit "B동201")) as H.
  assert (E : resolve_room (lit "B동201") = Some (lit "B동", lit "201"))
    by (vm_compute; reflexivity).
  rewrite E in H. destruct H as (_ & _ & _ & H).
  split; [exact E|]. apply H. vm_compute. reflexivity.
Defined.

(** C8, as the specification words it: the room number would be the
    remainder after the building prefix.  The room string "A동 101"
    resolves to room number "101", while the remainder is " 101". *)
Lemma room_number_is_not_the_remainder :
  ~ (forall single_room building room_number,
       resolve_room single_room = Some (building, room_number) ->
       room_number = remainder building single_room).
Proof.
  intros H.
  specialize (H (lit "A동 101") (lit "A동") (lit "101") eq_refl).
  vm_compute in H. discriminate H.
Qed.

End Rooms.

(* ================================================================== *)
(** ** Proofs: the description parser *)
(* ================================================================== *)

Section Matching.
Variable U : unicode_db.

(** What a successful greedy repetition has consumed. *)
Lemma rep_greedy_sound {R} cs (k : nat -> str -> option R) r s :
  forall lo hi p,
    rep_greedy U cs lo hi p s k = Some r ->
    exists n, (lo <= n <= List.length s)%nat
              /\ Forall (fun c => cset_mem U cs c = true) (firstn n s)
              /\ k (p + n)%nat (skipn n s) = Some r.
Proof.
  assert (Hstop : forall lo p s,
            match lo with O => k p s | S _ => None end = Some r ->
            exists n, (lo <= n <= List.length s)%nat
              /\ Forall (fun c => cset_mem U cs c = true) (firstn n s)
              /\ k (p + n)%nat (skipn n s) = Some r).
  { intros [|lo] p s0 H; [|discriminate]. exists O.
    rewrite Nat.add_0_r. simpl. repeat split; auto; lia. }
  induction s as [|c s IH]; intros lo hi p H.
  - apply Hstop. destruct hi as [[|]|]; exact H.
  - destruct hi as [[|hi]|]; [now apply Hstop| |]; simpl in H;
      (destruct (cset_mem U cs c) eqn:Hc; [|now apply Hstop]);
      match type of H with
      | match ?inner with _ => _ end = _ => destruct inner as [r'|] eqn:E
      end; try (now apply Hstop); injection H as ->;
      apply IH in E as (n & Hn & Hall & Hk);
      exists (S n); (split; [simpl; lia|]);
      (split; [simpl; now constructor|]);
      now rewrite Nat.add_succ_r.
Qed.

(** A greedy repetition finds a match whenever some admissible number of
    repetitions leads to one. *)
Lemma rep_greedy_complete {R} cs (k : nat -> str -> option R) s :
  forall lo p n,
    (lo <= n <= List.length s)%nat ->
    Forall (fun c => cset_mem U cs c = true) (firstn n s) ->
    k (p + n)%nat (skipn n s) <> None ->
    rep_greedy U cs lo None p s k <> None.
Proof.
  induction s as [|c s IH]; intros lo p n Hn Hall Hk.
  - simpl in Hn. assert (n = O) by lia. subst n.
    assert (lo = O) by lia. subst lo.
    simpl. now rewrite Nat.add_0_r in Hk.
  - destruct n as [|n].
    + assert (lo = O) by lia. subst lo. rewrite Nat.add_0_r in Hk.
      simpl in Hk |- *. destruct (cset_mem U cs c); [|exact Hk].
      now destruct (rep_greedy U cs 0 None (S p) s k).
    + simpl in Hall, Hk, Hn. inversion Hall as [|? ? Hc Hall']; subst.
      simpl. rewrite Hc.
      assert (E : rep_greedy U cs (pred lo) None (S p) s k <> None).
      { apply (IH (pred lo) (S p) n); [lia | exact Hall'|].
        now rewrite Nat.add_succ_r in Hk. }
      destruct (rep_greedy U cs (pred lo) None (S p) s k); easy.
Qed.

(** The shape of a subject that [room_pattern] matches from its first
    character on, and the group it captures. *)
Lemma room_match_inv p s m :
  match_here U room_pattern p s = Some m ->
  exists g e, s = ch "(" :: g ++ ch ")" :: e
              /\ (e = [] \/ e = [0x0A%N])
              /\ group (m_groups m) "room" = g.
Proof.
  unfold match_here, room_pattern. simpl.
  destruct s as [|c t]; [discriminate|].
  destruct (N.eqb_spec c 40) as [->|]; [|discriminate].
  intros H. apply rep_greedy_sound in H as (n & Hn & _ & H). simpl in H.
  destruct (skipn n t) as [|c' e] eqn:Et; [discriminate|].
  destruct (N.eqb_spec c' 41) as [->|]; [|discriminate].
  exists (firstn n t), e.
  rewrite <- Et, firstn_skipn.
  split; [reflexivity|].
  simpl in H. destruct e as [|c1 [|c2 e]]; try discriminate.
  - injection H as <-. simpl. split; [auto|]. f_equal. lia.
  - destruct (N.eqb_spec c1 0x0A) as [->|]; [|discriminate].
    injection H as <-. simpl. split; [auto|]. f_equal. lia.
Qed.

Lemma room_match_complete p body :
  body <> [] -> ~ In 0x0A%N body ->
  match_here U room_pattern p (ch "(" :: body ++ [ch ")"]) <> None.
Proof.
  intros Hne Hnl. unfold match_here, room_pattern. simpl.
  apply rep_greedy_complete with (n := List.length body).
  - rewrite length_app. simpl. destruct body; [easy | simpl; lia].
  - rewrite firstn_app, firstn_all, Nat.sub_diag. simpl. rewrite app_nil_r.
    rewrite Forall_forall. intros c Hc. simpl.
    destruct (N.eqb_spec c 0x0A); [now subst | reflexivity].
  - rewrite skipn_app, skipn_all, Nat.sub_diag. simpl. discriminate.
Qed.

Lemma contains_app_r k a b : contains k b = true -> contains k (a ++ b) = true.
Proof.
  intros H. induction a as [|c a IH]; simpl; [exact H|].
  rewrite IH. apply orb_true_r.
Qed.

Lemma contains_cons k c b : contains k b = true -> contains k (c :: b) = true.
Proof. apply (contains_app_r k [c] b). Qed.

Lemma contains_not_nil k s : k <> [] -> contains k s = true -> s <> [].
Proof. intros Hk H ->. destruct k; [easy | discriminate]. Qed.

Lemma search_from_unfold r p s :
  search_from U r p s
  = match match_here U r p s with
    | Some m => Some m
    | None => match s with
              | [] => None
              | _ :: s' => search_from U r (S p) s'
              end
    end.
Proof. destruct s; reflexivity. Qed.

(** The room list that [room_pattern] finds in a description that ends in
    a parenthesized segment takes in that whole segment. *)
Lemma search_room_list keyword body : forall before p,
  contains keyword body = true -> keyword <> [] -> ~ In 0x0A%N body ->
  exists m, search_from U room_pattern p (before ++ ch "(" :: body ++ [ch ")"])
            = Some m
            /\ contains keyword (group (m_groups m) "room") = true.
Proof.
  intros before p Hk Hne Hnl.
  assert (Htail : forall (x g e : str),
            x ++ [ch ")"] = g ++ ch ")" :: e ->
            e = [] \/ e = [0x0A%N] -> g = x).
  { intros x g e E [->| ->].
    - now apply app_inj_tail in E as [-> _].
    - change (g ++ [ch ")"; 0x0A%N]) with (g ++ [ch ")"] ++ [0x0A%N]) in E.
      rewrite app_assoc in E. apply app_inj_tail in E as [_ E].
      discriminate E. }
  revert p. induction before as [|c before IH]; intros p;
    rewrite search_from_unfold; cbn [app];
    match goal with
    | |- context [match_here U room_pattern p ?s] =>
        destruct (match_here U room_pattern p s) as [m|] eqn:E
    end.
  - exists m. split; [reflexivity|].
    apply room_match_inv in E as (g & e & E & He & ->).
    injection E as E. now rewrite (Htail _ _ _ E He).
  - exfalso. revert E. apply room_match_complete; [|exact Hnl].
    eapply contains_not_nil; eauto.
  - exists m. split; [reflexivity|].
    apply room_match_inv in E as (g & e & E & He & ->).
    injection E as _ E.
    assert (E' : (before ++ ch "(" :: body) ++ [ch ")"] = g ++ ch ")" :: e)
      by (rewrite <- app_assoc; exact E).
    rewrite (Htail _ _ _ E' He).
    now apply contains_app_r, contains_cons.
  - apply IH.
Qed.

End Matching.

Section Descriptions.
Variable U : unicode_db.

Lemma excluded_existsb room_info :
  existsb (fun keyword => contains keyword room_info) keywords = true
  <-> excluded room_info.
Proof. apply existsb_exists. Qed.

Lemma keywords_not_empty keyword : In keyword keywords -> keyword <> [].
Proof. intros H ->. vm_compute in H. intuition discriminate. Qed.

(** What [parse_lecture_time] returns, by the room list found. *)
Lemma parse_excluded description m :
  search U room_pattern description = Some m ->
  excluded (group (m_groups m) "room") ->
  parse_lecture_time U description = Ok [].
Proof.
  intros Hs He. unfold parse_lecture_time. rewrite Hs.
  now rewrite (proj2 (excluded_existsb _) He).
Qed.

Lemma parse_without_room_list description :
  search U room_pattern description = None ->
  parse_lecture_time U description
  = Ok (map new_token (finditer U time_pattern description)).
Proof. intros Hs. unfold parse_lecture_time. now rewrite Hs. Qed.

(** A description in which no time segment is found yields no token and
    no error, whatever its room list. *)
Lemma parse_without_time_segment description :
  finditer U time_pattern description = [] ->
  parse_lecture_time U description = Ok [].
Proof.
  intros Hf. unfold parse_lecture_time. rewrite Hf.
  destruct (search U room_pattern description); [|reflexivity].
  match goal with |- context [existsb ?f keywords] =>
    now destruct (existsb f keywords) end.
Qed.

(** A room list of three or more entries after at least one time segment
    is an error that reaches the caller of the expansion. *)
Lemma three_rooms_raise_when_timed row rest m :
  finditer U time_pattern (lecture_time row) <> [] ->
  search U room_pattern (lecture_time row) = Some m ->
  existsb (fun keyword => contains keyword (group (m_groups m) "room"))
    keywords = false ->
  (2 < List.length (split (ch ",") (group (m_groups m) "room")))%nat ->
  parse_lecture_time U (lecture_time row)
  = Raise (ValueError "room is more than 2")
  /\ expand_lecture_times U (row :: rest)
     = Raise (ValueError "room is more than 2").
Proof.
  intros Hf Hs He Hn.
  assert (H : parse_lecture_time U (lecture_time row)
              = Raise (ValueError "room is more than 2")).
  { unfold parse_lecture_time. rewrite Hs, He.
    destruct (finditer U time_pattern (lecture_time row)); [easy|].
    cbn [map mapM]. unfold attach_rooms.
    now rewrite (proj2 (Nat.ltb_lt _ _) Hn). }
  split; [exact H|].
  simpl. unfold expand_row. now rewrite H.
Qed.

(** C3.  When the room list of a description names an excluded category
    (an online session, an unassigned room, a research room), the parser
    returns no token and the row expands to no record, however many time
    segments come before the room list.  The room list is the one
    [room_pattern] finds; in particular it is the parenthesized segment
    that ends the description. *)
Theorem excluded_room_list_yields_nothing :
  forall row : RawScheduleRow,
    (exists m, search U room_pattern (lecture_time row) = Some m
               /\ excluded (group (m_groups m) "room"))
    \/ (exists before body,
          lecture_time row = before ++ ch "(" :: body ++ [ch ")"]
          /\ excluded body /\ ~ In 0x0A%N body) ->
    parse_lecture_time U (lecture_time row) = Ok []
    /\ expand_row U row = Ok []
    /\ expand_lecture_times U [row] = Ok [].
Proof.
  intros row H.
  assert (Hp : parse_lecture_time U (lecture_time row) = Ok []).
  { destruct H as [(m & Hs & He)|(before & body & -> & (k & Hk & Hc) & Hnl)].
    - eapply parse_excluded; eauto.
    - destruct (@search_room_list U k body before 0%nat Hc
                  (keywords_not_empty Hk) Hnl) as (m & Hs & Hm).
      eapply parse_excluded; [exact Hs|]. now exists k. }
  split; [exact Hp|].
  assert (He : expand_row U row = Ok []) by (unfold expand_row; now rewrite Hp).
  split; [exact He|]. simpl. now rewrite He.
Qed.

(** C1, as the code has it.  For a description with at least one time
    segment and no room list the parser returns one token per segment;
    such a token has the key [room] set to [None] and has no key
    [room_a] or [room_b], and the expansion of the row raises [KeyError]
    when it reads [room_a]. *)
Theorem roomless_description_raises :
  forall (row : RawScheduleRow) (rest : list RawScheduleRow),
    finditer U time_pattern (lecture_time row) <> [] ->
    search U room_pattern (lecture_time row) = None ->
    (exists tokens,
        parse_lecture_time U (lecture_time row) = Ok tokens
        /\ List.length tokens
           = List.length (finditer U time_pattern (lecture_time row))
        /\ Forall (fun t : token =>
                     dict_get String.eqb t "room" = Some PNone
                     /\ dict_get String.eqb t "room_a" = None
                     /\ dict_get String.eqb t "room_b" = None) tokens)
    /\ expand_row U row = Raise (KeyError "room_a")
    /\ expand_lecture_times U (row :: rest) = Raise (KeyError "room_a").
Proof.
  intros row rest Hf Hs.
  pose proof (parse_without_room_list _ Hs) as Hp.
  split.
  - eexists. split; [exact Hp|]. split; [apply length_map|].
    rewrite Forall_forall. intros t Ht.
    apply in_map_iff in Ht as (m & <- & _). now vm_compute.
  - assert (He : expand_row U row = Raise (KeyError "room_a")).
    { unfold expand_row. rewrite Hp.
      destruct (finditer U time_pattern (lecture_time row)); [easy|].
      reflexivity. }
    split; [exact He|]. simpl. now rewrite He.
Qed.

End Descriptions.

Lemma excluded_room_list_yields_nothing_witness :
  parse_lecture_time ucd_timetable (lecture_time Sample.online) = Ok []
  /\ expand_row ucd_timetable Sample.online = Ok []
  /\ expand_lecture_times ucd_timetable [Sample.online] = Ok [].
Proof.
  apply excluded_room_list_yields_nothing. right.
  exists (lit "월[1~2] 09:00~10:15 수[3] 13:00~13:50 "), (lit "온라인").
  split; [vm_compute; reflexivity|]. split.
  - exists (lit "온라인"). split; vm_compute; auto.
  - vm_compute. intuition discriminate.
Defined.

Lemma roomless_description_raises_witness :
  expand_lecture_times ucd_timetable [Sample.roomless]
  = Raise (KeyError "room_a").
Proof.
  apply (@roomless_description_raises ucd_timetable Sample.roomless []).
  - vm_compute. discriminate.
  - vm_compute. reflexivity.
Defined.

(** C2.  The description "(A101, A102, A103)" has a room list of three
    entries, none of which is an exclusion keyword; no time segment comes
    before it.  The parser returns the empty list and raises nothing, so
    the row is passed over in silence. *)
Theorem three_rooms_without_time_segment_pass_silently :
  (exists m,
      search ucd_timetable room_pattern (lecture_time Sample.three_rooms)
      = Some m
      /\ split (ch ",") (group (m_groups m) "room")
         = [lit "A101"; lit " A102"; lit " A103"]
      /\ existsb (fun keyword => contains keyword (group (m_groups m) "room"))
           keywords = false)
  /\ parse_lecture_time ucd_timetable (lecture_time Sample.three_rooms) = Ok []
  /\ expand_lecture_times ucd_timetable
       [Sample.three_rooms; Sample.three_rooms_timed]
     = Raise (ValueError "room is more than 2").
Proof.
  split; [|split]; try (vm_compute; reflexivity).
  eexists. split; [vm_compute; reflexivity|].
  split; vm_compute; reflexivity.
Qed.

(* ================================================================== *)
(** ** Proofs: the run from the spreadsheet to the result table *)
(* ================================================================== *)

Section Pipeline.
Variable U : unicode_db.

Lemma string_eqb_eq (a b : string) : String.eqb a b = true <-> a = b.
Proof. apply String.eqb_eq. Qed.

Lemma mapM_Forall {A B} (f : A -> result B) (P : A -> Prop) (Q : B -> Prop) :
  (forall x y, P x -> f x = Ok y -> Q y) ->
  forall l l', Forall P l -> mapM f l = Ok l' -> Forall Q l'.
Proof.
  intros Hf. induction l as [|x l IH]; simpl; intros l' Hl H.
  - injection H as <-. constructor.
  - inversion Hl; subst.
    destruct (f x) as [y|] eqn:Ey; simpl in H; [|discriminate].
    destruct (mapM f l) as [ys|] eqn:Eys; simpl in H; [|discriminate].
    injection H as <-. constructor; eauto.
Qed.

Lemma new_token_timed m : timed_token (new_token m).
Proof.
  unfold timed_token, new_token. simpl.
  do 3 eexists. repeat split; reflexivity.
Qed.

Lemma attach_rooms_timed room_list t t' :
  timed_token t -> attach_rooms room_list t = Ok t' -> timed_token t'.
Proof.
  intros (d & a & b & Hd & Ha & Hb). unfold attach_rooms.
  destruct (2 <? List.length room_list)%nat; [discriminate|].
  intros [= <-]. exists d, a, b.
  rewrite !(dict_get_set_other String.eqb string_eqb_eq) by discriminate.
  auto.
Qed.

Lemma parse_lecture_time_timed description tokens :
  parse_lecture_time U description = Ok tokens -> Forall timed_token tokens.
Proof.
  unfold parse_lecture_time.
  assert (Hall : Forall timed_token
                   (map new_token (finditer U time_pattern description))).
  { rewrite Forall_forall. intros t Ht.
    apply in_map_iff in Ht as (m & <- & _). apply new_token_timed. }
  destruct (search U room_pattern description); [|now intros [= <-]].
  match goal with |- context [existsb ?f keywords] =>
    destruct (existsb f keywords) end; [intros [= <-]; constructor|].
  apply mapM_Forall with (P := timed_token); [|exact Hall].
  intros x y. apply attach_rooms_timed.
Qed.

Lemma expand_token_timed row t r :
  timed_token t -> expand_token row t = Ok r -> timed_row r.
Proof.
  intros (d & a & b & Hd & Ha & Hb). unfold expand_token, getitem.
  rewrite Hd, Ha, Hb. simpl.
  destruct (dict_get String.eqb t "room_a"); simpl; [|discriminate].
  destruct (dict_get String.eqb t "room_b"); simpl; [|discriminate].
  intros [= <-]. now exists a, b.
Qed.

Lemma expand_lecture_times_timed rows : forall table,
  expand_lecture_times U rows = Ok table -> Forall timed_row table.
Proof.
  induction rows as [|row rows IH]; simpl; intros table H.
  - injection H as <-. constructor.
  - destruct (expand_row U row) as [rs|] eqn:Er; simpl in H; [|discriminate].
    destruct (expand_lecture_times U rows) as [more|]; simpl in H;
      [|discriminate].
    injection H as <-. apply Forall_app. split; [|now apply IH].
    unfold expand_row in Er.
    destruct (parse_lecture_time U (lecture_time row)) as [ts|] eqn:Ep;
      simpl in Er; [|discriminate].
    apply parse_lecture_time_timed in Ep.
    revert Er. apply mapM_Forall with (P := timed_token); [|exact Ep].
    intros x y Hx. now apply expand_token_timed.
Qed.

(** [strptime] of a string returns or raises [ValueError]. *)
Lemma strptime_of_string s :
  (exists t, strptime U (PStr s) = Ok t)
  \/ (exists msg, strptime U (PStr s) = Raise (ValueError msg)).
Proof.
  unfold strptime.
  destruct (match_here U format_regex 0 s) as [found|]; [|eauto].
  destruct (negb _); eauto.
Qed.

Lemma add_room_returns row rs single_room :
  timed_row row -> exists rs', add_room U row rs single_room = Ok rs'.
Proof.
  intros (a & b & Ha & Hb). unfold add_room. rewrite Ha, Hb.
  destruct (resolve_room (strip single_room)) as [[bd rn]|]; [|eauto].
  destruct (strptime_of_string a) as [[t1 ->]|[m1 ->]]; [|eauto].
  destruct (strptime_of_string b) as [[t2 ->]|[m2 ->]]; eauto.
Qed.

Lemma foldM_returns {A B} (f : B -> A -> result B) l :
  (forall b x, In x l -> exists b', f b x = Ok b') ->
  forall b, exists b', foldM f l b = Ok b'.
Proof.
  induction l as [|x l IH]; simpl; intros Hf b; [eauto|].
  destruct (Hf b x (or_introl eq_refl)) as [b1 ->]. simpl.
  apply IH. intros; apply Hf; auto.
Qed.

Lemma add_row_returns rs row :
  timed_row row -> exists rs', add_row U rs row = Ok rs'.
Proof.
  intros Hrow. unfold add_row. apply foldM_returns.
  intros rs0 room _. unfold add_column.
  destruct room as [|room]; [eauto|].
  apply foldM_returns. intros; now apply add_room_returns.
Qed.

(** The expansion never hands the scheduler a table it fails on:
    [find_empty_rooms] returns on every table that
    [expand_lecture_times] produces. *)
Lemma find_empty_rooms_returns rows table :
  expand_lecture_times U rows = Ok table ->
  exists indexed,
    extract_room_schedule U (init table) = Ok indexed
    /\ find_empty_rooms U (init table)
       = Ok (empty_rooms (room_schedule indexed),
             {| df := df indexed;
                room_schedule := sort_in_place (room_schedule indexed) |}).
Proof.
  intros H. apply expand_lecture_times_timed in H.
  assert (E : exists rs, foldM (add_row U) table [] = Ok rs).
  { apply foldM_returns. intros rs row Hrow.
    apply add_row_returns. rewrite Forall_forall in H. auto. }
  destruct E as [rs E].
  exists {| df := table; room_schedule := rs |}.
  assert (He : extract_room_schedule U (init table)
               = Ok {| df := table; room_schedule := rs |}).
  { unfold extract_room_schedule. simpl. now rewrite E. }
  split; [exact He|]. now apply find_empty_rooms_unfold.
Qed.

End Pipeline.

(* ================================================================== *)
(** ** Proofs: the schedule consumer *)
(* ================================================================== *)

Module ClassroomFacts.
Import Classroom.
Local Open Scope nat_scope.

Lemma deref_alloc_old (h : heap) f l :
  l < List.length h -> deref (snd (alloc h f)) l = deref h l.
Proof. intros H. unfold deref, alloc. simpl. now apply app_nth1. Qed.

Lemma deref_alloc_new (h : heap) f :
  deref (snd (alloc h f)) (fst (alloc h f)) = f.
Proof. unfold deref, alloc. simpl. apply nth_middle. Qed.

Lemma length_alloc (h : heap) f :
  List.length (snd (alloc h f)) = S (List.length h).
Proof. unfold alloc. simpl. rewrite length_app. simpl. lia. Qed.

Lemma length_store (h : heap) l f : List.length (store h l f) = List.length h.
Proof.
  revert l. induction h as [|g h IH]; intros [|l]; simpl; auto.
Qed.

Lemma deref_store_other (h : heap) l l' f :
  l <> l' -> deref (store h l f) l' = deref h l'.
Proof.
  unfold deref. revert l l'.
  induction h as [|g h IH]; intros [|l] [|l'] H; simpl; auto; try easy.
Qed.

Lemma init_keeps h0 loaded : keeps loaded (init h0 loaded).
Proof.
  unfold init, keeps, alloc. simpl. split.
  - unfold deref. now rewrite !nth_middle.
  - rewrite !length_app. simpl. lia.
Qed.

Lemma step_keeps loaded st c : keeps loaded st -> keeps loaded (step st c).
Proof.
  destruct st as [self h]. intros (Ho & Hlo & Hld & Hne).
  destruct c as [day from_time to_time building|f]; simpl.
  - unfold deref. rewrite length_app. simpl.
    rewrite app_nth1 by exact Hlo.
    repeat split; auto; lia.
  - rewrite length_store. repeat split; auto.
    now rewrite deref_store_other.
Qed.

Lemma run_keeps loaded cs : forall st,
  keeps loaded st -> keeps loaded (run cs st).
Proof.
  induction cs as [|c cs IH]; intros st H; simpl; [exact H|].
  apply IH. now apply step_keeps.
Qed.

(** What [filter_classrooms] keeps: the rows of the frame held that are
    of the query day, free from [from_time] at the latest and to
    [to_time] at the earliest, and of the building when one is given. *)
Lemma filter_classrooms_narrows day from_time to_time building self h :
  let '(selected, self', h') :=
    filter_classrooms day from_time to_time building self h in
  df self' = selected
  /\ _original self' = _original self
  /\ forall lr, In lr (deref h' selected) <->
       In lr (deref h (df self))
       /\ Day (snd lr) = day
       /\ (Free_From (snd lr) <= from_time)%Z
       /\ (to_time <= Free_To (snd lr))%Z
       /\ match building with
          | Some ((_ :: _) as b) => Building (snd lr) = b
          | _ => True
          end.
Proof.
  simpl. split; [reflexivity|]. split; [reflexivity|].
  intros lr. unfold deref at 1. rewrite nth_middle, filter_In.
  unfold condition.
  destruct building as [[|c b]|];
    rewrite ?andb_true_iff, ?str_eqb_eq, ?Z.leb_le; tauto.
Qed.

(** C10.  After the schedule is built from the loaded table, whatever
    sequence of [filter_classrooms] calls follows (and whatever the holder
    does in place to the frames it was handed), [restore_classrooms]
    returns a frame equal to the loaded table, [self.df] is that frame,
    and a [filter_classrooms] that comes next selects from the loaded
    table. *)
Theorem restore_classrooms_gives_back_loaded :
  forall (h0 : heap) (loaded : frame) (calls : list call),
    let st := run calls (init h0 loaded) in
    let '(restored, self, h) := restore_classrooms (fst st) (snd st) in
    deref h restored = loaded
    /\ df self = restored
    /\ keeps loaded (self, h)
    /\ forall day from_time to_time building,
         let '(selected, self', h') :=
           filter_classrooms day from_time to_time building self h in
         deref h' selected
         = filter (fun lr =>
                     condition day from_time to_time building (snd lr))
                  loaded
         /\ df self' = selected.
Proof.
  intros h0 loaded calls st.
  pose proof (@run_keeps loaded calls _ (init_keeps h0 loaded)) as H.
  fold st in H. destruct st as [self h]. simpl.
  destruct H as (Ho & Hlo & Hld & Hne).
  assert (Hr : deref (h ++ [deref h (_original self)]) (List.length h)
               = loaded).
  { unfold deref at 1. rewrite nth_middle. exact Ho. }
  split; [exact Hr|]. split; [reflexivity|]. split.
  - simpl. unfold deref at 1. rewrite length_app. simpl.
    rewrite app_nth1 by exact Hlo.
    repeat split; auto; lia.
  - intros day from_time to_time building. simpl.
    rewrite Hr. split; [|reflexivity].
    unfold deref. apply nth_middle.
Qed.

End ClassroomFacts.

(* ================================================================== *)
(** ** More on the gap computation *)
(* ================================================================== *)

Section GapsMore.
Import More.

Lemma sweep_reports l : forall cur x y,
  cur <= x -> y <= operating_end -> min_free_duration <= y - x ->
  (forall b, In b l -> ~ overlaps (x, y) b) ->
  exists f, In f (sweep cur l) /\ fst f <= x /\ y <= snd f.
Proof.
  unfold min_free_duration.
  induction l as [|[s e] l IH]; intros cur x y Hc Hy Hd Hfree; simpl.
  - exists (cur, operating_end).
    destruct (Z.ltb_spec cur operating_end); [|lia].
    unfold candidate, min_free_duration.
    destruct (Z.leb_spec 30 (operating_end - cur)); [|lia].
    simpl. auto.
  - destruct (Z.le_gt_cases y s) as [Hys|Hys].
    + exists (cur, s). split; [|simpl; lia].
      apply in_or_app. left.
      destruct (Z.ltb_spec cur s); [|lia].
      unfold candidate, min_free_duration.
      destruct (Z.leb_spec 30 (s - cur)); [|lia]. now left.
    + assert (He : e <= x).
      { destruct (Z.le_gt_cases e x); [assumption|].
        exfalso. apply (Hfree (s, e)); [now left|].
        unfold overlaps. simpl. lia. }
      assert (Hfree' : forall b, In b l -> ~ overlaps (x, y) b)
        by (intros b Hb; apply Hfree; now right).
      destruct (IH (Z.max cur e) x y ltac:(lia) Hy Hd Hfree')
        as (f & Hf & H1 & H2).
      exists f. split; [|auto]. apply in_or_app. now right.
Qed.

(** X1.  No usable time is lost: a span of at least thirty minutes inside
    the operating window that no booked interval overlaps lies inside one
    of the free intervals that are emitted. *)
Theorem free_span_is_reported :
  forall (booked : list interval) (x y : Z),
    operating_start <= x -> y <= operating_end ->
    min_free_duration <= y - x ->
    (forall b, In b booked -> ~ overlaps (x, y) b) ->
    exists free, In free (free_times booked)
                 /\ fst free <= x /\ y <= snd free.
Proof.
  intros booked x y Hx Hy Hd Hfree. rewrite free_times_unfold.
  destruct (sort_by_start booked) as [|b0 l] eqn:E.
  - exists (operating_start, operating_end). simpl. auto.
  - rewrite <- E. apply sweep_reports; auto.
    intros b Hb. apply Hfree.
    eapply Permutation_in; [symmetry; apply sort_by_start_perm | exact Hb].
Qed.

Lemma free_span_is_reported_witness :
  exists free, In free (free_times [(600, 660); (630, 720)])
               /\ fst free <= 800 /\ 900 <= snd free.
Proof.
  apply (@free_span_is_reported [(600, 660); (630, 720)] 800 900).
  - vm_compute. discriminate.
  - vm_compute. discriminate.
  - vm_compute. discriminate.
  - intros b [<-|[<-|[]]]; unfold overlaps; simpl; lia.
Defined.

Lemma sweep_chronological l : forall cur,
  Forall proper l ->
  StronglySorted before (sweep cur l)
  /\ Forall (fun f => fst f < snd f) (sweep cur l).
Proof.
  induction l as [|[s e] l IH]; intros cur Hp; simpl.
  - destruct (cur <? operating_end); [|split; constructor].
    unfold candidate, min_free_duration.
    destruct (Z.leb_spec 30 (operating_end - cur)).
    + split; repeat constructor. simpl. lia.
    + split; constructor.
  - inversion Hp as [|? ? Hse Hp']; subst. unfold proper in Hse. simpl in Hse.
    destruct (IH (Z.max cur e) Hp') as [IH1 IH2].
    destruct (cur <? s); [|now split].
    unfold candidate, min_free_duration.
    destruct (Z.leb_spec 30 (s - cur)); [|now split].
    simpl. split.
    + constructor; [exact IH1|].
      rewrite Forall_forall. intros g Hg.
      apply sweep_after_cursor in Hg. unfold before. simpl. lia.
    + constructor; [simpl; lia | exact IH2].
Qed.

(** X2.  When no booked interval ends before it starts, the free intervals
    of a day come out in chronological order and apart from each other:
    each one is non-empty and is over before any later one begins. *)
Theorem free_times_chronological :
  forall booked : list interval,
    Forall proper booked ->
    StronglySorted before (free_times booked)
    /\ Forall (fun f => fst f < snd f) (free_times booked).
Proof.
  intros booked Hp. rewrite free_times_unfold.
  destruct (sort_by_start booked) as [|b0 l] eqn:E.
  - split; repeat constructor.
  - rewrite <- E. apply sweep_chronological.
    rewrite Forall_forall in *. intros b Hb. apply Hp.
    eapply Permutation_in; [symmetry; apply sort_by_start_perm | exact Hb].
Qed.

Lemma free_times_chronological_witness :
  StronglySorted before (free_times [(720, 780); (600, 660)]).
Proof.
  apply (@free_times_chronological [(720, 780); (600, 660)]).
  repeat constructor; unfold proper; simpl; lia.
Defined.

Lemma sweep_endpoints l : forall cur f,
  In f (sweep cur l) ->
  (fst f = cur \/ exists b, In b l /\ snd b = fst f)
  /\ (snd f = operating_end \/ exists b, In b l /\ fst b = snd f).
Proof.
  induction l as [|[s e] l IH]; intros cur f Hf; simpl in Hf.
  - destruct (cur <? operating_end); [|easy].
    apply candidate_In in Hf as [-> _]. simpl. auto.
  - apply in_app_or in Hf as [Hf|Hf].
    + destruct (cur <? s); [|easy].
      apply candidate_In in Hf as [-> _]. simpl. split; [auto|].
      right. exists (s, e). simpl. auto.
    + apply IH in Hf as [H1 H2]. split.
      * destruct H1 as [H1|(b & Hb & H1)].
        -- destruct (Z.max_spec cur e) as [[_ Hm]|[_ Hm]].
           ++ right. exists (s, e). simpl. split; [auto | lia].
           ++ left. lia.
        -- right. exists b. simpl. auto.
      * destruct H2 as [H2|(b & Hb & H2)]; [auto|].
        right. exists b. simpl. auto.
Qed.

(** X3.  Every free interval begins when the operating window opens or
    when a booked interval ends, and is over when the window closes or
    when a booked interval starts. *)
Theorem free_times_endpoints :
  forall (booked : list interval) (free : interval),
    In free (free_times booked) ->
    (fst free = operating_start
     \/ exists b, In b booked /\ snd b = fst free)
    /\ (snd free = operating_end
        \/ exists b, In b booked /\ fst b = snd free).
Proof.
  intros booked free Hf.
  apply free_times_cases in Hf as [[_ ->]|Hf]; [simpl; auto|].
  apply sweep_endpoints in Hf as [H1 H2].
  assert (Hin : forall b, In b (sort_by_start booked) -> In b booked).
  { intros b. apply Permutation_in. symmetry. apply sort_by_start_perm. }
  split.
  - destruct H1 as [H1|(b & Hb & H1)]; [auto|]. right. exists b. auto.
  - destruct H2 as [H2|(b & Hb & H2)]; [auto|]. right. exists b. auto.
Qed.

Lemma free_times_endpoints_witness :
  (fst (660, 720) = operating_start
   \/ exists b, In b [(720, 780); (600, 660)] /\ snd b = fst (660, 720))
  /\ (snd (660, 720) = operating_end
      \/ exists b, In b [(720, 780); (600, 660)] /\ fst b = snd (660, 720)).
Proof.
  apply (@free_times_endpoints [(720, 780); (600, 660)] (660, 720)).
  vm_compute. auto.
Defined.

End GapsMore.

(* ================================================================== *)
(** ** More on the export *)
(* ================================================================== *)

Section ExportMore.

Lemma sorted_rows_unique l : forall l',
  StronglySorted row_le l -> StronglySorted row_le l' ->
  Permutation l l' -> l = l'.
Proof.
  induction l as [|x l IH]; intros l' Hs Hs' Hp.
  - apply Permutation_nil in Hp. now subst.
  - destruct l' as [|y l'];
      [symmetry in Hp; now apply Permutation_nil in Hp|].
    apply StronglySorted_inv in Hs as [Hs Hx].
    apply StronglySorted_inv in Hs' as [Hs' Hy].
    rewrite Forall_forall in Hx, Hy.
    assert (Hxy : row_le x y).
    { assert (H : In y (x :: l))
        by (eapply Permutation_in; [symmetry; exact Hp | now left]).
      destruct H as [->|H]; [now left | auto]. }
    assert (Hyx : row_le y x).
    { assert (H : In x (y :: l'))
        by (eapply Permutation_in; [exact Hp | now left]).
      destruct H as [->|H]; [now left | auto]. }
    assert (x = y) by now apply row_le_antisym. subst y.
    f_equal. apply IH; auto. now apply Permutation_cons_inv in Hp.
Qed.

(** X4.  The exported table is canonical: it depends on which rows the
    result holds and not on the order the index was filled in, and
    sorting it again changes nothing. *)
Theorem sort_values_canonical :
  forall l l' : list EmptyRoom,
    Permutation l l' ->
    sort_values l = sort_values l'
    /\ sort_values (sort_values l) = sort_values l.
Proof.
  intros l l' Hp. split.
  - apply sorted_rows_unique; auto using sort_values_sorted.
    now rewrite <- !sort_values_perm.
  - apply sorted_rows_unique; auto using sort_values_sorted.
    now rewrite <- !sort_values_perm.
Qed.

Lemma sort_values_canonical_witness :
  sort_values [full_window_row (lit "B동") (lit "201") (lit "월");
               full_window_row (lit "A동") (lit "101") (lit "월")]
  = sort_values [full_window_row (lit "A동") (lit "101") (lit "월");
                 full_window_row (lit "B동") (lit "201") (lit "월")].
Proof.
  apply (@sort_values_canonical
           [full_window_row (lit "B동") (lit "201") (lit "월");
            full_window_row (lit "A동") (lit "101") (lit "월")]
           [full_window_row (lit "A동") (lit "101") (lit "월");
            full_window_row (lit "B동") (lit "201") (lit "월")]).
  apply perm_swap.
Defined.

End ExportMore.

(* ================================================================== *)
(** ** More on the parser and the expansion *)
(* ================================================================== *)

Section DescriptionsMore.
Import More.
Variable U : unicode_db.

(** X5.  Expanding a table is expanding its parts in order: the records
    of the first part come before those of the second, and the first row
    that raises decides the outcome of the whole call, so that no record
    is returned at all. *)
Theorem expand_lecture_times_app :
  forall rows rows' : list RawScheduleRow,
    expand_lecture_times U (rows ++ rows')
    = (table <- expand_lecture_times U rows ;;
       table' <- expand_lecture_times U rows' ;;
       Ok (table ++ table')).
Proof.
  intros rows rows'. induction rows as [|row rows IH]; simpl.
  - now destruct (expand_lecture_times U rows').
  - destruct (expand_row U row) as [rs|e]; simpl; [|reflexivity].
    rewrite IH.
    destruct (expand_lecture_times U rows) as [t|e]; simpl; [|reflexivity].
    destruct (expand_lecture_times U rows') as [t'|e]; simpl; [|reflexivity].
    now rewrite app_assoc.
Qed.

Lemma mapM_map {A B} (f : A -> result B) (g : A -> B) l :
  (forall x, In x l -> f x = Ok (g x)) -> mapM f l = Ok (map g l).
Proof.
  induction l as [|x l IH]; simpl; intros H; [reflexivity|].
  rewrite (H x) by now left. simpl. rewrite IH by auto. reflexivity.
Qed.

Lemma mapM_map_map {A B C} (f : B -> result C) (h : A -> B) (g : A -> C) l :
  (forall x, In x l -> f (h x) = Ok (g x)) ->
  mapM f (map h l) = Ok (map g l).
Proof.
  induction l as [|x l IH]; simpl; intros H; [reflexivity|].
  rewrite (H x) by now left. simpl. rewrite IH by auto. reflexivity.
Qed.

(** The token of a time match after the two room keys are set. *)
Lemma attach_rooms_few room_list t :
  (List.length room_list <= 2)%nat ->
  attach_rooms room_list t
  = Ok (dict_set String.eqb
          (dict_set String.eqb t "room_a" (room_entry room_list 0))
          "room_b" (room_entry room_list 1)).
Proof.
  intros H. unfold attach_rooms.
  now rewrite (proj2 (Nat.ltb_ge _ _) H).
Qed.

Lemma expand_row_with_rooms row m :
  search U room_pattern (lecture_time row) = Some m ->
  existsb (fun keyword => contains keyword (group (m_groups m) "room"))
    keywords = false ->
  (List.length (split (ch ",") (group (m_groups m) "room")) <= 2)%nat ->
  expand_row U row
  = Ok (map (record_of row (split (ch ",") (group (m_groups m) "room")))
            (finditer U time_pattern (lecture_time row))).
Proof.
  intros Hs He Hn. unfold expand_row, parse_lecture_time.
  rewrite Hs, He.
  set (room_list := split (ch ",") (group (m_groups m) "room")) in *.
  set (attached := fun t : token =>
         dict_set String.eqb
           (dict_set String.eqb t "room_a" (room_entry room_list 0))
           "room_b" (room_entry room_list 1)).
  rewrite (@mapM_map token token (attach_rooms room_list) attached)
    by (intros; now apply attach_rooms_few).
  cbn [bind]. rewrite map_map.
  apply mapM_map_map. intros tm _. reflexivity.
Qed.

Lemma split_not_nil sep s : split sep s <> [].
Proof.
  induction s as [|c s IH]; simpl; [discriminate|].
  destruct (c =? sep)%N; [discriminate|].
  now destruct (split sep s).
Qed.

(** X6.  For a description whose room list names one or two rooms (and
    no excluded category), the expansion gives one record per time
    segment, in the order of the segments; every record carries the row
    it comes from and the same two room columns, of which [RoomA] is
    always a string. *)
Theorem expand_row_with_room_list :
  forall (row : RawScheduleRow) (m : rmatch_obj),
    search U room_pattern (lecture_time row) = Some m ->
    existsb (fun keyword => contains keyword (group (m_groups m) "room"))
      keywords = false ->
    (List.length (split (ch ",") (group (m_groups m) "room")) <= 2)%nat ->
    exists room_a,
      room_entry (split (ch ",") (group (m_groups m) "room")) 0 = PStr room_a
      /\ expand_row U row
         = Ok (map (record_of row (split (ch ",") (group (m_groups m) "room")))
                   (finditer U time_pattern (lecture_time row))).
Proof.
  intros row m Hs He Hn.
  pose proof (@split_not_nil (ch ",") (group (m_groups m) "room")) as Hne.
  destruct (split (ch ",") (group (m_groups m) "room")) as [|r rl] eqn:E;
    [easy|].
  exists (strip r). split; [reflexivity|].
  rewrite <- E. apply expand_row_with_rooms; auto. now rewrite E.
Qed.

(** X7.  The expansion of a row raises in two cases only, both with at
    least one time segment in the description: [ValueError] when the room
    list has three or more entries and names no excluded category, and
    [KeyError] for the key [room_a] when there is no room list. *)
Theorem expand_row_raises_iff :
  forall (row : RawScheduleRow) (e : exn),
    expand_row U row = Raise e <->
    finditer U time_pattern (lecture_time row) <> []
    /\ ((e = ValueError "room is more than 2"
         /\ exists m,
              search U room_pattern (lecture_time row) = Some m
              /\ existsb (fun keyword =>
                            contains keyword (group (m_groups m) "room"))
                   keywords = false
              /\ (2 < List.length
                        (split (ch ",") (group (m_groups m) "room")))%nat)
        \/ (e = KeyError "room_a"
            /\ search U room_pattern (lecture_time row) = None)).
Proof.
  intros row e.
  destruct (search U room_pattern (lecture_time row)) as [m|] eqn:Hs.
  - destruct (existsb (fun keyword =>
                contains keyword (group (m_groups m) "room")) keywords)
      eqn:He.
    + assert (E : expand_row U row = Ok []).
      { unfold expand_row, parse_lecture_time. now rewrite Hs, He. }
      rewrite E. split; [discriminate|].
      intros [_ [(_ & m' & [= <-] & He' & _)|[_ H]]]; congruence.
    + destruct (Nat.ltb_spec 2
                  (List.length (split (ch ",") (group (m_groups m) "room"))))
        as [Hn|Hn].
      * destruct (finditer U time_pattern (lecture_time row)) as [|tm tms]
          eqn:Hf.
        -- assert (E : expand_row U row = Ok []).
           { unfold expand_row.
             now rewrite (parse_without_time_segment U _ Hf). }
           rewrite E. split; [discriminate | now intros [H _]].
        -- assert (Hf' : finditer U time_pattern (lecture_time row) <> [])
             by now rewrite Hf.
           destruct (three_rooms_raise_when_timed U row [] Hf' Hs He Hn)
             as [Hp _].
           assert (E : expand_row U row
                       = Raise (ValueError "room is more than 2")).
           { unfold expand_row. now rewrite Hp. }
           rewrite E. split.
           ++ intros [= <-]. split; [discriminate|]. left. eauto.
           ++ intros [_ [(-> & _)|(_ & H)]]; [reflexivity | discriminate].
      * rewrite (expand_row_with_rooms row Hs He) by lia.
        split; [discriminate|].
        intros [_ [(_ & m' & [= <-] & _ & Hn')|[_ H]]];
          [lia | discriminate].
  - destruct (finditer U time_pattern (lecture_time row)) as [|tm tms] eqn:Hf.
    + assert (E : expand_row U row = Ok []).
      { unfold expand_row.
        now rewrite (parse_without_time_segment U _ Hf). }
      rewrite E. split; [discriminate | now intros [H _]].
    + assert (E : expand_row U row = Raise (KeyError "room_a")).
      { unfold expand_row.
        rewrite (parse_without_room_list U _ Hs), Hf. reflexivity. }
      rewrite E. split.
      * intros [= <-]. split; [discriminate|]. now right.
      * intros [_ [(_ & m & H & _)|(-> & _)]];
          [discriminate | reflexivity].
Qed.

End DescriptionsMore.

Lemma expand_row_with_room_list_witness :
  exists room_a,
    room_entry [lit "A동101"] 0 = PStr room_a
    /\ expand_row ucd_timetable (Sample.raw "월[1~2] 09:00~10:15 (A동101)")
       = Ok Sample.monday_lecture.
Proof.
  destruct (search ucd_timetable room_pattern
              (lecture_time (Sample.raw "월[1~2] 09:00~10:15 (A동101)")))
    as [m|] eqn:Hs; [|vm_compute in Hs; discriminate Hs].
  assert (Hg : group (m_groups m) "room" = lit "A동101").
  { vm_compute in Hs. injection Hs as <-. reflexivity. }
  destruct (@expand_row_with_room_list ucd_timetable
              (Sample.raw "월[1~2] 09:00~10:15 (A동101)") m Hs)
    as (room_a & Ha & He).
  - rewrite Hg. vm_compute. reflexivity.
  - rewrite Hg. vm_compute. lia.
  - exists room_a. rewrite Hg in Ha, He. split; [exact Ha|].
    rewrite He. vm_compute. reflexivity.
Defined.

Lemma expand_row_raises_iff_witness :
  finditer ucd_timetable time_pattern (lecture_time Sample.roomless) <> []
  /\ search ucd_timetable room_pattern (lecture_time Sample.roomless) = None.
Proof.
  destruct (proj1 (@expand_row_raises_iff ucd_timetable Sample.roomless
                     (KeyError "room_a")))
    as [Hf [(H & _)|(_ & Hs)]].
  - vm_compute. reflexivity.
  - discriminate H.
  - split; assumption.
Defined.

(* ================================================================== *)
(** ** More on the index *)
(* ================================================================== *)

Section IndexMore.
Import More.
Variable U : unicode_db.

Lemma booked_at_same rs b n d f :
  booked_at (at_day rs b n d f) b n d = f (booked_at rs b n d).
Proof.
  unfold booked_at, at_day.
  rewrite (dict_get_upd_same str_eqb str_eqb_eq). cbn beta iota.
  rewrite (dict_get_upd_same str_eqb str_eqb_eq). cbn beta iota.
  rewrite (dict_get_upd_same value_eqb value_eqb_eq). simpl.
  destruct (dict_get str_eqb rs b) as [rooms|]; simpl; [|reflexivity].
  destruct (dict_get str_eqb rooms n) as [sched|]; simpl; reflexivity.
Qed.

Lemma booked_at_other rs b n d f b' n' d' :
  (b', n', d') <> (b, n, d) ->
  booked_at (at_day rs b n d f) b' n' d' = booked_at rs b' n' d'.
Proof.
  intros Hne. unfold booked_at, at_day.
  destruct (list_eq_dec N.eq_dec b b') as [<-|Hb].
  2:{ now rewrite (dict_get_upd_other str_eqb str_eqb_eq) by exact Hb. }
  rewrite (dict_get_upd_same str_eqb str_eqb_eq). cbn beta iota.
  destruct (list_eq_dec N.eq_dec n n') as [<-|Hn].
  2:{ rewrite (dict_get_upd_other str_eqb str_eqb_eq) by exact Hn.
      now destruct (dict_get str_eqb rs b). }
  rewrite (dict_get_upd_same str_eqb str_eqb_eq). cbn beta iota.
  assert (Hd : d <> d') by (intros <-; now apply Hne).
  rewrite (dict_get_upd_other value_eqb value_eqb_eq) by exact Hd.
  destruct (dict_get str_eqb rs b) as [rooms|]; simpl; [|reflexivity].
  now destruct (dict_get str_eqb rooms n).
Qed.

(** Creating the three levels of a room and day leaves every list as it
    is. *)
Lemma booked_at_touch rs b n d b' n' d' :
  booked_at (at_day rs b n d (fun l => l)) b' n' d' = booked_at rs b' n' d'.
Proof.
  destruct (list_eq_dec N.eq_dec b' b) as [->|Hb];
    [|apply booked_at_other; congruence].
  destruct (list_eq_dec N.eq_dec n' n) as [->|Hn];
    [|apply booked_at_other; congruence].
  destruct (value_eqb d' d) eqn:E.
  - apply value_eqb_eq in E. subst d'. apply booked_at_same.
  - apply booked_at_other. intros [= ->].
    now rewrite (proj2 (value_eqb_eq d d) eq_refl) in E.
Qed.

Lemma at_day_indexed rs b n d f : indexed (at_day rs b n d f) b n.
Proof.
  unfold indexed, room_present, at_day.
  eexists. eexists. split.
  - apply (dict_get_upd_same str_eqb str_eqb_eq).
  - cbn beta. apply (dict_get_upd_same str_eqb str_eqb_eq).
Qed.

Lemma room_present_booked rs b n schedule day :
  room_present rs b n schedule ->
  booked_on schedule day = booked_at rs b n (PStr day).
Proof.
  intros (rooms & Hb & Hn). unfold booked_at, booked_on. now rewrite Hb, Hn.
Qed.

(** X8.  A row whose room and times are read puts its interval at the end
    of the list of that room and day, and changes no other list of the
    index. *)
Theorem add_room_books :
  forall (row : ExpandedRecord) (rs : building_map) (single_room : str)
         (building room_number : str) (start_dt end_dt : Z),
    resolve_room (strip single_room) = Some (building, room_number) ->
    strptime U (col_Free_From row) = Ok start_dt ->
    strptime U (col_Free_To row) = Ok end_dt ->
    exists rs',
      add_room U row rs single_room = Ok rs'
      /\ booked_at rs' building room_number (col_Day row)
         = booked_at rs building room_number (col_Day row)
           ++ [(start_dt, end_dt)]
      /\ forall b n day,
           (b, n, day) <> (building, room_number, col_Day row) ->
           booked_at rs' b n day = booked_at rs b n day.
Proof.
  intros row rs s b n t1 t2 Hr H1 H2.
  unfold add_room. rewrite Hr, H1, H2.
  eexists. split; [reflexivity|]. split.
  - now rewrite booked_at_same, booked_at_touch.
  - intros b' n' d' Hne. now rewrite booked_at_other, booked_at_touch.
Qed.

(** X9.  A row whose room is read but one of whose times is not a time of
    day books nothing, yet its room enters the index: when the room has
    no booking on a day of the week, the result lists it as free for the
    whole operating window of that day. *)
Theorem unreadable_time_still_registers :
  forall (row : ExpandedRecord) (rs : building_map) (single_room : str)
         (building room_number : str),
    index_ok rs ->
    resolve_room (strip single_room) = Some (building, room_number) ->
    (exists msg, strptime U (col_Free_From row) = Raise (ValueError msg))
    \/ (exists start_dt msg,
          strptime U (col_Free_From row) = Ok start_dt
          /\ strptime U (col_Free_To row) = Raise (ValueError msg)) ->
    exists rs',
      add_room U row rs single_room = Ok rs'
      /\ indexed rs' building room_number
      /\ (forall b n day, booked_at rs' b n day = booked_at rs b n day)
      /\ forall day,
           In day days ->
           booked_at rs building room_number (PStr day) = [] ->
           rows_for building room_number day (empty_rooms rs')
           = [full_window_row building room_number day].
Proof.
  intros row rs s b n Hok Hr Hbad.
  exists (at_day rs b n (col_Day row) (fun l => l)).
  split.
  - unfold add_room. rewrite Hr.
    destruct Hbad as [[msg ->]|(t1 & msg & -> & ->)]; reflexivity.
  - split; [apply at_day_indexed|].
    split; [intros; apply booked_at_touch|].
    intros day Hday Hnone.
    destruct (at_day_indexed rs b n (col_Day row) (fun l => l))
      as [schedule Hp].
    apply rows_for_no_booking with (schedule := schedule); auto.
    + now apply at_day_ok.
    + rewrite (room_present_booked day Hp). now rewrite booked_at_touch.
Qed.

Lemma appends_returns F rs rs' :
  appends F -> F rs = Ok rs' ->
  exists added, forall rs0, exists rs0',
    F rs0 = Ok rs0'
    /\ forall b n day,
         booked_at rs0' b n day = booked_at rs0 b n day ++ added b n day.
Proof.
  intros [[e He]|[added H]] E; [rewrite He in E; discriminate | eauto].
Qed.

Lemma appends_add_room row single_room :
  appends (fun rs => add_room U row rs single_room).
Proof.
  unfold appends, add_room.
  destruct (resolve_room (strip single_room)) as [[b n]|].
  2:{ right. exists (fun _ _ _ => []). intros rs. exists rs.
      split; [reflexivity|]. intros. now rewrite app_nil_r. }
  assert (Htouch : exists added : str -> str -> value -> list interval,
            forall rs, exists rs',
              Ok (at_day rs b n (col_Day row) (fun l => l)) = Ok rs'
              /\ forall b' n' day,
                   booked_at rs' b' n' day
                   = booked_at rs b' n' day ++ added b' n' day).
  { exists (fun _ _ _ => []). intros rs. eexists. split; [reflexivity|].
    intros. now rewrite booked_at_touch, app_nil_r. }
  destruct (strptime U (col_Free_From row)) as [t1|[k|msg|msg]];
    [| left; eauto | right; exact Htouch | left; eauto].
  destruct (strptime U (col_Free_To row)) as [t2|[k|msg|msg]];
    [| left; eauto | right; exact Htouch | left; eauto].
  right.
  exists (fun b' n' d' =>
            if str_eqb b' b && str_eqb n' n && value_eqb d' (col_Day row)
            then [(t1, t2)] else []).
  intros rs. eexists. split; [reflexivity|].
  intros b' n' d'.
  destruct (str_eqb b' b && str_eqb n' n && value_eqb d' (col_Day row))
    eqn:E.
  - rewrite !andb_true_iff, !str_eqb_eq, value_eqb_eq in E.
    destruct E as [[-> ->] ->]. now rewrite booked_at_same, booked_at_touch.
  - rewrite app_nil_r, booked_at_other, booked_at_touch; [reflexivity|].
    intros [= -> -> ->].
    now rewrite !str_eqb_refl, (proj2 (value_eqb_eq _ _) eq_refl) in E.
Qed.

Lemma appends_foldM {A} (f : building_map -> A -> result building_map) l :
  (forall x, In x l -> appends (fun rs => f rs x)) ->
  appends (fun rs => foldM f l rs).
Proof.
  induction l as [|x l IH]; intros H.
  - right. exists (fun _ _ _ => []). intros rs. exists rs.
    split; [reflexivity|]. intros. now rewrite app_nil_r.
  - destruct (H x (or_introl eq_refl)) as [[e He]|[d1 H1]].
    + left. exists e. intros rs. simpl. now rewrite He.
    + destruct (IH (fun y Hy => H y (or_intror Hy))) as [[e He]|[d2 H2]].
      * left. exists e. intros rs. simpl.
        destruct (H1 rs) as (rs1 & -> & _). simpl. apply He.
      * right. exists (fun b n day => d1 b n day ++ d2 b n day).
        intros rs. simpl.
        destruct (H1 rs) as (rs1 & -> & E1). simpl.
        destruct (H2 rs1) as (rs2 & -> & E2).
        exists rs2. split; [reflexivity|].
        intros. now rewrite E2, E1, app_assoc.
Qed.

Lemma appends_add_row row : appends (fun rs => add_row U rs row).
Proof.
  unfold add_row. apply appends_foldM. intros room _.
  unfold add_column. destruct room as [|room].
  - right. exists (fun _ _ _ => []). intros rs. exists rs.
    split; [reflexivity|]. intros. now rewrite app_nil_r.
  - apply appends_foldM. intros s _. apply appends_add_room.
Qed.

(** X10.  The index only grows: [extract_room_schedule] puts the
    intervals of the table at the end of the lists the index already
    holds, the same intervals in the same order as it puts into an empty
    index; so a second run over the same table holds every booking
    twice. *)
Theorem extraction_is_additive :
  forall self indexed : RoomScheduler,
    extract_room_schedule U self = Ok indexed ->
    exists fresh,
      extract_room_schedule U (init (df self)) = Ok fresh
      /\ forall b n day,
           booked_at (room_schedule indexed) b n day
           = booked_at (room_schedule self) b n day
             ++ booked_at (room_schedule fresh) b n day.
Proof.
  intros self indexed He. unfold extract_room_schedule in *.
  destruct (foldM (add_row U) (df self) (room_schedule self)) as [rs|e] eqn:E;
    simpl in He; [|discriminate]. injection He as <-.
  destruct (@appends_returns (fun rs => foldM (add_row U) (df self) rs)
              (room_schedule self) rs) as [added H]; [|exact E|].
  { apply appends_foldM. intros; apply appends_add_row. }
  destruct (H (room_schedule self)) as (rs1 & E1 & H1).
  rewrite E in E1. injection E1 as <-.
  destruct (H []) as (rs0 & E0 & H0).
  exists {| df := df self; room_schedule := rs0 |}. simpl.
  rewrite E0. split; [reflexivity|].
  intros b n day. rewrite H1. f_equal.
  now rewrite H0.
Qed.

End IndexMore.

Lemma add_room_books_witness :
  exists rs',
    add_room ucd_timetable Sample.monday_record [] (lit "A동101") = Ok rs'
    /\ More.booked_at rs' (lit "A동") (lit "101") (PStr (lit "월"))
       = [(540, 615)].
Proof.
  destruct (@add_room_books ucd_timetable Sample.monday_record []
              (lit "A동101") (lit "A동") (lit "101") 540 615)
    as (rs' & H1 & H2 & _); try (vm_compute; reflexivity).
  exists rs'. split; [exact H1 | exact H2].
Defined.

Lemma unreadable_time_still_registers_witness :
  exists rs',
    add_room ucd_timetable Sample.unreadable [] (lit "A동101") = Ok rs'
    /\ rows_for (lit "A동") (lit "101") (lit "월") (empty_rooms rs')
       = [full_window_row (lit "A동") (lit "101") (lit "월")].
Proof.
  destruct (@unreadable_time_still_registers ucd_timetable Sample.unreadable
              [] (lit "A동101") (lit "A동") (lit "101"))
    as (rs' & H1 & _ & _ & H2).
  - split; constructor.
  - vm_compute. reflexivity.
  - left. eexists. vm_compute. reflexivity.
  - exists rs'. split; [exact H1|]. apply H2.
    + vm_compute. auto.
    + reflexivity.
Defined.

Lemma extraction_is_additive_witness :
  exists fresh,
    extract_room_schedule ucd_timetable (init Sample.monday_lecture)
    = Ok fresh
    /\ More.booked_at Sample.monday_index_twice (lit "A동") (lit "101")
         (PStr (lit "월"))
       = More.booked_at Sample.monday_index (lit "A동") (lit "101")
                 (PStr (lit "월"))
         ++ More.booked_at (room_schedule fresh) (lit "A동") (lit "101")
                 (PStr (lit "월")).
Proof.
  destruct (@extraction_is_additive ucd_timetable
              {| df := Sample.monday_lecture;
                 room_schedule := Sample.monday_index |}
              {| df := Sample.monday_lecture;
                 room_schedule := Sample.monday_index_twice |})
    as (fresh & H1 & H2).
  - vm_compute. reflexivity.
  - exists fresh. split; [exact H1|].
    exact (H2 (lit "A동") (lit "101") (PStr (lit "월"))).
Defined.

Section Trimming.
Import More.

Lemma lstrip_suffix s : exists sp, s = sp ++ lstrip s.
Proof.
  induction s as [|c s [sp IH]]; simpl; [now exists []|].
  destruct (isspace c); [|now exists []].
  exists (c :: sp). simpl. now f_equal.
Qed.

Lemma lstrip_head s c t : lstrip s = c :: t -> isspace c = false.
Proof.
  induction s as [|x s IH]; simpl; [discriminate|].
  destruct (isspace x) eqn:E; [exact IH|]. now intros [= <- _].
Qed.

Lemma lstrip_idem s : lstrip (lstrip s) = lstrip s.
Proof.
  destruct (lstrip s) as [|c t] eqn:E; [reflexivity|].
  simpl. now rewrite (lstrip_head _ E).
Qed.

(** [strip] leaves nothing to strip. *)
Lemma strip_trimmed s : trimmed (strip s).
Proof.
  unfold trimmed, strip, rstrip.
  set (t := lstrip s). set (r := lstrip (rev t)).
  assert (A : lstrip (rev r) = rev r).
  { destruct (lstrip_suffix (rev t)) as [sp Hsp]. fold r in Hsp.
    apply (f_equal (@rev _)) in Hsp.
    rewrite rev_involutive, rev_app_distr in Hsp.
    destruct (rev r) as [|c u] eqn:Er; [reflexivity|].
    simpl in Hsp. unfold t in Hsp.
    simpl. now rewrite (lstrip_head _ Hsp). }
  rewrite A, rev_involutive. unfold r. now rewrite lstrip_idem.
Qed.

End Trimming.

Section IndexKeys.
Import More.
Variable U : unicode_db.

Lemma resolve_room_known single_room b n :
  resolve_room single_room = Some (b, n) -> In b buildings /\ trimmed n.
Proof.
  unfold resolve_room, find_building.
  destruct (find (fun b => startswith single_room b) buildings) as [b0|]
    eqn:E; [|discriminate].
  apply find_some in E as [Hb _].
  destruct b0 as [|c b0]; [discriminate|].
  intros [= <- <-]. split; [exact Hb | apply strip_trimmed].
Qed.

Lemma at_day_known rs b n d f :
  known_keys rs -> In b buildings -> trimmed n ->
  known_keys (at_day rs b n d f).
Proof.
  intros Hk Hb Hn. unfold known_keys, at_day.
  apply dict_upd_Forall_pair; [apply str_eqb_eq | exact Hk|].
  intros o Ho. simpl. split; [exact Hb|].
  apply dict_upd_Forall_pair
    with (Q := fun nr : str * day_map => trimmed (fst nr));
    [apply str_eqb_eq | |].
  - destruct o as [rooms|]; [apply Ho | constructor].
  - intros o' _. exact Hn.
Qed.

Lemma add_room_known row rs single_room rs' :
  known_keys rs -> add_room U row rs single_room = Ok rs' -> known_keys rs'.
Proof.
  unfold add_room. intros Hk.
  destruct (resolve_room (strip single_room)) as [[b n]|] eqn:Hr;
    [|now intros [= <-]].
  apply resolve_room_known in Hr as [Hb Hn].
  destruct (strptime U (col_Free_From row)) as [t1|[]];
    try discriminate; [|intros [= <-]; now apply at_day_known].
  destruct (strptime U (col_Free_To row)) as [t2|[]];
    try discriminate; intros [= <-]; now repeat apply at_day_known.
Qed.

Lemma add_row_known rs row rs' :
  known_keys rs -> add_row U rs row = Ok rs' -> known_keys rs'.
Proof.
  unfold add_row. apply foldM_inv. clear rs rs'.
  intros rs room rs' Hk. unfold add_column.
  destruct room as [|room]; [now intros [= <-]|].
  revert Hk. apply foldM_inv. intros; eapply add_room_known; eauto.
Qed.

(** X11.  The result names only rooms of the known buildings, with room
    numbers free of white space at either end, on the six days of the
    week of the scheduler: a lecture on any other day never shows. *)
Theorem result_names_known_rooms :
  forall (table : list ExpandedRecord) (indexed : RoomScheduler)
         (r : EmptyRoom),
    extract_room_schedule U (init table) = Ok indexed ->
    In r (empty_rooms (room_schedule indexed)) ->
    In (Building r) buildings
    /\ trimmed (Room_Number r)
    /\ In (Day r) days.
Proof.
  intros table indexed r He Hr.
  assert (Hk : known_keys (room_schedule indexed)).
  { unfold extract_room_schedule in He. simpl in He.
    destruct (foldM (add_row U) table []) as [rs|] eqn:E;
      simpl in He; [|discriminate].
    injection He as <-. simpl. revert E.
    apply foldM_inv; [|constructor]. intros; eapply add_row_known; eauto. }
  apply empty_rooms_In in Hr
    as (rooms & schedule & free & Hb & Hn & Hd & _).
  unfold known_keys in Hk. rewrite Forall_forall in Hk.
  destruct (Hk _ Hb) as [H1 H2]. rewrite Forall_forall in H2.
  split; [exact H1|]. split; [exact (H2 _ Hn) | exact Hd].
Qed.

Lemma foldM_fixed {A B} (f : B -> A -> result B) l b :
  (forall x, In x l -> f b x = Ok b) -> foldM f l b = Ok b.
Proof.
  induction l as [|x l IH]; simpl; intros H; [reflexivity|].
  rewrite (H x) by now left. simpl. apply IH. auto.
Qed.

Lemma add_row_nothing rs row :
  names_no_room (col_RoomA row) -> names_no_room (col_RoomB row) ->
  add_row U rs row = Ok rs.
Proof.
  intros Ha Hb. unfold add_row. apply foldM_fixed.
  intros room [<-|[<-|[]]]; unfold add_column.
  - destruct (col_RoomA row) as [|room]; [reflexivity|].
    apply foldM_fixed. intros s Hs. unfold add_room.
    simpl in Ha. rewrite Forall_forall in Ha. now rewrite (Ha s Hs).
  - destruct (col_RoomB row) as [|room]; [reflexivity|].
    apply foldM_fixed. intros s Hs. unfold add_room.
    simpl in Hb. rewrite Forall_forall in Hb. now rewrite (Hb s Hs).
Qed.

(** X12.  When no record of the expanded table names a room of a known
    building (in particular when the table has no record), the run does
    not write an empty table: sorting the column-less result raises
    [KeyError] for the column [Building]. *)
Theorem process_nothing_indexed :
  forall (rows : list RawScheduleRow) (table : list ExpandedRecord),
    expand_lecture_times U rows = Ok table ->
    Forall (fun r => names_no_room (col_RoomA r)
                     /\ names_no_room (col_RoomB r)) table ->
    process U rows = Raise (KeyError "Building").
Proof.
  intros rows table He Hall. unfold process. rewrite He. simpl.
  unfold save_empty_rooms_to_csv, find_empty_rooms, extract_room_schedule.
  simpl. rewrite foldM_fixed; [reflexivity|].
  intros row Hrow. rewrite Forall_forall in Hall.
  destruct (Hall row Hrow). now apply add_row_nothing.
Qed.

Lemma dict_get_sort_days schedule day :
  dict_get value_eqb (sort_days schedule) day
  = option_map (fun booked => if is_weekday day
                              then sort_by_start booked else booked)
               (dict_get value_eqb schedule day).
Proof.
  induction schedule as [|[d booked] schedule IH]; [reflexivity|].
  cbn [sort_days map]. fold (sort_days schedule). fold (is_weekday d).
  destruct (is_weekday d) eqn:W; cbn [dict_get];
    destruct (value_eqb d day) eqn:E; try exact IH;
    apply value_eqb_eq in E; subst d; now rewrite W.
Qed.

Lemma dict_get_map_values {V W} (g : V -> W) (d : dict str V) k :
  dict_get str_eqb (map (fun '(k0, v) => (k0, g v)) d) k
  = option_map g (dict_get str_eqb d k).
Proof.
  induction d as [|[k0 v] d IH]; simpl; [reflexivity|].
  now destruct (str_eqb k0 k).
Qed.

Lemma booked_at_sort_in_place rs b n day :
  booked_at (sort_in_place rs) b n day
  = if is_weekday day then sort_by_start (booked_at rs b n day)
    else booked_at rs b n day.
Proof.
  unfold booked_at, sort_in_place.
  rewrite (dict_get_map_values
             (fun rooms : room_map =>
                map (fun '(room_number, schedule) =>
                       (room_number, sort_days schedule)) rooms)).
  destruct (dict_get str_eqb rs b) as [rooms|]; simpl;
    [|now destruct (is_weekday day)].
  rewrite (dict_get_map_values sort_days).
  destruct (dict_get str_eqb rooms n) as [schedule|]; simpl;
    [|now destruct (is_weekday day)].
  rewrite dict_get_sort_days.
  destruct (dict_get value_eqb schedule day); simpl;
    now destruct (is_weekday day).
Qed.

(** The sort keeps the intervals that start together in the order they
    had. *)
Lemma filter_insert_by_start s x l :
  filter (fun y => fst y =? s) (insert_by_start x l)
  = filter (fun y => fst y =? s) (x :: l).
Proof.
  induction l as [|y l IH]; [reflexivity|].
  cbn [insert_by_start]. destruct (fst x <=? fst y) eqn:E; [reflexivity|].
  apply Z.leb_gt in E. cbn [filter] in *. rewrite IH.
  destruct (fst x =? s) eqn:Ex; [|reflexivity].
  destruct (fst y =? s) eqn:Ey; [|reflexivity].
  apply Z.eqb_eq in Ex, Ey. lia.
Qed.

Lemma filter_sort_by_start s l :
  filter (fun y => fst y =? s) (sort_by_start l)
  = filter (fun y => fst y =? s) l.
Proof.
  induction l as [|x l IH]; [reflexivity|].
  cbn [sort_by_start]. rewrite filter_insert_by_start.
  cbn [filter]. now rewrite IH.
Qed.

(** X13.  [find_empty_rooms] changes the index it reads.  Afterwards
    every list holds the intervals it held.  A list of a day of the week
    is in ascending order of start time, and the intervals that start at
    one and the same time stand in the order they were entered; the list
    of any other day is as it was. *)
Theorem find_empty_rooms_sorts_index :
  forall self indexed : RoomScheduler,
    extract_room_schedule U self = Ok indexed ->
    exists rows after,
      find_empty_rooms U self = Ok (rows, after)
      /\ forall b n day,
           Permutation (booked_at (room_schedule indexed) b n day)
                       (booked_at (room_schedule after) b n day)
           /\ (is_weekday day = true ->
               StronglySorted by_start
                 (booked_at (room_schedule after) b n day)
               /\ forall s,
                    filter (fun x => fst x =? s)
                      (booked_at (room_schedule after) b n day)
                    = filter (fun x => fst x =? s)
                        (booked_at (room_schedule indexed) b n day))
           /\ (is_weekday day = false ->
               booked_at (room_schedule after) b n day
               = booked_at (room_schedule indexed) b n day).
Proof.
  intros self indexed He.
  eexists. eexists. split; [apply find_empty_rooms_unfold; exact He|].
  intros b n day. simpl. rewrite booked_at_sort_in_place.
  destruct (is_weekday day); split; auto using sort_by_start_perm.
  - split; [|discriminate]. intros _.
    split; [apply sort_by_start_sorted|].
    intros s. apply filter_sort_by_start.
  - split; [discriminate | reflexivity].
Qed.

End IndexKeys.

Lemma result_names_known_rooms_witness :
  In (lit "A동") buildings /\ More.trimmed (lit "101") /\ In (lit "화") days.
Proof.
  apply (@result_names_known_rooms ucd_timetable Sample.monday_lecture
           {| df := Sample.monday_lecture;
              room_schedule := Sample.monday_index |}
           (full_window_row (lit "A동") (lit "101") (lit "화"))).
  - vm_compute. reflexivity.
  - vm_compute. auto.
Defined.

Lemma process_nothing_indexed_witness :
  process ucd_timetable Sample.elsewhere = Raise (KeyError "Building").
Proof.
  eapply (@process_nothing_indexed ucd_timetable Sample.elsewhere).
  - vm_compute. reflexivity.
  - repeat constructor; vm_compute; repeat constructor.
Defined.

Lemma find_empty_rooms_sorts_index_witness :
  exists rows after,
    find_empty_rooms ucd_timetable (init Sample.noon_then_morning)
    = Ok (rows, after)
    /\ Permutation [(720, 780); (600, 660)]
         (More.booked_at (room_schedule after) (lit "A동") (lit "101")
            (PStr (lit "월")))
    /\ StronglySorted by_start
         (More.booked_at (room_schedule after) (lit "A동") (lit "101")
            (PStr (lit "월"))).
Proof.
  destruct (@find_empty_rooms_sorts_index ucd_timetable
              (init Sample.noon_then_morning)
              {| df := Sample.noon_then_morning;
                 room_schedule := Sample.noon_then_morning_index |})
    as (rows & after & H1 & H2).
  - vm_compute. reflexivity.
  - exists rows, after. split; [exact H1|].
    destruct (H2 (lit "A동") (lit "101") (PStr (lit "월")))
      as (Hperm & Hsorted & _).
    split; [exact Hperm|]. apply Hsorted. vm_compute. reflexivity.
Defined.

(* ================================================================== *)
(** ** More on the schedule consumer *)
(* ================================================================== *)

Module ClassroomMore.
Import Classroom.

Lemma filter_filter {A} (p q : A -> bool) l :
  filter p (filter q l) = filter (fun x => q x && p x) l.
Proof.
  induction l as [|x l IH]; simpl; [reflexivity|].
  destruct (q x); simpl; [|exact IH].
  destruct (p x); now rewrite IH.
Qed.

Lemma condition_day day from_time to_time building r :
  condition day from_time to_time building r = true -> Day r = day.
Proof.
  unfold condition.
  destruct building as [[|c b]|];
    rewrite ?andb_true_iff, str_eqb_eq; tauto.
Qed.

Lemma filter_classrooms_frame day from_time to_time building self h :
  let '(selected, self', h') :=
    filter_classrooms day from_time to_time building self h in
  df self' = selected
  /\ deref h' selected
     = filter (fun lr => condition day from_time to_time building (snd lr))
              (deref h (df self)).
Proof.
  simpl. split; [reflexivity|]. unfold deref at 1. apply nth_middle.
Qed.

(** X14.  Filters add up: without a restoration in between, a second
    [filter_classrooms] selects from what the first one left, so the
    frame held afterwards has the rows that meet both queries, whichever
    query came first; two queries for different days leave no row. *)
Theorem filters_accumulate :
  forall (self : EmptyRoomSchedule) (h : heap)
         (day1 day2 : str) (from1 to1 from2 to2 : Z)
         (building1 building2 : option str),
    let '(_, self1, h1) :=
      filter_classrooms day1 from1 to1 building1 self h in
    let '(_, self2, h2) :=
      filter_classrooms day2 from2 to2 building2 self1 h1 in
    let '(_, self1', h1') :=
      filter_classrooms day2 from2 to2 building2 self h in
    let '(_, self2', h2') :=
      filter_classrooms day1 from1 to1 building1 self1' h1' in
    deref h2 (df self2)
    = filter (fun lr => condition day1 from1 to1 building1 (snd lr)
                        && condition day2 from2 to2 building2 (snd lr))
             (deref h (df self))
    /\ deref h2' (df self2') = deref h2 (df self2)
    /\ (day1 <> day2 -> deref h2 (df self2) = []).
Proof.
  intros self h day1 day2 from1 to1 from2 to2 building1 building2. simpl.
  assert (E : forall (h0 : heap) (x : frame),
            deref (h0 ++ [x]) (List.length h0) = x)
    by (intros; unfold deref; apply nth_middle).
  rewrite !E, !filter_filter. split; [reflexivity|]. split.
  - apply filter_ext. intros lr. apply andb_comm.
  - intros Hne. apply filter_none. intros lr _.
    destruct (condition day1 from1 to1 building1 (snd lr)) eqn:E1;
      [|reflexivity].
    destruct (condition day2 from2 to2 building2 (snd lr)) eqn:E2;
      [|reflexivity].
    apply condition_day in E1. apply condition_day in E2. congruence.
Qed.

(** X15.  After [filter_classrooms], [df_to_ClassRoom_list] gives one
    [ClassRoom] for each selected row, in the order of the table, and
    every one of them is of the query day, free from [from_time] at the
    latest and to [to_time] at the earliest, and of the building asked
    for when one is given. *)
Theorem filtered_ClassRoom_list :
  forall (self : EmptyRoomSchedule) (h : heap)
         (query_day : str) (from_time to_time : Z) (wanted : option str),
    let '(_, self', h') :=
      filter_classrooms query_day from_time to_time wanted self h in
    List.length (df_to_ClassRoom_list self' h')
    = List.length
        (filter (fun lr => condition query_day from_time to_time wanted
                             (snd lr))
                (deref h (df self)))
    /\ forall c, In c (df_to_ClassRoom_list self' h') ->
         day c = query_day
         /\ (free_from c <= from_time)%Z
         /\ (to_time <= free_to c)%Z
         /\ match wanted with
            | Some ((_ :: _) as b) => building c = b
            | _ => True
            end.
Proof.
  intros self h query_day from_time to_time wanted. simpl.
  unfold df_to_ClassRoom_list. simpl.
  assert (E : forall (h0 : heap) (x : frame),
            deref (h0 ++ [x]) (List.length h0) = x)
    by (intros; unfold deref; apply nth_middle).
  rewrite E. split; [apply length_map|].
  intros c Hc. apply in_map_iff in Hc as (lr & <- & Hlr).
  apply filter_In in Hlr as [_ Hlr]. simpl.
  unfold condition in Hlr.
  destruct wanted as [[|x b]|];
    rewrite ?andb_true_iff, ?str_eqb_eq, ?Z.leb_le in Hlr; tauto.
Qed.

Lemma filters_accumulate_witness :
  let '(self, h) := init [] SampleFrames.week in
  let '(_, self1, h1) :=
    filter_classrooms (lit "월") 1000 1100 None self h in
  let '(_, self2, h2) :=
    filter_classrooms (lit "화") 1000 1100 None self1 h1 in
  deref h2 (df self2) = [].
Proof.
  pose proof (@filters_accumulate (fst (init [] SampleFrames.week))
                (snd (init [] SampleFrames.week))
                (lit "월") (lit "화") 1000 1100 1000 1100 None None) as H.
  simpl in H. destruct H as (_ & _ & H).
  simpl. apply H. vm_compute. discriminate.
Defined.

Lemma filtered_ClassRoom_list_witness :
  let '(self, h) := init [] SampleFrames.week in
  let '(_, self', h') :=
    filter_classrooms (lit "월") 1000 1100 (Some (lit "A동")) self h in
  List.length (df_to_ClassRoom_list self' h') = 1%nat
  /\ forall c, In c (df_to_ClassRoom_list self' h') ->
       day c = lit "월" /\ (free_from c <= 1000)%Z /\ (1100 <= free_to c)%Z.
Proof.
  pose proof (@filtered_ClassRoom_list (fst (init [] SampleFrames.week))
                (snd (init [] SampleFrames.week))
                (lit "월") 1000 1100 (Some (lit "A동"))) as H.
  simpl in H. destruct H as [Hlen H].
  simpl. split.
  - etransitivity; [exact Hlen|]. vm_compute. reflexivity.
  - intros c Hc. destruct (H c Hc) as (H1 & H2 & H3 & _). auto.
Defined.

End ClassroomMore.

(* ================================================================== *)
(** ** More on the time segments *)
(* ================================================================== *)

Section TimeSegments.
Import More.
Variable U : unicode_db.
Local Open Scope nat_scope.

Lemma rep_greedy_inv {R} cs (k : nat -> str -> option R) r s :
  forall lo hi p,
    rep_greedy U cs lo hi p s k = Some r ->
    exists n, lo <= n <= List.length s
              /\ (forall h, hi = Some h -> n <= h)
              /\ Forall (fun c => cset_mem U cs c = true) (firstn n s)
              /\ k (p + n) (skipn n s) = Some r.
Proof.
  assert (Hstop : forall lo hi p s,
            match lo with O => k p s | S _ => None end = Some r ->
            exists n, lo <= n <= List.length s
              /\ (forall h, hi = Some h -> n <= h)
              /\ Forall (fun c => cset_mem U cs c = true) (firstn n s)
              /\ k (p + n) (skipn n s) = Some r).
  { intros [|lo] hi p s0 H; [|discriminate]. exists O.
    rewrite Nat.add_0_r. simpl.
    repeat split; auto; lia. }
  induction s as [|c s IH]; intros lo hi p H.
  - apply Hstop. destruct hi as [[|]|]; exact H.
  - destruct hi as [[|hi]|]; [now apply Hstop| |]; simpl in H;
      (destruct (cset_mem U cs c) eqn:Hc; [|now apply Hstop]);
      match type of H with
      | match ?inner with _ => _ end = _ => destruct inner as [r'|] eqn:E
      end; try (now apply Hstop); injection H as ->;
      apply IH in E as (n & Hn & Hhi & Hall & Hk);
      exists (S n); (split; [simpl; lia|]);
      (split; [intros h [= <-]; try specialize (Hhi _ eq_refl); lia|]);
      (split; [simpl; now constructor|]);
      now rewrite Nat.add_succ_r.
Qed.

Lemma rmatch_seq_eq {R} r1 r2 st (k : mstate -> option R) :
  rmatch U (RSeq r1 r2) st k = rmatch U r1 st (fun st' => rmatch U r2 st' k).
Proof. reflexivity. Qed.

Lemma rmatch_group_eq {R} name r1 st (k : mstate -> option R) :
  rmatch U (RGroup name r1) st k
  = rmatch U r1 st (fun st' =>
      k {| pos := pos st'; rest := rest st';
           groups := (name, firstn (pos st' - pos st) (rest st))
                       :: groups st' |}).
Proof. reflexivity. Qed.

Lemma rmatch_rep {R} cs lo hi st (k : mstate -> option R) x :
  rmatch U (RRep cs lo hi) st k = Some x ->
  exists n, lo <= n <= List.length (rest st)
            /\ (forall h, hi = Some h -> n <= h)
            /\ Forall (fun c => cset_mem U cs c = true) (firstn n (rest st))
            /\ k {| pos := pos st + n; rest := skipn n (rest st);
                    groups := groups st |} = Some x.
Proof. simpl. intros H. now apply rep_greedy_inv in H. Qed.

Lemma rmatch_set {R} cs st (k : mstate -> option R) x :
  rmatch U (RSet cs) st k = Some x ->
  exists c s', rest st = c :: s' /\ cset_mem U cs c = true
               /\ k {| pos := S (pos st); rest := s'; groups := groups st |}
                  = Some x.
Proof.
  simpl. destruct (rest st) as [|c s']; [discriminate|].
  destruct (cset_mem U cs c) eqn:E; [|discriminate]. eauto.
Qed.

(** Two characters of a set at the head of a string. *)
Lemma two_of_set cs (s : str) n :
  2 <= n <= List.length s -> (forall h, Some 2 = Some h -> n <= h) ->
  Forall (fun c => cset_mem U cs c = true) (firstn n s) ->
  exists a b s', s = a :: b :: s' /\ n = 2
                 /\ cset_mem U cs a = true /\ cset_mem U cs b = true.
Proof.
  intros Hn Hhi Hall. specialize (Hhi 2 eq_refl).
  assert (n = 2) by lia. subst n.
  destruct s as [|a [|b s']]; simpl in Hn; try lia.
  simpl in Hall. inversion Hall as [|? ? Ha Hall']; subst.
  inversion Hall' as [|? ? Hb _]; subst.
  exists a, b, s'. auto.
Qed.

(** What the group of a time of day captures. *)
Lemma rmatch_clock {R} name st (k : mstate -> option R) x :
  rmatch U (RGroup name
              (RSeq (RRep CDigit 2 (Some 2))
                 (RSeq (RSet (CChar (ch ":"))) (RRep CDigit 2 (Some 2)))))
    st k = Some x ->
  exists t s', clock_shaped U t
               /\ rest st = t ++ s'
               /\ k {| pos := pos st + 5; rest := s';
                       groups := (name, t) :: groups st |} = Some x.
Proof.
  rewrite rmatch_group_eq, rmatch_seq_eq. intros H.
  apply rmatch_rep in H as (n1 & Hn1 & Hh1 & Hall1 & H).
  destruct (@two_of_set _ _ _ Hn1 Hh1 Hall1) as (a & b & s1 & E1 & -> & Ha & Hb).
  rewrite rmatch_seq_eq in H. cbv beta in H.
  apply rmatch_set in H as (c0 & s2 & E2 & Hc0 & H). cbn [rest pos groups] in *.
  rewrite E1 in E2. simpl in E2. subst s1.
  simpl in Hc0. apply N.eqb_eq in Hc0. subst c0.
  apply rmatch_rep in H as (n2 & Hn2 & Hh2 & Hall2 & H).
  cbn [rest pos groups] in *.
  destruct (@two_of_set _ _ _ Hn2 Hh2 Hall2) as (c & d & s3 & E3 & -> & Hc & Hd).
  subst s2. rewrite E1 in H. simpl skipn in H.
  replace (S (pos st + 2) + 2 - pos st) with 5 in H by lia.
  replace (S (pos st + 2) + 2) with (pos st + 5) in H by lia.
  simpl firstn in H.
  exists [a; b; ch ":"; c; d], s3.
  split; [|split; [exact E1 | exact H]].
  exists a, b, c, d. simpl in Ha, Hb, Hc, Hd. auto.
Qed.

(** The two times that a match of [time_pattern] captures. *)
Lemma time_match_inv p s m :
  match_here U time_pattern p s = Some m ->
  clock_shaped U (group (m_groups m) "start_time")
  /\ clock_shaped U (group (m_groups m) "end_time")
  /\ group (m_groups m) "day" <> [].
Proof.
  unfold match_here, time_pattern. cbn [rseq]. intros H.
  (* day *)
  rewrite rmatch_seq_eq, rmatch_group_eq in H.
  apply rmatch_rep in H as (n0 & Hn0 & _ & _ & H). cbn [rest pos groups] in *.
  (* blanks, bracket *)
  rewrite rmatch_seq_eq in H.
  apply rmatch_rep in H as (n1 & _ & _ & _ & H). cbn [rest pos groups] in *.
  rewrite rmatch_seq_eq in H.
  apply rmatch_set in H as (c1 & s1 & _ & _ & H). cbn [rest pos groups] in *.
  (* start_end *)
  rewrite rmatch_seq_eq, rmatch_group_eq, rmatch_seq_eq in H.
  apply rmatch_rep in H as (n2 & _ & _ & _ & H). cbn [rest pos groups] in *.
  rewrite rmatch_seq_eq in H.
  apply rmatch_rep in H as (n3 & _ & _ & _ & H). cbn [rest pos groups] in *.
  apply rmatch_rep in H as (n4 & _ & _ & _ & H). cbn [rest pos groups] in *.
  (* bracket, blanks *)
  rewrite rmatch_seq_eq in H.
  apply rmatch_set in H as (c2 & s2 & _ & _ & H). cbn [rest pos groups] in *.
  rewrite rmatch_seq_eq in H.
  apply rmatch_rep in H as (n5 & _ & _ & _ & H). cbn [rest pos groups] in *.
  (* the two times *)
  rewrite rmatch_seq_eq in H.
  apply rmatch_clock in H as (t1 & r1 & Ht1 & _ & H).
  cbn [rest pos groups] in *.
  rewrite rmatch_seq_eq in H.
  apply rmatch_set in H as (c3 & s3 & _ & _ & H). cbn [rest pos groups] in *.
  apply rmatch_clock in H as (t2 & r2 & Ht2 & _ & H).
  cbn [rest pos groups] in *.
  injection H as <-. cbn [m_groups group String.eqb Ascii.eqb Bool.eqb].
  simpl. split; [exact Ht1|]. split; [exact Ht2|].
  replace (p + n0 - p) with n0 by lia.
  destruct s as [|c s]; simpl in Hn0; [lia|].
  destruct n0; [lia | discriminate].
Qed.

Lemma finditer_go_In r m s : forall skip p,
  In m (finditer_go U r skip p s) ->
  exists p' s', match_here U r p' s' = Some m.
Proof.
  induction s as [|c s IH]; intros skip p H.
  - destruct skip; simpl in H; [|easy].
    destruct (match_here U r p []) as [m0|] eqn:E; [|easy].
    destruct H as [<-|[]]. eauto.
  - destruct skip; simpl in H; [|eauto].
    destruct (match_here U r p (c :: s)) as [m0|] eqn:E; [|eauto].
    destruct H as [<-|H]; eauto.
Qed.

(** X16.  Every record that the expansion returns has, in its day column,
    a non-empty string and, in each of its two time columns, a string
    of two decimal digits, a colon and two decimal digits. *)
Theorem expanded_times_are_clock_shaped :
  forall (rows : list RawScheduleRow) (table : list ExpandedRecord)
         (r : ExpandedRecord),
    expand_lecture_times U rows = Ok table ->
    In r table ->
    exists day start_time end_time,
      col_Day r = PStr day /\ day <> []
      /\ col_Free_From r = PStr start_time /\ clock_shaped U start_time
      /\ col_Free_To r = PStr end_time /\ clock_shaped U end_time.
Proof.
  intros rows. induction rows as [|row rows IH]; intros table r He Hr.
  - simpl in He. injection He as <-. easy.
  - simpl in He.
    destruct (expand_row U row) as [rs|] eqn:Er; simpl in He; [|discriminate].
    destruct (expand_lecture_times U rows) as [more|]; simpl in He;
      [|discriminate].
    injection He as <-. apply in_app_or in Hr as [Hr|Hr]; [|eauto].
    clear IH.
    assert (Hshape : forall tm,
              In tm (finditer U time_pattern (lecture_time row)) ->
              clock_shaped U (group (m_groups tm) "start_time")
              /\ clock_shaped U (group (m_groups tm) "end_time")
              /\ group (m_groups tm) "day" <> []).
    { intros tm Htm. apply finditer_go_In in Htm as (p' & s' & Htm).
      now apply time_match_inv in Htm. }
    destruct (search U room_pattern (lecture_time row)) as [m|] eqn:Hs.
    + destruct (existsb (fun keyword =>
                  contains keyword (group (m_groups m) "room")) keywords)
        eqn:Hx.
      * unfold expand_row, parse_lecture_time in Er. rewrite Hs, Hx in Er.
        simpl in Er. injection Er as <-. easy.
      * destruct (Nat.ltb_spec 2
                    (List.length
                       (split (ch ",") (group (m_groups m) "room"))))
          as [Hn|Hn].
        -- destruct (finditer U time_pattern (lecture_time row)) as [|tm tms]
             eqn:Hf.
           ++ unfold expand_row in Er.
              rewrite (parse_without_time_segment U _ Hf) in Er.
              simpl in Er. injection Er as <-. easy.
           ++ assert (Hf' : finditer U time_pattern (lecture_time row) <> [])
                by now rewrite Hf.
             destruct (three_rooms_raise_when_timed U row [] Hf' Hs Hx Hn)
               as [Hp _].
             unfold expand_row in Er. rewrite Hp in Er. discriminate.
        -- rewrite (expand_row_with_rooms U row Hs Hx) in Er by lia.
           injection Er as <-.
           apply in_map_iff in Hr as (tm & <- & Htm).
           destruct (Hshape tm Htm) as (H1 & H2 & H3).
           simpl. eauto 10.
    + unfold expand_row in Er.
      rewrite (parse_without_room_list U _ Hs) in Er.
      destruct (finditer U time_pattern (lecture_time row)) as [|tm tms];
        [|discriminate].
      simpl in Er. injection Er as <-. easy.
Qed.

End TimeSegments.

Lemma expanded_times_are_clock_shaped_witness :
  exists day start_time end_time,
    col_Day Sample.monday_record = PStr day /\ day <> []
    /\ col_Free_From Sample.monday_record = PStr start_time
    /\ More.clock_shaped ucd_timetable start_time
    /\ col_Free_To Sample.monday_record = PStr end_time
    /\ More.clock_shaped ucd_timetable end_time.
Proof.
  apply (@expanded_times_are_clock_shaped ucd_timetable
           [Sample.raw "월[1~2] 09:00~10:15 (A동101)"]
           Sample.monday_lecture Sample.monday_record).
  - vm_compute. reflexivity.
  - now left.
Defined.

(* ================================================================== *)
(** ** A second run of [find_empty_rooms] *)
(* ================================================================== *)

Section SecondRun.
Import More.
Variable U : unicode_db.

Lemma free_times_absorb X : forall L,
  Forall proper L -> incl X L -> free_times (X ++ L) = free_times L.
Proof.
  induction X as [|x X IH]; intros L Hp Hincl; [reflexivity|].
  assert (HX : incl X L) by (intros y Hy; apply Hincl; now right).
  assert (Hx : In x L) by (apply Hincl; now left).
  assert (HpXL : Forall proper (X ++ L)).
  { apply Forall_app. split; [|exact Hp].
    rewrite Forall_forall in *. intros y Hy. apply Hp, HX, Hy. }
  assert (Hpx : proper x) by (rewrite Forall_forall in Hp; now apply Hp).
  rewrite <- (IH L Hp HX).
  destruct (in_split x (X ++ L)) as (l1 & l2 & E);
    [apply in_or_app; now right|].
  assert (Hperm : Permutation (X ++ L) (x :: l1 ++ l2)).
  { rewrite E. symmetry. apply Permutation_middle. }
  assert (Hp2 : Forall proper (x :: l1 ++ l2)).
  { rewrite Forall_forall in *. intros y Hy. apply HpXL.
    eapply Permutation_in; [symmetry; exact Hperm | exact Hy]. }
  simpl.
  rewrite (@free_times_perm (x :: X ++ L) (x :: x :: l1 ++ l2));
    [|now constructor | now constructor].
  rewrite free_times_merge_pair;
    [|now constructor | split; exact Hpx].
  replace (hull x x) with x
    by (destruct x; unfold hull; simpl; now rewrite Z.min_id, Z.max_id).
  symmetry. apply free_times_perm; assumption.
Qed.

Lemma indexed_at_day rs b n d f b' n' :
  indexed (at_day rs b n d f) b' n' <-> indexed rs b' n' \/ (b' = b /\ n' = n).
Proof.
  destruct (list_eq_dec N.eq_dec b b') as [<-|Hb].
  - destruct (list_eq_dec N.eq_dec n n') as [<-|Hn].
    + split; [auto | intros _; apply at_day_indexed].
    + unfold indexed, room_present, at_day.
      rewrite (dict_get_upd_same str_eqb str_eqb_eq).
      split.
      * intros (schedule & rooms & [= <-] & H).
        rewrite (dict_get_upd_other str_eqb str_eqb_eq) in H by exact Hn.
        left. destruct (dict_get str_eqb rs b) as [rooms|];
          [eauto | discriminate].
      * intros [(schedule & rooms & H1 & H2)|[_ ->]]; [|easy].
        exists schedule. eexists. split; [reflexivity|].
        rewrite (dict_get_upd_other str_eqb str_eqb_eq) by exact Hn.
        now rewrite H1.
  - unfold indexed, room_present, at_day.
    split.
    + intros (schedule & rooms & H1 & H2).
      rewrite (dict_get_upd_other str_eqb str_eqb_eq) in H1 by exact Hb.
      eauto.
    + intros [(schedule & rooms & H1 & H2)|[-> _]]; [|easy].
      exists schedule, rooms.
      rewrite (dict_get_upd_other str_eqb str_eqb_eq) by exact Hb. auto.
Qed.

(** The rooms of the index after one room string is entered. *)
Lemma add_room_indexed row rs single_room rs' :
  add_room U row rs single_room = Ok rs' ->
  forall b n,
    indexed rs' b n
    <-> indexed rs b n \/ resolve_room (strip single_room) = Some (b, n).
Proof.
  unfold add_room.
  destruct (resolve_room (strip single_room)) as [[b0 n0]|];
    [|intros [= <-] b n; split; [auto | now intros [H|H]]].
  assert (Hkey : forall b n : str,
            b = b0 /\ n = n0 <-> Some (b0, n0) = Some (b, n)).
  { intros b n. split; [now intros [-> ->] | now intros [= -> ->]]. }
  destruct (strptime U (col_Free_From row)) as [t1|[]]; try discriminate.
  2:{ intros [= <-] b n. now rewrite indexed_at_day, Hkey. }
  destruct (strptime U (col_Free_To row)) as [t2|[]]; try discriminate;
    intros [= <-] b n; rewrite ?indexed_at_day, Hkey; tauto.
Qed.

Lemma foldM_rel {A B} (R : B -> B -> Prop) (f : B -> A -> result B) l :
  (forall a b x a' b',
     R a b -> f a x = Ok a' -> f b x = Ok b' -> R a' b') ->
  forall a b a' b',
    R a b -> foldM f l a = Ok a' -> foldM f l b = Ok b' -> R a' b'.
Proof.
  intros Hf. induction l as [|x l IH]; simpl; intros a b a' b' HR Ha Hb.
  - injection Ha as <-. now injection Hb as <-.
  - destruct (f a x) as [a1|] eqn:Ea; simpl in Ha; [|discriminate].
    destruct (f b x) as [b1|] eqn:Eb; simpl in Hb; [|discriminate].
    eapply IH; [|exact Ha|exact Hb]. eapply Hf; eauto.
Qed.

(** The rooms of the index after a table is entered are the rooms it held
    and the rooms the table puts into an empty index. *)
Lemma extraction_indexed table rs0 rsA rsB :
  foldM (add_row U) table [] = Ok rsA ->
  foldM (add_row U) table rs0 = Ok rsB ->
  forall b n, indexed rsB b n <-> indexed rs0 b n \/ indexed rsA b n.
Proof.
  set (R := fun rA rB : building_map =>
              forall b n, indexed rB b n <-> indexed rs0 b n \/ indexed rA b n).
  intros HA HB.
  apply (@foldM_rel _ _ R (add_row U) table) with (a := []) (b := rs0);
    [| |exact HA|exact HB].
  - clear. intros rA rB row rA' rB' HR. unfold add_row.
    revert HR. apply foldM_rel. clear.
    intros rA rB room rA' rB' HR. unfold add_column.
    destruct room as [|room]; [now intros [= <-] [= <-]|].
    revert HR. apply foldM_rel. clear.
    intros rA rB s rA' rB' HR EA EB b n.
    pose proof (add_room_indexed _ _ _ EB b n) as HB.
    pose proof (add_room_indexed _ _ _ EA b n) as HA.
    pose proof (HR b n) as H0.
    tauto.
  - intros b n. split; [auto|].
    intros [H|(schedule & rooms & H & _)]; [exact H | discriminate].
Qed.

Lemma map_values_keys {V W} (g : V -> W) (d : dict str V) :
  map fst (map (fun '(k, v) => (k, g v)) d) = map fst d.
Proof. induction d as [|[k v] d IH]; simpl; congruence. Qed.

Lemma sort_in_place_ok rs : index_ok rs -> index_ok (sort_in_place rs).
Proof.
  intros [H1 H2]. unfold sort_in_place. split.
  - unfold unique_keys.
    now rewrite (map_values_keys
                   (fun rooms : room_map =>
                      map (fun '(room_number, schedule) =>
                             (room_number, sort_days schedule)) rooms)).
  - rewrite Forall_map. rewrite Forall_forall in *.
    intros [b rooms] Hb. simpl. unfold unique_keys.
    rewrite (map_values_keys sort_days). exact (H2 _ Hb).
Qed.

Lemma sort_in_place_indexed rs b n :
  indexed (sort_in_place rs) b n <-> indexed rs b n.
Proof.
  unfold indexed, room_present, sort_in_place.
  rewrite (dict_get_map_values
             (fun rooms : room_map =>
                map (fun '(room_number, schedule) =>
                       (room_number, sort_days schedule)) rooms)).
  destruct (dict_get str_eqb rs b) as [rooms|]; simpl.
  - split.
    + intros (schedule & rooms' & [= <-] & H).
      rewrite (dict_get_map_values sort_days) in H.
      destruct (dict_get str_eqb rooms n) as [s|] eqn:En; [|discriminate].
      exists s, rooms. auto.
    + intros (schedule & rooms' & [= <-] & H).
      eexists. eexists. split; [reflexivity|].
      rewrite (dict_get_map_values sort_days), H. reflexivity.
  - split; intros (schedule & rooms' & H & _); discriminate.
Qed.

Lemma dict_In_get {V} (d : dict str V) k v :
  unique_keys d -> In (k, v) d -> dict_get str_eqb d k = Some v.
Proof.
  unfold unique_keys.
  induction d as [|[k0 v0] d IH]; simpl; [easy|].
  intros Hu Hin. apply NoDup_cons_iff in Hu as [Hk Hu].
  destruct Hin as [[= -> ->]|Hin].
  - now rewrite str_eqb_refl.
  - destruct (str_eqb k0 k) eqn:E; [|auto].
    apply str_eqb_eq in E. subst k0. exfalso. apply Hk.
    apply (in_map fst) in Hin. exact Hin.
Qed.

(** The rows of a room of the index on a day of the week come from the
    free times of its bookings on that day. *)
Lemma rows_for_indexed rs b n day :
  index_ok rs -> In day days -> indexed rs b n ->
  rows_for b n day (empty_rooms rs)
  = map (fun free =>
           {| Building := b; Room_Number := n; Day := day;
              Free_From := strftime (fst free);
              Free_To := strftime (snd free) |})
        (free_times (booked_at rs b n (PStr day))).
Proof.
  intros [Hu Hall] Hday [schedule Hp].
  rewrite <- (room_present_booked day Hp).
  destruct Hp as (rooms & Hb & Hr).
  rewrite rows_for_index with (rooms := rooms); [|exact Hu|exact Hb].
  rewrite rows_for_rooms with (schedule := schedule).
  - now apply rows_for_day.
  - rewrite Forall_forall in Hall. apply (Hall (b, rooms)).
    eapply dict_get_In; [apply str_eqb_eq | exact Hb].
  - exact Hr.
Qed.

(** A table has rows only for rooms of the index and days of the week. *)
Lemma rows_for_absent rs b n day :
  index_ok rs -> ~ (In day days /\ indexed rs b n) ->
  rows_for b n day (empty_rooms rs) = [].
Proof.
  intros [Hu Hall] Hno. apply filter_none. intros r Hr.
  apply empty_rooms_In in Hr
    as (rooms & schedule & free & Hb & Hn & Hd & _).
  destruct (str_eqb (Building r) b) eqn:E1; [|reflexivity].
  destruct (str_eqb (Room_Number r) n) eqn:E2; [|reflexivity].
  destruct (str_eqb (Day r) day) eqn:E3; [|reflexivity].
  apply str_eqb_eq in E1, E2, E3. subst. exfalso. apply Hno.
  split; [exact Hd|]. exists schedule, rooms. split.
  - now apply dict_In_get.
  - apply dict_In_get; [|exact Hn].
    rewrite Forall_forall in Hall. exact (Hall _ Hb).
Qed.

Lemma indexed_dec rs b n : indexed rs b n \/ ~ indexed rs b n.
Proof.
  unfold indexed, room_present.
  destruct (dict_get str_eqb rs b) as [rooms|] eqn:Eb.
  - destruct (dict_get str_eqb rooms n) as [schedule|] eqn:En.
    + left. eauto.
    + right. intros (schedule & rooms' & [= <-] & H). congruence.
  - right. intros (schedule & rooms' & H & _). discriminate.
Qed.

Lemma is_weekday_days day : In day days -> is_weekday (PStr day) = true.
Proof.
  intros H. unfold is_weekday. apply existsb_exists.
  exists day. split; [exact H|]. now apply value_eqb_eq.
Qed.

(** X17.  [find_empty_rooms] can be run again on the scheduler it leaves
    behind: the table is entered into the index a second time, and as
    long as no booked interval ends before it starts the second result
    has, for every room and day, the rows of the first. *)
Theorem second_run_same_rows :
  forall (self after1 : RoomScheduler) (rows1 : list EmptyRoom),
    index_ok (room_schedule self) ->
    find_empty_rooms U self = Ok (rows1, after1) ->
    (forall b n day,
       Forall proper (booked_at (room_schedule after1) b n day)) ->
    exists rows2 after2,
      find_empty_rooms U after1 = Ok (rows2, after2)
      /\ forall b n day,
           rows_for b n day rows2 = rows_for b n day rows1.
Proof.
  intros self after1 rows1 Hok H1 Hproper.
  unfold find_empty_rooms in H1.
  destruct (extract_room_schedule U self) as [idx1|] eqn:He;
    simpl in H1; [|discriminate].
  injection H1 as <- <-.
  pose proof (@extract_room_schedule_ok U _ _ Hok He) as Hok1.
  unfold extract_room_schedule in He.
  destruct (foldM (add_row U) (df self) (room_schedule self)) as [rs1|] eqn:E1;
    simpl in He; [|discriminate].
  injection He as <-. simpl in *.
  destruct (@appends_returns (fun rs => foldM (add_row U) (df self) rs)
              (room_schedule self) rs1) as [added H]; [|exact E1|].
  { apply appends_foldM. intros; apply appends_add_row. }
  destruct (H (room_schedule self)) as (rs1' & E1' & B1).
  rewrite E1 in E1'. injection E1' as <-.
  destruct (H []) as (rsA & EA & _).
  destruct (H (sort_in_place rs1)) as (rs2 & E2 & B2).
  assert (Hok2 : index_ok rs2).
  { revert E2. apply foldM_inv; [|now apply sort_in_place_ok].
    intros; eapply add_row_ok; eauto. }
  assert (Hidx : forall b n, indexed rs2 b n <-> indexed rs1 b n).
  { intros b n.
    pose proof (@extraction_indexed _ _ _ _ EA E2 b n) as I2.
    pose proof (@extraction_indexed _ _ _ _ EA E1 b n) as I1.
    pose proof (sort_in_place_indexed rs1 b n) as I0.
    tauto. }
  exists (empty_rooms rs2). eexists. split.
  { unfold find_empty_rooms, extract_room_schedule. simpl.
    rewrite E2. reflexivity. }
  intros b n day.
  destruct (in_dec (list_eq_dec N.eq_dec) day days) as [Hday|Hday].
  2:{ rewrite !rows_for_absent; tauto. }
  destruct (indexed_dec rs1 b n) as [Hin|Hin].
  2:{ rewrite !rows_for_absent; auto; rewrite ?Hidx; tauto. }
  rewrite !rows_for_indexed; auto; [|now apply Hidx].
  f_equal.
  specialize (Hproper b n (PStr day)).
  rewrite booked_at_sort_in_place, is_weekday_days in Hproper by exact Hday.
  rewrite B2, booked_at_sort_in_place, is_weekday_days by exact Hday.
  set (L := booked_at rs1 b n (PStr day)) in *.
  assert (Hadd : incl (added b n (PStr day)) (sort_by_start L)).
  { intros x Hx. apply (Permutation_in x (sort_by_start_perm L)).
    unfold L. rewrite B1. apply in_or_app. now right. }
  assert (HpL : Forall proper L).
  { rewrite Forall_forall in *. intros x Hx. apply Hproper.
    apply (Permutation_in x (sort_by_start_perm L)). exact Hx. }
  rewrite (@free_times_perm (sort_by_start L ++ added b n (PStr day))
             (added b n (PStr day) ++ sort_by_start L)).
  - rewrite free_times_absorb by assumption.
    symmetry. apply free_times_perm; [exact HpL | apply sort_by_start_perm].
  - apply Forall_app. split; [exact Hproper|].
    rewrite Forall_forall in *. intros x Hx. apply Hproper, Hadd, Hx.
  - apply Permutation_app_comm.
Qed.

End SecondRun.

Lemma second_run_same_rows_witness :
  exists rows2 after2,
    find_empty_rooms ucd_timetable
      {| df := Sample.monday_lecture;
         room_schedule := sort_in_place Sample.monday_index |}
    = Ok (rows2, after2)
    /\ rows_for (lit "A동") (lit "101") (lit "월") rows2
       = rows_for (lit "A동") (lit "101") (lit "월")
           (empty_rooms Sample.monday_index).
Proof.
  destruct (@second_run_same_rows ucd_timetable
              (init Sample.monday_lecture)
              {| df := Sample.monday_lecture;
                 room_schedule := sort_in_place Sample.monday_index |}
              (empty_rooms Sample.monday_index))
    as (rows2 & after2 & H1 & H2).
  - split; constructor.
  - vm_compute. reflexivity.
  - intros b n day. unfold More.booked_at.
    destruct (dict_get str_eqb _ b) as [rooms|] eqn:Eb; [|constructor].
    apply (dict_get_In str_eqb str_eqb_eq) in Eb.
    destruct Eb as [[= <- <-]|[]].
    destruct (dict_get str_eqb _ n) as [schedule|] eqn:En; [|constructor].
    apply (dict_get_In str_eqb str_eqb_eq) in En.
    destruct En as [[= <- <-]|[]].
    destruct (dict_get value_eqb _ day) as [booked|] eqn:Ed; [|constructor].
    apply (dict_get_In value_eqb value_eqb_eq) in Ed.
    destruct Ed as [[= <- <-]|[]].
    repeat constructor. vm_compute. discriminate.
  - exists rows2, after2. split; [exact H1 | apply H2].
Defined.

(* ================================================================== *)
(** ** The outcomes of a whole run *)
(* ================================================================== *)

Section Outcomes.
Variable U : unicode_db.

Lemma expand_row_outcome row :
  (exists records, expand_row U row = Ok records)
  \/ expand_row U row = Raise (ValueError "room is more than 2")
  \/ expand_row U row = Raise (KeyError "room_a").
Proof.
  destruct (search U room_pattern (lecture_time row)) as [m|] eqn:Hs.
  - destruct (existsb (fun keyword =>
                contains keyword (group (m_groups m) "room")) keywords)
      eqn:Hx.
    + left. exists []. unfold expand_row, parse_lecture_time.
      now rewrite Hs, Hx.
    + destruct (Nat.ltb_spec 2
                  (List.length
                     (split (ch ",") (group (m_groups m) "room"))))
        as [Hn|Hn].
      * destruct (finditer U time_pattern (lecture_time row)) as [|tm tms]
          eqn:Hf.
        -- left. exists []. unfold expand_row.
           now rewrite (parse_without_time_segment U _ Hf).
        -- right. left.
           assert (Hf' : finditer U time_pattern (lecture_time row) <> [])
             by now rewrite Hf.
           destruct (three_rooms_raise_when_timed U row [] Hf' Hs Hx Hn)
             as [Hp _].
           unfold expand_row. now rewrite Hp.
      * left. eexists. apply expand_row_with_rooms; eauto.
  - unfold expand_row. rewrite (parse_without_room_list U _ Hs).
    destruct (finditer U time_pattern (lecture_time row)) as [|tm tms].
    + left. now exists [].
    + right. right. reflexivity.
Qed.

Lemma expand_lecture_times_outcome rows :
  (exists table, expand_lecture_times U rows = Ok table)
  \/ expand_lecture_times U rows = Raise (ValueError "room is more than 2")
  \/ expand_lecture_times U rows = Raise (KeyError "room_a").
Proof.
  induction rows as [|row rows IH]; simpl; [left; eauto|].
  destruct (expand_row_outcome row) as [[records ->]|[ -> | -> ]]; simpl; auto.
  destruct IH as [[table ->]|[ -> | -> ]]; simpl; eauto.
Qed.

Lemma sort_values_not_nil l : l <> [] -> sort_values l <> [].
Proof.
  intros Hl E. apply Hl. apply Permutation_nil.
  rewrite <- E. symmetry. apply sort_values_perm.
Qed.

(** X18.  A whole run ends in one of four ways: it hands a table with at
    least one row to the writer, or it raises [ValueError] for a room
    list of more than two rooms, [KeyError] for the key [room_a], or
    [KeyError] for the column [Building].  No time of day that cannot be
    read makes the run fail. *)
Theorem process_outcomes :
  forall rows : list RawScheduleRow,
    (exists out, process U rows = Ok out /\ out <> [])
    \/ process U rows = Raise (ValueError "room is more than 2")
    \/ process U rows = Raise (KeyError "room_a")
    \/ process U rows = Raise (KeyError "Building").
Proof.
  intros rows. unfold process.
  destruct (expand_lecture_times_outcome rows) as [[table He]|[He|He]];
    rewrite He; simpl; auto.
  destruct (find_empty_rooms_returns U rows He) as (indexed & _ & Hf).
  unfold save_empty_rooms_to_csv. rewrite Hf. simpl.
  destruct (empty_rooms (room_schedule indexed)) as [|r l] eqn:E;
    cbn [bind]; auto.
  left. eexists. split; [reflexivity|].
  apply sort_values_not_nil. discriminate.
Qed.

End Outcomes.
